(** * Bracket-order lifecycle engine of the Kotak Neo trading CLI

    A shallow embedding of [models.py], [trade.py] and [trade_manager.py]
    (package [kotak_algo_cli_live]; package [kotak_algo_cli] has the same
    code with comments and docstrings added), and the properties of the
    trade executor, the OCO monitor and the trade registry.

    The engine is asyncio code.  It is modelled by explicit state passing
    over a [World]: the broker gateway, the object store of [Trade]
    objects, the table of asyncio tasks, the two dictionaries of the
    executor, the two dictionaries of the manager, and the trace of
    effects.  What the event loop runs while the main coroutine is
    suspended is read from a schedule carried by the world, so every
    theorem holds for every interleaving of the background tasks. *)

From Stdlib Require Import ZArith Floats Ascii.
From stdpp Require Import gmap strings list fin_maps pretty.

Local Open Scope Z_scope.

(** ** models.py *)

Inductive OrderStatus :=
  PENDING | TRIGGER_PENDING | PARTIALLY_FILLED | FILLED | CANCELLED | REJECTED.

Inductive OrderType := MARKET | LIMIT | STOP_LOSS | TARGET.

Inductive TradeSide := BUY | SELL.

Definition TradeSide_eqb (a b : TradeSide) : bool :=
  match a, b with
  | BUY, BUY | SELL, SELL => true
  | _, _ => false
  end.

(** Prices are Python floats: IEEE 754 binary64, with its own addition
    and subtraction. *)
Abbreviation price_t := PrimFloat.float.

(** [Order]: one leg.  The [timestamp] field (wall-clock time of
    creation) is written once by [__post_init__] and read nowhere in the
    engine; it is left out. *)
Record Order := mkOrder {
  order_id : string;
  symbol : string;
  order_type : OrderType;
  side : TradeSide;
  quantity : Z;
  price : option price_t;
  trigger_price : option price_t;
  status : OrderStatus;
  filled_quantity : Z;
  average_price : option price_t
}.

(** [order.order_id = oid] *)
Definition set_order_id (oid : string) (o : Order) : Order :=
  mkOrder oid (symbol o) (order_type o) (side o) (quantity o) (price o)
    (trigger_price o) (status o) (filled_quantity o) (average_price o).

(** [Trade]: one bracket.  [created_at] is left out like [timestamp]. *)
Record Trade := mkTrade {
  trade_id : string;
  t_symbol : string;
  t_side : TradeSide;
  t_quantity : Z;
  entry_price : price_t;
  stop_loss_points : price_t;
  target_points : price_t;
  market_order : Order;
  stop_loss_order : Order;
  target_order : Order;
  active : bool
}.

(** [trade.active = b] *)
Definition set_active (b : bool) (t : Trade) : Trade :=
  mkTrade (trade_id t) (t_symbol t) (t_side t) (t_quantity t) (entry_price t)
    (stop_loss_points t) (target_points t) (market_order t)
    (stop_loss_order t) (target_order t) b.

Record TradeResult := mkTradeResult {
  success : bool;
  message : string;
  r_trade_id : option string;
  order_ids : option (list string)
}.

(** The dictionary [get_order_status] returns. *)
Record OrderStatusInfo := mkOrderStatusInfo {
  os_order_id : string;
  os_status : option string;
  os_filled_quantity : Z;
  os_average_price : option price_t;
  os_remaining_quantity : Z
}.

(** ** The broker gateway

    [KotakNeoClient] is an I/O wrapper: each method catches every
    exception and answers with a value.  It is an interface here; [GW]
    is whatever state the broker keeps. *)
Class KotakNeoClient (GW : Type) := {
  place_order : Order -> GW -> option string * GW;
  get_order_status : string -> GW -> option OrderStatusInfo * GW;
  cancel_order : string -> GW -> bool * GW
}.

(** [uuid.uuid4()]: the [n]-th identifier drawn. *)
Class UuidSource := uuid4 : nat -> string.

(** ** Python dictionaries that are iterated

    [active_trades] and [ltp_streams] are listed with [keys()] and
    [values()], in insertion order: association lists. *)
Section PyDict.
Context {V : Type}.

Definition dict_contains (k : string) (d : list (string * V)) : bool :=
    bool_decide (k ∈ d.*1).

Definition dict_get (k : string) (d : list (string * V)) : option V :=
    (λ x, x.2.2) <$> list_find (λ p, p.1 = k) d.

(** [d[k] = v]: in place when the key is there, appended otherwise. *)
Definition dict_set (k : string) (v : V) (d : list (string * V))
    : list (string * V) :=
    if dict_contains k d
    then (λ p, if bool_decide (p.1 = k) then (k, v) else p) <$> d
    else d ++ [(k, v)].

(** [del d[k]] *)
Definition dict_del (k : string) (d : list (string * V))
    : list (string * V) :=
    filter (λ p, p.1 ≠ k) d.

Definition dict_keys (d : list (string * V)) : list string := d.*1.
Definition dict_values (d : list (string * V)) : list V := d.*2.
End PyDict.

(** ** asyncio: tasks, the trace and the world *)

Inductive lock_name := trade_lock | stream_lock.

Inductive event :=
  | EvPlaceOrder (o : Order)
  | EvGetOrderStatus (oid : string)
  | EvCancelOrder (oid : string)
  | EvSleep (milliseconds : Z)
  | EvCreateTask (h : nat)
  | EvCancelTask (h : nat)
  | EvAwaitTask (h : nat)
  | EvAcquire (l : lock_name)
  | EvRelease (l : lock_name)
  | EvCleanup (tid : string).

(** Who produced an event: the main coroutine (the caller of the manager
    and of the executor), a background task, or a done-callback of a
    task run by the event loop. *)
Inductive actor := MainCoroutine | InTask (h : nat) | DoneCallback (h : nat).

Inductive Coroutine :=
  | monitor_oco_orders (trade_ref : nat)
  | run_ltp_stream (sym : string).

(** An asyncio task.  [done_callbacks] are the callbacks added with
    [add_done_callback] that have not run yet; a callback here is the
    lambda of [start_order_monitoring], kept as the trade id it passes to
    [_cleanup_trade_resources]. *)
Record Task := mkTask {
  coro : Coroutine;
  done : bool;
  must_cancel : bool;
  cancelled : bool;
  done_callbacks : list string
}.

(** What the event loop can do for a background task: resume it until
    its next suspension, or run the done-callbacks of a finished task. *)
Inductive sched_action := StepTask (h : nat) | RunCallbacks (h : nat).

Record TradeExecutor := mkTradeExecutor {
  active_orders : gmap string nat;
  trade_locks : gmap string unit
}.

Record TradeManager := mkTradeManager {
  active_trades : list (string * nat);
  ltp_streams : list (string * nat)
}.

Record World (GW : Type) := mkWorld {
  gateway : GW;
  trace : list (actor * event);
  running : actor;
  schedule : list (list sched_action);
  uuid_counter : nat;
  next_handle : nat;
  heap : gmap nat Trade;
  tasks : gmap nat Task;
  executor : TradeExecutor;
  manager : TradeManager
}.

Arguments mkWorld {GW}.
Arguments gateway {GW}.
Arguments trace {GW}.
Arguments running {GW}.
Arguments schedule {GW}.
Arguments uuid_counter {GW}.
Arguments next_handle {GW}.
Arguments heap {GW}.
Arguments tasks {GW}.
Arguments executor {GW}.
Arguments manager {GW}.

Section Updates.
Context {GW : Type}.
Implicit Type w : World GW.

Definition with_gateway (g : GW) w : World GW :=
    mkWorld g (trace w) (running w) (schedule w) (uuid_counter w)
      (next_handle w) (heap w) (tasks w) (executor w) (manager w).
Definition with_trace (t : list (actor * event)) w : World GW :=
    mkWorld (gateway w) t (running w) (schedule w) (uuid_counter w)
      (next_handle w) (heap w) (tasks w) (executor w) (manager w).
Definition with_running (a : actor) w : World GW :=
    mkWorld (gateway w) (trace w) a (schedule w) (uuid_counter w)
      (next_handle w) (heap w) (tasks w) (executor w) (manager w).
Definition with_schedule (s : list (list sched_action)) w : World GW :=
    mkWorld (gateway w) (trace w) (running w) s (uuid_counter w)
      (next_handle w) (heap w) (tasks w) (executor w) (manager w).
Definition with_uuid_counter (n : nat) w : World GW :=
    mkWorld (gateway w) (trace w) (running w) (schedule w) n
      (next_handle w) (heap w) (tasks w) (executor w) (manager w).
Definition with_next_handle (n : nat) w : World GW :=
    mkWorld (gateway w) (trace w) (running w) (schedule w) (uuid_counter w)
      n (heap w) (tasks w) (executor w) (manager w).
Definition with_heap (m : gmap nat Trade) w : World GW :=
    mkWorld (gateway w) (trace w) (running w) (schedule w) (uuid_counter w)
      (next_handle w) m (tasks w) (executor w) (manager w).
Definition with_tasks (m : gmap nat Task) w : World GW :=
    mkWorld (gateway w) (trace w) (running w) (schedule w) (uuid_counter w)
      (next_handle w) (heap w) m (executor w) (manager w).
Definition with_executor (e : TradeExecutor) w : World GW :=
    mkWorld (gateway w) (trace w) (running w) (schedule w) (uuid_counter w)
      (next_handle w) (heap w) (tasks w) e (manager w).
Definition with_manager (m : TradeManager) w : World GW :=
    mkWorld (gateway w) (trace w) (running w) (schedule w) (uuid_counter w)
      (next_handle w) (heap w) (tasks w) (executor w) m.
End Updates.

(** ** The state monad of the engine *)

Definition M (GW A : Type) : Type := World GW -> A * World GW.

Definition ret {GW A} (a : A) : M GW A := λ w, (a, w).
Definition bind {GW A B} (m : M GW A) (k : A -> M GW B) : M GW B :=
  λ w, let '(a, w1) := m w in k a w1.

Declare Scope engine_scope.
Delimit Scope engine_scope with engine.
Notation "x <- m ;; k" := (bind m (λ x, k))
  (at level 100, m at next level, right associativity) : engine_scope.
Notation "m ;;; k" := (bind m (λ _, k))
  (at level 100, right associativity) : engine_scope.
Local Open Scope engine_scope.

(** [status in ['COMPLETE', 'FILLED', 'EXECUTED']] *)
Definition terminal_filled (s : option string) : bool :=
  match s with
  | None => false
  | Some x => bool_decide (x ∈ ["COMPLETE"; "FILLED"; "EXECUTED"]%string)
  end.

(** [status in ['PENDING', 'TRIGGER_PENDING', 'OPEN']] *)
Definition still_live (s : option string) : bool :=
  match s with
  | None => false
  | Some x => bool_decide (x ∈ ["PENDING"; "TRIGGER_PENDING"; "OPEN"]%string)
  end.

(** ** trade.py: the executor and the OCO monitor *)

(** One pass of the loop of [_monitor_oco_orders], from the test of
    [trade.active] to the next [asyncio.sleep] or to the end of the
    coroutine. *)
Inductive iteration :=
  | LoopExit          (* [trade.active] was already false *)
  | AbsentStatus      (* a status was [None]: sleep, [continue] *)
  | StopLossFilled    (* first branch: [trade.active = False; break] *)
  | TargetFilled      (* [elif] branch: [trade.active = False; break] *)
  | NoFill.           (* neither leg filled: sleep *)

(** Does the coroutine still run after this pass? *)
Definition suspends (i : iteration) : bool :=
  match i with
  | AbsentStatus | NoFill => true
  | LoopExit | StopLossFilled | TargetFilled => false
  end.

Section Engine.
Context {GW : Type} `{!KotakNeoClient GW} `{!UuidSource}.

Abbreviation Eng := (M GW).

Definition emit (e : event) : Eng unit :=
  λ w, (tt, with_trace (trace w ++ [(running w, e)]) w).

Definition fresh_uuid : Eng string :=
  λ w, (uuid4 (uuid_counter w), with_uuid_counter (S (uuid_counter w)) w).

Definition fresh_handle : Eng nat :=
  λ w, (next_handle w, with_next_handle (S (next_handle w)) w).

(** The three calls of the gateway.  The methods of the client have no
    suspension point of their own (they wrap synchronous calls), so a
    call is one step of whoever makes it. *)
Definition call_place_order (o : Order) : Eng (option string) :=
  emit (EvPlaceOrder o) ;;;
  λ w, let '(r, g) := place_order o (gateway w) in (r, with_gateway g w).

Definition call_get_order_status (oid : string) : Eng (option OrderStatusInfo) :=
  emit (EvGetOrderStatus oid) ;;;
  λ w, let '(r, g) := get_order_status oid (gateway w) in (r, with_gateway g w).

Definition call_cancel_order (oid : string) : Eng bool :=
  emit (EvCancelOrder oid) ;;;
  λ w, let '(r, g) := cancel_order oid (gateway w) in (r, with_gateway g w).

(** [Order(order_id=None, ...)]: [__post_init__] draws the identifier. *)
Definition new_Order (sym : string) (ty : OrderType) (sd : TradeSide)
    (qty : Z) (trig pr : option price_t) : Eng Order :=
  oid <- fresh_uuid ;;
  ret (mkOrder oid sym ty sd qty pr trig PENDING 0 None).

(** [Trade(trade_id=None, ...)]: a new object on the heap, [active] by
    default. *)
Definition new_Trade (sym : string) (sd : TradeSide) (qty : Z)
    (entry sl tp : price_t) (mo so to : Order) : Eng nat :=
  tid <- fresh_uuid ;;
  r <- fresh_handle ;;
  λ w, (r, with_heap (<[r := mkTrade tid sym sd qty entry sl tp mo so to true]> (heap w)) w).

(** [trade.active = False] *)
Definition deactivate (r : nat) : Eng unit :=
  λ w, (tt, with_heap (alter (set_active false) r (heap w)) w).

Definition monitor_iteration (r : nat) : Eng iteration :=
  λ w,
  match heap w !! r with
  | None => (LoopExit, w)
  | Some trade =>
    if negb (active trade) then (LoopExit, w) else
    (sl_status <- call_get_order_status (order_id (stop_loss_order trade)) ;;
     target_status <- call_get_order_status (order_id (target_order trade)) ;;
     match sl_status, target_status with
     | Some sl, Some tg =>
       if terminal_filled (os_status sl) then
         (if still_live (os_status tg)
          then (_ <- call_cancel_order (order_id (target_order trade)) ;; ret tt)
          else ret tt) ;;;
         deactivate r ;;;
         ret StopLossFilled
       else if terminal_filled (os_status tg) then
         (if still_live (os_status sl)
          then (_ <- call_cancel_order (order_id (stop_loss_order trade)) ;; ret tt)
          else ret tt) ;;;
         deactivate r ;;;
         ret TargetFilled
       else
         emit (EvSleep 1000) ;;;
         ret NoFill
     | _, _ =>
       emit (EvSleep 1000) ;;;
       ret AbsentStatus
     end) w
  end.

(** [_cleanup_trade_resources] *)
Definition _cleanup_trade_resources (tid : string) : Eng unit :=
  λ w,
  let ex := executor w in
  let ao := if bool_decide (is_Some (active_orders ex !! tid))
            then delete tid (active_orders ex) else active_orders ex in
  let tl := if bool_decide (is_Some (trade_locks ex !! tid))
            then delete tid (trade_locks ex) else trade_locks ex in
  emit (EvCleanup tid) (with_executor (mkTradeExecutor ao tl) w).

(** *** The event loop *)

Definition set_task (h : nat) (t : Task) : Eng unit :=
  λ w, (tt, with_tasks (<[h := t]> (tasks w)) w).

(** The task ends: by [return], or with [CancelledError]. *)
Definition finish (was_cancelled : bool) (t : Task) : Task :=
  mkTask (coro t) true false was_cancelled (done_callbacks t).

(** Run [m] as actor [a], then give the processor back. *)
Definition as_actor {A} (a : actor) (m : Eng A) : Eng A :=
  λ w, let '(x, w1) := m (with_running a w) in (x, with_running (running w) w1).

(** Resume task [h].  A task asked to cancel gets [CancelledError] at the
    point where it waits (its start, or a sleep); neither coroutine
    handles it there.  [_run_ltp_stream] calls [client.start_ltp_stream],
    which [KotakNeoClient] does not define: the [AttributeError] is
    caught by its [except Exception] and the coroutine returns. *)
Definition step_task (h : nat) : Eng unit :=
  λ w,
  match tasks w !! h with
  | None => (tt, w)
  | Some t =>
    if done t then (tt, w)
    else if must_cancel t then set_task h (finish true t) w
    else
      match coro t with
      | monitor_oco_orders r =>
        (i <- as_actor (InTask h) (monitor_iteration r) ;;
         if suspends i then ret tt else set_task h (finish false t)) w
      | run_ltp_stream _ => set_task h (finish false t) w
      end
  end.

Fixpoint run_each {A} (f : A -> Eng unit) (l : list A) : Eng unit :=
  match l with
  | [] => ret tt
  | x :: l' => f x ;;; run_each f l'
  end.

(** The done-callbacks of a finished task run once, in the order they
    were added. *)
Definition run_callbacks (h : nat) : Eng unit :=
  λ w,
  match tasks w !! h with
  | None => (tt, w)
  | Some t =>
    if done t then
      (set_task h (mkTask (coro t) true (must_cancel t) (cancelled t) []) ;;;
       as_actor (DoneCallback h) (run_each _cleanup_trade_resources (done_callbacks t))) w
    else (tt, w)
  end.

Definition run_action (a : sched_action) : Eng unit :=
  match a with
  | StepTask h => step_task h
  | RunCallbacks h => run_callbacks h
  end.

(** The main coroutine is suspended: the event loop runs the next batch
    of the schedule. *)
Definition yield_to_loop : Eng unit :=
  λ w,
  match schedule w with
  | [] => (tt, w)
  | batch :: rest => run_each run_action batch (with_schedule rest w)
  end.

(** [await asyncio.sleep(s)] in the main coroutine *)
Definition sleep (milliseconds : Z) : Eng unit :=
  emit (EvSleep milliseconds) ;;; yield_to_loop.

(** [asyncio.create_task(coro)] *)
Definition create_task (c : Coroutine) : Eng nat :=
  h <- fresh_handle ;;
  set_task h (mkTask c false false false []) ;;;
  emit (EvCreateTask h) ;;;
  ret h.

(** [task.cancel()] *)
Definition task_cancel (h : nat) : Eng unit :=
  emit (EvCancelTask h) ;;;
  λ w,
  match tasks w !! h with
  | Some t =>
    if done t then (tt, w)
    else set_task h (mkTask (coro t) false true (cancelled t) (done_callbacks t)) w
  | None => (tt, w)
  end.

(** [task.add_done_callback(lambda t: self._cleanup_trade_resources(tid))] *)
Definition add_done_callback (h : nat) (tid : string) : Eng unit :=
  λ w,
  match tasks w !! h with
  | Some t =>
    set_task h (mkTask (coro t) (done t) (must_cancel t) (cancelled t)
                  (done_callbacks t ++ [tid])) w
  | None => (tt, w)
  end.

Definition task_done (h : nat) : Eng bool :=
  λ w, (match tasks w !! h with Some t => done t | None => true end, w).

(** [try: await task / except CancelledError: pass].  A finished task is
    awaited without suspension.  Otherwise the caller is suspended until
    the task is done; its wake-up is a done-callback added after the
    others, so they have run when it resumes.  The answer is [false]
    when the task is still not done after its next step: the caller
    would wait on. *)
Definition await_task (h : nat) : Eng bool :=
  emit (EvAwaitTask h) ;;;
  d <- task_done h ;;
  if d then ret true
  else
    yield_to_loop ;;;
    step_task h ;;;
    run_callbacks h ;;;
    task_done h.

(** *** TradeExecutor *)

(** [if not order_id]: [None] and the empty string are both refused. *)
Definition truthy_id (r : option string) : option string :=
  match r with
  | Some x => if String.eqb x EmptyString then None else Some x
  | None => None
  end.

Definition failure (msg : string) : TradeResult :=
  mkTradeResult false msg None None.

(** [start_order_monitoring]; it has no suspension point. *)
Definition start_order_monitoring (r : nat) : Eng unit :=
  λ w,
  match heap w !! r with
  | None => (tt, w)
  | Some trade =>
    ((λ w1, (tt, with_executor
               (mkTradeExecutor (active_orders (executor w1))
                  (<[trade_id trade := tt]> (trade_locks (executor w1)))) w1)) ;;;
     monitoring_task <- create_task (monitor_oco_orders r) ;;
     (λ w1, (tt, with_executor
               (mkTradeExecutor
                  (<[trade_id trade := monitoring_task]> (active_orders (executor w1)))
                  (trade_locks (executor w1))) w1)) ;;;
     add_done_callback monitoring_task (trade_id trade)) w
  end.

(** [execute_trade].  Its body is inside [try ... except Exception]; no
    statement of the body raises on arguments of the declared types (the
    gateway answers with a value), so the handler is not reached. *)
Definition execute_trade (sym : string) (sd : TradeSide) (qty : Z)
    (entry sl_points tp_points : price_t) : Eng TradeResult :=
  let stop_loss_price :=
    if TradeSide_eqb sd BUY then PrimFloat.sub entry sl_points
    else PrimFloat.add entry sl_points in
  let target_price :=
    if TradeSide_eqb sd BUY then PrimFloat.add entry tp_points
    else PrimFloat.sub entry tp_points in
  mo <- new_Order sym MARKET sd qty None (Some entry) ;;
  let opposite_side := if TradeSide_eqb sd BUY then SELL else BUY in
  so <- new_Order sym STOP_LOSS opposite_side qty
          (Some stop_loss_price) (Some stop_loss_price) ;;
  to <- new_Order sym TARGET opposite_side qty
          (Some target_price) (Some target_price) ;;
  market_order_id <- call_place_order mo ;;
  match truthy_id market_order_id with
  | None => ret (failure "Failed to place market order")
  | Some mid =>
    let mo := set_order_id mid mo in
    sleep 500 ;;;
    sl_order_id <- call_place_order so ;;
    match truthy_id sl_order_id with
    | None => ret (failure "Failed to place stop loss order")
    | Some sid =>
      let so := set_order_id sid so in
      target_order_id <- call_place_order to ;;
      match truthy_id target_order_id with
      | None => ret (failure "Failed to place target order")
      | Some tid =>
        let to := set_order_id tid to in
        r <- new_Trade sym sd qty entry sl_points tp_points mo so to ;;
        start_order_monitoring r ;;;
        trade <- (λ w, (heap w !! r, w)) ;;
        ret (mkTradeResult true
               ("Trade placed successfully. Orders: " +:+ mid +:+ ", SL: "
                  +:+ sid +:+ ", Target: " +:+ tid)
               (trade_id <$> trade)
               (Some [mid; sid; tid]))
      end
    end
  end.

(** [cancel_trade_orders].  [None]: the caller waits on a task that does
    not end. *)
Definition cancel_trade_orders (tid : string) : Eng (option bool) :=
  λ w,
  match active_orders (executor w) !! tid with
  | Some task =>
    (task_cancel task ;;;
     ended <- await_task task ;;
     ret (if ended then Some true else None)) w
  | None => (Some true, w)
  end.

Definition get_trade_status (tid : string) : Eng (option (string * bool * string)) :=
  λ w,
  match active_orders (executor w) !! tid with
  | None => (None, w)
  | Some _ => (Some (tid, true, "MONITORING"%string), w)
  end.

(** ** trade_manager.py *)

Definition acquire (l : lock_name) : Eng unit := emit (EvAcquire l).
Definition release (l : lock_name) : Eng unit := emit (EvRelease l).

Definition set_active_trades (d : list (string * nat)) : Eng unit :=
  λ w, (tt, with_manager (mkTradeManager d (ltp_streams (manager w))) w).

Definition set_ltp_streams (d : list (string * nat)) : Eng unit :=
  λ w, (tt, with_manager (mkTradeManager (active_trades (manager w)) d) w).

Definition execute_new_trade (sym : string) (sd : TradeSide) (qty : Z)
    (entry sl_points tp_points : price_t) : Eng TradeResult :=
  acquire trade_lock ;;;
  result <- execute_trade sym sd qty entry sl_points tp_points ;;
  release trade_lock ;;;
  ret result.

(** [add_active_trade(trade)]; the argument is a reference to a [Trade]
    object. *)
Definition add_active_trade (r : nat) : Eng unit :=
  acquire trade_lock ;;;
  (λ w, match heap w !! r with
        | Some trade =>
          set_active_trades (dict_set (trade_id trade) r (active_trades (manager w))) w
        | None => (tt, w)
        end) ;;;
  release trade_lock.

Definition remove_active_trade (tid : string) : Eng unit :=
  acquire trade_lock ;;;
  (λ w, if dict_contains tid (active_trades (manager w))
        then set_active_trades (dict_del tid (active_trades (manager w))) w
        else (tt, w)) ;;;
  release trade_lock.

Definition get_active_trades_count : Eng nat :=
  acquire trade_lock ;;;
  n <- (λ w, (length (active_trades (manager w)), w)) ;;
  release trade_lock ;;;
  ret n.

Definition get_active_trades : Eng (list nat) :=
  acquire trade_lock ;;;
  l <- (λ w, (dict_values (active_trades (manager w)), w)) ;;
  release trade_lock ;;;
  ret l.

Definition cancel_trade (tid : string) : Eng (option bool) :=
  result <- cancel_trade_orders tid ;;
  match result with
  | Some true => remove_active_trade tid ;;; ret (Some true)
  | other => ret other
  end.

(** A [for] loop whose body may wait for ever. *)
Fixpoint for_each {A B} (f : A -> Eng (option B)) (l : list A) : Eng (option unit) :=
  match l with
  | [] => ret (Some tt)
  | x :: l' =>
    r <- f x ;;
    match r with
    | Some _ => for_each f l'
    | None => ret None
    end
  end.

Definition cancel_all_trades : Eng (option unit) :=
  acquire trade_lock ;;;
  trade_ids <- (λ w, (dict_keys (active_trades (manager w)), w)) ;;
  release trade_lock ;;;
  for_each cancel_trade trade_ids.

(** [start_ltp_stream_for_symbol].  The callback is passed on to the
    stream coroutine, which never calls it (see [step_task]). *)
Definition start_ltp_stream_for_symbol (sym : string) : Eng (option unit) :=
  acquire stream_lock ;;;
  old <- (λ w, (dict_get sym (ltp_streams (manager w)), w)) ;;
  ended <- match old with
           | Some h => task_cancel h ;;; await_task h
           | None => ret true
           end ;;
  if ended then
    stream_task <- create_task (run_ltp_stream sym) ;;
    (λ w, set_ltp_streams (dict_set sym stream_task (ltp_streams (manager w))) w) ;;;
    release stream_lock ;;;
    ret (Some tt)
  else ret None.

Definition stop_ltp_stream_for_symbol (sym : string) : Eng (option unit) :=
  acquire stream_lock ;;;
  old <- (λ w, (dict_get sym (ltp_streams (manager w)), w)) ;;
  match old with
  | Some h =>
    task_cancel h ;;;
    ended <- await_task h ;;
    if ended then
      (λ w, set_ltp_streams (dict_del sym (ltp_streams (manager w))) w) ;;;
      release stream_lock ;;;
      ret (Some tt)
    else ret None
  | None => release stream_lock ;;; ret (Some tt)
  end.

Definition stop_all_ltp_streams : Eng (option unit) :=
  acquire stream_lock ;;;
  symbols <- (λ w, (dict_keys (ltp_streams (manager w)), w)) ;;
  release stream_lock ;;;
  for_each stop_ltp_stream_for_symbol symbols.

(** One entry of the report of [get_overall_status]. *)
Record TradeSummary := mkTradeSummary {
  s_trade_id : string;
  s_symbol : string;
  s_side : TradeSide;
  s_quantity : Z;
  s_entry_price : price_t;
  s_active : bool
}.

Definition summary (t : Trade) : TradeSummary :=
  mkTradeSummary (trade_id t) (t_symbol t) (t_side t) (t_quantity t)
    (entry_price t) (active t).

Definition get_overall_status : Eng (nat * list TradeSummary) :=
  active_count <- get_active_trades_count ;;
  active_refs <- get_active_trades ;;
  λ w, ((active_count, omap (λ r, summary <$> heap w !! r) active_refs), w).

Definition cleanup : Eng (option unit) :=
  r <- cancel_all_trades ;;
  match r with
  | Some _ => stop_all_ltp_streams
  | None => ret None
  end.

(** *** Submit/resolve cycles

    What a test of resource reclamation does: submit a bracket, let its
    monitor end, and go on to the next one. *)

Record Request := mkRequest {
  q_symbol : string;
  q_side : TradeSide;
  q_quantity : Z;
  q_entry_price : price_t;
  q_stop_loss_points : price_t;
  q_target_points : price_t
}.

(** How the monitor of a cycle ends: it is resumed up to [passes] times
    and resolves the OCO, or [cancel_trade_orders] cancels it. *)
Inductive ending_path := ByResolution (passes : nat) | ByCancellation.

(** One cycle.  The answer is [true] when the monitor has ended and the
    event loop has run its done-callbacks (or when no monitor was
    started because a leg was refused). *)
Definition submit_resolve_cycle (q : Request) (path : ending_path) : Eng bool :=
  res <- execute_trade (q_symbol q) (q_side q) (q_quantity q) (q_entry_price q)
           (q_stop_loss_points q) (q_target_points q) ;;
  match r_trade_id res with
  | None => ret true
  | Some tid =>
    task <- (λ w, (active_orders (executor w) !! tid, w)) ;;
    match task with
    | None => ret false
    | Some h =>
      match path with
      | ByResolution n =>
        run_each step_task (replicate n h) ;;;
        run_callbacks h ;;;
        (λ w, (match tasks w !! h with
               | Some t => done t
               | None => false
               end, w))
      | ByCancellation =>
        r <- cancel_trade_orders tid ;;
        ret (bool_decide (r = Some true))
      end
    end
  end.

Fixpoint cycles (l : list (Request * ending_path)) : Eng bool :=
  match l with
  | [] => ret true
  | (q, path) :: l' =>
    ended <- submit_resolve_cycle q path ;;
    if ended then cycles l' else ret false
  end.

End Engine.

(** ** Vocabulary of the properties *)

(** What a call added to the trace. *)
Definition new_events {GW} (w w' : World GW) : list (actor * event) :=
  drop (length (trace w)) (trace w').

(** The events of the main coroutine, in order. *)
Definition main_events (tr : list (actor * event)) : list event :=
  omap (λ ae, match ae.1 with MainCoroutine => Some ae.2 | _ => None end) tr.

(** The orders handed to [place_order], in order. *)
Definition placed (tr : list (actor * event)) : list Order :=
  omap (λ ae, match ae.2 with EvPlaceOrder o => Some o | _ => None end) tr.

(** The order ids handed to [cancel_order], in order. *)
Definition cancels (tr : list (actor * event)) : list string :=
  omap (λ ae, match ae.2 with EvCancelOrder oid => Some oid | _ => None end) tr.

(** The trade ids handed to [_cleanup_trade_resources], in order. *)
Definition cleanups (tr : list (actor * event)) : list string :=
  omap (λ ae, match ae.2 with EvCleanup tid => Some tid | _ => None end) tr.

(** An entry a background task or a done-callback can add. *)
Definition background_entry (ae : actor * event) : bool :=
  match ae.1 with
  | MainCoroutine => false
  | _ =>
    match ae.2 with
    | EvGetOrderStatus _ | EvCancelOrder _ | EvSleep _ | EvCleanup _ => true
    | _ => false
    end
  end.

(** A blocking or suspending call: a gateway call, a sleep, the await of
    a task. *)
Definition suspending (e : event) : bool :=
  match e with
  | EvPlaceOrder _ | EvGetOrderStatus _ | EvCancelOrder _
  | EvSleep _ | EvAwaitTask _ => true
  | _ => false
  end.

Definition lock_eqb (a b : lock_name) : bool :=
  match a, b with
  | trade_lock, trade_lock | stream_lock, stream_lock => true
  | _, _ => false
  end.

(** Does a coroutine with these events do something in [P] while it
    holds one of the locks in [held] or one it acquires on the way? *)
Fixpoint occurs_under_lock (P : event → bool) (held : list lock_name)
    (tr : list event) : bool :=
  match tr with
  | [] => false
  | EvAcquire l :: tr' => occurs_under_lock P (l :: held) tr'
  | EvRelease l :: tr' =>
    occurs_under_lock P (filter (λ x, lock_eqb l x = false) held) tr'
  | e :: tr' =>
    (P e && negb (bool_decide (held = []))) || occurs_under_lock P held tr'
  end.

(** ... a suspending call? *)
Definition suspends_under_lock (tr : list event) : bool :=
  occurs_under_lock suspending [] tr.


(** Events in which every lock taken is given back at once. *)
Inductive quiet : list event → Prop :=
  | quiet_nil : quiet []
  | quiet_lock l tr : quiet tr → quiet (EvAcquire l :: EvRelease l :: tr)
  | quiet_other e tr :
      match e with EvAcquire _ | EvRelease _ => False | _ => True end →
      quiet tr → quiet (e :: tr).

(** Events among which no lock is taken or given back. *)
Definition lock_free (evs : list event) : Prop :=
  Forall (λ e, match e with EvAcquire _ | EvRelease _ => False | _ => True end)
    evs.

(** Between [w] and [w'] the trace grew, and the main coroutine added
    the events [evs]. *)
Definition emits {GW} (w w' : World GW) (evs : list event) : Prop :=
  ∃ tr, trace w' = trace w ++ tr ∧ main_events tr = evs.

(** Handles are drawn from a counter: every object on the heap and every
    task was allocated below it; and the registry holds references to
    [Trade] objects. *)
Definition well_formed {GW} (w : World GW) : Prop :=
  (∀ r, is_Some (heap w !! r) → (r < next_handle w)%nat) ∧
  (∀ h, is_Some (tasks w !! h) → (h < next_handle w)%nat) ∧
  (∀ k r, (k, r) ∈ active_trades (manager w) → is_Some (heap w !! r)).

(** How the heap, the task table and the registry of [w'] can differ
    from those of an earlier world [w]: objects stay, only [active] is
    written and only to [False]; what is new was allocated meanwhile. *)
Record grows {GW} (w w' : World GW) : Prop := mkGrows {
  g_handle : (next_handle w ≤ next_handle w')%nat;
  g_heap : ∀ r,
    heap w' !! r = heap w !! r ∨
    heap w' !! r = set_active false <$> heap w !! r ∨
    ((next_handle w ≤ r < next_handle w')%nat ∧ is_Some (heap w' !! r));
  g_tasks : ∀ h,
    is_Some (tasks w' !! h) →
    is_Some (tasks w !! h) ∨ (next_handle w ≤ h < next_handle w')%nat;
  g_registry : ∀ k r,
    (k, r) ∈ active_trades (manager w') →
    (k, r) ∈ active_trades (manager w) ∨ is_Some (heap w' !! r)
}.

Arguments g_handle {GW w w'}.
Arguments g_heap {GW w w'}.
Arguments g_tasks {GW w w'}.
Arguments g_registry {GW w w'}.

(** The event loop has nothing to run at the next suspension of the
    main coroutine. *)
Definition idle_loop {GW} (w : World GW) : Prop :=
  match schedule w with
  | [] => True
  | batch :: _ => batch = []
  end.

(** Two entries of a status report that differ at most in that the
    monitor resolved the trade in between. *)
Definition resolved_meanwhile (s s' : TradeSummary) : Prop :=
  s' = s ∨
  s' = mkTradeSummary (s_trade_id s) (s_symbol s) (s_side s) (s_quantity s)
         (s_entry_price s) false.

(** [n] passes of the monitor in a row find a status absent: in each,
    the gateway answers [None] for the stop-loss leg or for the target
    leg. *)
Fixpoint absent_polls {GW} `{!KotakNeoClient GW} (n : nat) (sl tg : string)
    (g : GW) : Prop :=
  match n with
  | O => True
  | S n' =>
    let '(s1, g1) := get_order_status sl g in
    let '(s2, g2) := get_order_status tg g1 in
    (s1 = None ∨ s2 = None) ∧ absent_polls n' sl tg g2
  end.

(** What one pass that finds a status absent adds to the trace. *)
Definition absent_pass (h : nat) (sl tg : string) : list (actor * event) :=
  [(InTask h, EvGetOrderStatus sl); (InTask h, EvGetOrderStatus tg);
   (InTask h, EvSleep 1000)].

(** Task [h] cannot run on: it is finished, or was asked to cancel, or
    does not exist. *)
Definition ending {GW} (h : nat) (w : World GW) : Prop :=
  match tasks w !! h with
  | Some t => done t = true ∨ must_cancel t = true
  | None => True
  end.

(** Task [h] is finished and its done-callbacks have run. *)
Definition finished {GW} (h : nat) (w : World GW) : Prop :=
  match tasks w !! h with
  | Some t => done t = true ∧ done_callbacks t = []
  | None => True
  end.




(** The world when the main coroutine has called [task.cancel()] on
    task [h] and is about to wait for it. *)
Definition cancel_requested {GW} `{!KotakNeoClient GW} `{!UuidSource}
    (h : nat) (w : World GW) : World GW :=
  (emit (EvAwaitTask h) (task_cancel h w).2).2.

(** Everything that can happen to a world: a call of an operation of the
    manager by the main coroutine, or an action of the event loop while
    the main coroutine is idle. *)
Inductive call :=
  | ExecuteNewTrade (sym : string) (sd : TradeSide) (qty : Z)
      (entry sl_points tp_points : price_t)
  | AddActiveTrade (r : nat)
  | RemoveActiveTrade (tid : string)
  | GetActiveTradesCount
  | GetActiveTrades
  | GetOverallStatus
  | CancelTrade (tid : string)
  | CancelAllTrades
  | StartLtpStream (sym : string)
  | StopLtpStream (sym : string)
  | StopAllLtpStreams
  | Cleanup
  | EventLoop (a : sched_action).

Definition perform {GW} `{!KotakNeoClient GW} `{!UuidSource}
    (c : call) (w : World GW) : World GW :=
  match c with
  | ExecuteNewTrade sym sd qty entry slp tpp =>
    (execute_new_trade sym sd qty entry slp tpp w).2
  | AddActiveTrade r => (add_active_trade r w).2
  | RemoveActiveTrade tid => (remove_active_trade tid w).2
  | GetActiveTradesCount => (get_active_trades_count w).2
  | GetActiveTrades => (get_active_trades w).2
  | GetOverallStatus => (get_overall_status w).2
  | CancelTrade tid => (cancel_trade tid w).2
  | CancelAllTrades => (cancel_all_trades w).2
  | StartLtpStream sym => (start_ltp_stream_for_symbol sym w).2
  | StopLtpStream sym => (stop_ltp_stream_for_symbol sym w).2
  | StopAllLtpStreams => (stop_all_ltp_streams w).2
  | Cleanup => (cleanup w).2
  | EventLoop a => (run_action a w).2
  end.

(** The world after a sequence of calls. *)
Definition perform_all {GW} `{!KotakNeoClient GW} `{!UuidSource}
    (cs : list call) (w : World GW) : World GW :=
  foldl (λ w c, perform c w) w cs.

(** The claimed prices and sides of the exit legs, in the words of the
    specification, to compare the executor with. *)
Definition spec_stop_loss_price (sd : TradeSide) (entry points : price_t) : price_t :=
  match sd with
  | BUY => PrimFloat.sub entry points
  | SELL => PrimFloat.add entry points
  end.

Definition spec_target_price (sd : TradeSide) (entry points : price_t) : price_t :=
  match sd with
  | BUY => PrimFloat.add entry points
  | SELL => PrimFloat.sub entry points
  end.

Definition spec_exit_side (sd : TradeSide) : TradeSide :=
  match sd with BUY => SELL | SELL => BUY end.

(** ** A scripted gateway, for running the engine on concrete inputs *)

Module Scripted.

(** The answers the broker will give, call after call.  An exhausted
    script answers [None] or [False]. *)
Record Script := mkScript {
  place_answers : list (option string);
  status_answers : list (option OrderStatusInfo);
  cancel_answers : list bool
}.

#[export] Instance script_client : KotakNeoClient Script := {|
  place_order _ g :=
    (mjoin (head (place_answers g)),
     mkScript (tail (place_answers g)) (status_answers g) (cancel_answers g));
  get_order_status _ g :=
    (mjoin (head (status_answers g)),
     mkScript (place_answers g) (tail (status_answers g)) (cancel_answers g));
  cancel_order _ g :=
    (default false (head (cancel_answers g)),
     mkScript (place_answers g) (status_answers g) (tail (cancel_answers g)))
|}.

#[export] Instance script_uuid : UuidSource :=
  λ n, ("uuid-" +:+ pretty n)%string.

Definition start (g : Script) (sched : list (list sched_action)) : World Script :=
  mkWorld g [] MainCoroutine sched 0%nat 0%nat ∅ ∅
    (mkTradeExecutor ∅ ∅) (mkTradeManager [] []).

Definition reports (oid : string) (st : string) : option OrderStatusInfo :=
  Some (mkOrderStatusInfo oid (Some st) 0 None 0).

(** A broker that accepts one bracket and then has no status to give. *)
Definition accepting : Script :=
  mkScript [Some "E1"; Some "S1"; Some "T1"]%string [] [].

(** A broker that refuses the entry leg. *)
Definition refusing : Script := mkScript [None] [] [].

(** A broker on which both exit legs fill between two polls. *)
Definition both_filled : Script :=
  mkScript [Some "E1"; Some "S1"; Some "T1"]%string
    [reports "S1" "FILLED"; reports "T1" "FILLED"] [true].

(** Scenario 1: Buy 10 XYZ at 100, stop-loss 5, target 10. *)
Definition submit (g : Script) : TradeResult * World Script :=
  execute_trade "XYZ" BUY 10 100%float 5%float 10%float (start g []).

Definition buy_xyz : call := ExecuteNewTrade "XYZ" BUY 10 100%float 5%float 10%float.

(** A broker for three brackets: the first one stops out (the target is
    cancelled), the third one, after a poll without data, reaches its
    target (and the cancellation of its stop-loss leg fails). *)
Definition three_brackets : Script :=
  mkScript
    [Some "E1"; Some "S1"; Some "T1"; Some "E2"; Some "S2"; Some "T2";
     Some "E3"; Some "S3"; Some "T3"]%string
    [reports "S1" "FILLED"; reports "T1" "OPEN";
     None; reports "T3" "OPEN";
     reports "S3" "OPEN"; reports "T3" "COMPLETE"]
    [true; false].

Definition xyz : Request := mkRequest "XYZ" BUY 10 100%float 5%float 10%float.

Definition three_cycles : list (Request * ending_path) :=
  [(xyz, ByResolution 1); (xyz, ByCancellation); (xyz, ByResolution 2)].

(** Three brackets submitted and put in the registry. *)
Definition three_registered : World Script :=
  perform_all
    [buy_xyz; AddActiveTrade 0; buy_xyz; AddActiveTrade 2;
     buy_xyz; AddActiveTrade 4]
    (start three_brackets []).

(** One bracket submitted through the manager. *)
Definition monitored : World Script := perform buy_xyz (start accepting []).



(** One bracket in the registry, and a price stream for its symbol. *)
Definition registered : World Script :=
  perform_all [buy_xyz; AddActiveTrade 0; StartLtpStream "XYZ"]
    (start three_brackets []).

End Scripted.

(** ** More vocabulary *)

(** [n] passes of the monitor in a row get both statuses and find no leg
    Terminal-Filled. *)
Fixpoint unfilled_polls {GW} `{!KotakNeoClient GW} (n : nat) (sl tg : string)
    (g : GW) : Prop :=
  match n with
  | O => True
  | S n' =>
    let '(s1, g1) := get_order_status sl g in
    let '(s2, g2) := get_order_status tg g1 in
    (∃ a b, s1 = Some a ∧ s2 = Some b ∧
            terminal_filled (os_status a) = false ∧
            terminal_filled (os_status b) = false) ∧
    unfilled_polls n' sl tg g2
  end.

(** A call that goes to the broker. *)
Definition broker_call (e : event) : bool :=
  match e with
  | EvPlaceOrder _ | EvGetOrderStatus _ | EvCancelOrder _ => true
  | _ => false
  end.

(** Events among which task [h] has none. *)
Definition silent (h : nat) (tr : list (actor * event)) : Prop :=
  Forall (λ ae, ae.1 ≠ InTask h) tr.

(** Events among which there is no call to the broker. *)
Definition offline (evs : list event) : Prop :=
  Forall (λ e, broker_call e = false) evs.

(** The three [Order] objects that [execute_trade] builds, when the next
    identifier to be drawn is the [n]-th. *)
Definition entry_leg `{!UuidSource} (n : nat) (sym : string) (sd : TradeSide)
    (qty : Z) (entry : price_t) : Order :=
  mkOrder (uuid4 n) sym MARKET sd qty (Some entry) None PENDING 0 None.

Definition stop_loss_leg `{!UuidSource} (n : nat) (sym : string)
    (sd : TradeSide) (qty : Z) (entry slp : price_t) : Order :=
  let stop_loss_price :=
    if TradeSide_eqb sd BUY then PrimFloat.sub entry slp
    else PrimFloat.add entry slp in
  mkOrder (uuid4 (S n)) sym STOP_LOSS
    (if TradeSide_eqb sd BUY then SELL else BUY) qty
    (Some stop_loss_price) (Some stop_loss_price) PENDING 0 None.

Definition target_leg `{!UuidSource} (n : nat) (sym : string)
    (sd : TradeSide) (qty : Z) (entry tpp : price_t) : Order :=
  let target_price :=
    if TradeSide_eqb sd BUY then PrimFloat.add entry tpp
    else PrimFloat.sub entry tpp in
  mkOrder (uuid4 (S (S n))) sym TARGET
    (if TradeSide_eqb sd BUY then SELL else BUY) qty
    (Some target_price) (Some target_price) PENDING 0 None.

(** ** Python strings

    A string stands for the Python [str] with the same characters, all
    of them ASCII; [str.upper] is given on that range, where it changes
    the letters [a] to [z] and nothing else.  A statement that names an
    upper-cased text asks for [ascii_only]. *)

(** [s.isascii()] *)
Fixpoint ascii_only (s : string) : bool :=
  match s with
  | EmptyString => true
  | String c s' => (nat_of_ascii c <? 128)%nat && ascii_only s'
  end.

Definition is_ascii_lower (c : ascii) : bool :=
  (97 <=? nat_of_ascii c)%nat && (nat_of_ascii c <=? 122)%nat.

Definition ascii_upper (c : ascii) : ascii :=
  if is_ascii_lower c then ascii_of_nat (nat_of_ascii c - 32) else c.

(** [s.upper()], for [s] with [ascii_only s] *)
Fixpoint str_upper (s : string) : string :=
  match s with
  | EmptyString => EmptyString
  | String c s' => String (ascii_upper c) (str_upper s')
  end.

(** [a or b] on two [Optional[float]]: [None] and zero are falsy. *)
Definition float_or (a b : option price_t) : option price_t :=
  match a with
  | Some x => if PrimFloat.eqb x 0 then b else Some x
  | None => b
  end.

(** The [value] of the members of the enumerations. *)
Definition OrderType_value (t : OrderType) : string :=
  match t with
  | MARKET => "MARKET" | LIMIT => "LIMIT"
  | STOP_LOSS => "STOP_LOSS" | TARGET => "TARGET"
  end.

Definition TradeSide_value (s : TradeSide) : string :=
  match s with BUY => "BUY" | SELL => "SELL" end.

(** ** neo_api_client.py and client.py (package [kotak_algo_cli])

    [NeoAPI] is the mock broker of the package; [KotakNeoClient] wraps
    it.  What they print is left out. *)

Module Broker.

(** [order_params['price']]: the integer [0] of a market order, or an
    [Optional[float]]. *)
Inductive PriceParam := PriceInt (z : Z) | PriceFloat (p : option price_t).

(** The keyword arguments of [NeoAPI.place_order]. *)
Record OrderParams := mkOrderParams {
  instrument_token : string;
  p_order_type : string;
  p_quantity : Z;
  p_side : string;
  product : string;
  validity : string;
  p_price : PriceParam;
  transaction_type : string
}.

(** One entry of [NeoAPI.orders]. *)
Record BookEntry := mkBookEntry {
  b_order_id : string;
  b_status : string;
  b_details : OrderParams
}.

(** [NeoAPI]: the order book and the counter.  The credentials and the
    session token are stored and read nowhere; they are left out. *)
Record NeoAPI := mkNeoAPI {
  orders : gmap string BookEntry;
  order_counter : Z
}.

(** What one call of [order_status] draws from [random]: the index for
    [random.choice], the two numbers reduced into the range of
    [random.randint], and the price of [random.uniform]. *)
Record Draw := mkDraw {
  d_choice : nat;
  d_filled : nat;
  d_remaining : nat;
  d_avg_prc : price_t
}.

(** The world outside the program: [clock k] is what the [k]-th call of
    [int(time.time())] returns and [dice k] what the [k]-th call of
    [order_status] draws. *)
Record Env := mkEnv {
  clock : nat → Z;
  dice : nat → Draw
}.

(** [KotakNeoClient] with its environment: [client] is [None] until
    [authenticate] has run. *)
Record Gateway := mkGateway {
  env : Env;
  ticks : nat;
  rolls : nat;
  client : option NeoAPI
}.

(** [NeoAPI.__init__] *)
Definition new_NeoAPI : NeoAPI := mkNeoAPI ∅ 1000000.

(** The f-string that makes an order id of the time and the counter. *)
Definition stamp (now counter : Z) : string :=
  "MKT" +:+ pretty now +:+ pretty counter.

(** [NeoAPI.place_order] with keyword arguments [kwargs] at time [now]:
    the id it returns as [nestOrderNumber], and the broker afterwards. *)
Definition neo_place_order (kwargs : OrderParams) (now : Z) (api : NeoAPI)
    : string * NeoAPI :=
  let counter := order_counter api + 1 in
  let oid := stamp now counter in
  (oid, mkNeoAPI (<[oid := mkBookEntry oid "OPEN" kwargs]> (orders api)) counter).

(** The answer of [NeoAPI.order_status]. *)
Inductive StatusResponse :=
  | StatusOf (stat : string) (qty_filled qty_remaining : Z) (avg_prc : price_t)
  | NotFound.

Definition possible_statuses : list string := ["OPEN"; "PARTIAL"; "COMPLETE"].

(** [random.choice(possible_statuses)] *)
Definition choice (d : Draw) : string :=
  default "OPEN"%string (possible_statuses !! (d_choice d mod 3)%nat).

(** [random.randint(0, q)]; [None] is the [ValueError] of an empty
    range. *)
Definition randint_upto (q : Z) (n : nat) : option Z :=
  if q <? 0 then None else Some (Z.of_nat n mod (q + 1)).

(** [NeoAPI.order_status(order_id)].  The status of a known order is
    drawn and stored before the quantities are; [None] is the
    [ValueError] that [random.randint] raises for a negative quantity. *)
Definition neo_order_status (oid : string) (d : Draw) (api : NeoAPI)
    : option StatusResponse * NeoAPI :=
  match orders api !! oid with
  | Some e =>
    let status := choice d in
    let api1 :=
      mkNeoAPI (<[oid := mkBookEntry (b_order_id e) status (b_details e)]>
                  (orders api)) (order_counter api) in
    let q := p_quantity (b_details e) in
    (filled ← randint_upto q (d_filled d);
     remaining ← randint_upto q (d_remaining d);
     Some (StatusOf status filled remaining (d_avg_prc d)), api1)
  | None => (Some NotFound, api)
  end.

(** [NeoAPI.cancel_order(order_id)]: the [success] of its answer. *)
Definition neo_cancel_order (oid : string) (api : NeoAPI) : bool * NeoAPI :=
  match orders api !! oid with
  | Some e =>
    (true,
     mkNeoAPI (<[oid := mkBookEntry (b_order_id e) "CANCELLED" (b_details e)]>
                 (orders api)) (order_counter api))
  | None => (false, api)
  end.

(** [NeoAPI.search_scrip]: the instrument token of its first entry (of
    an ASCII symbol, see [str_upper]). *)
Definition neo_search_scrip (sym : string) : string :=
  str_upper sym +:+ "_INSTR_TOKEN".

(** *** KotakNeoClient *)

(** [authenticate]: a new [NeoAPI]; [login] and the session token read
    the clock once each.  It answers [True]. *)
Definition authenticate (g : Gateway) : bool * Gateway :=
  (true, mkGateway (env g) (S (S (ticks g))) (rolls g) (Some new_NeoAPI)).

(** The dictionary [order_params] of [place_order]. *)
Definition order_params (o : Order) (token : string) : OrderParams :=
  let params price tx :=
    mkOrderParams token (OrderType_value (order_type o)) (quantity o)
      (TradeSide_value (side o)) "CNC" "DAY" price tx in
  match order_type o with
  | MARKET => params (PriceInt 0) "MKT"%string
  | STOP_LOSS | TARGET =>
    params (PriceFloat (float_or (trigger_price o) (price o))) "SL-M"%string
  | LIMIT => params (PriceFloat (price o)) "LMT"%string
  end.

(** [place_order].  Without a client the attribute lookup on [None]
    raises; the handler answers [None]. *)
Definition client_place_order (o : Order) (g : Gateway)
    : option string * Gateway :=
  match client g with
  | None => (None, g)
  | Some api =>
    let token := neo_search_scrip (symbol o) in
    let '(oid, api1) :=
      neo_place_order (order_params o token) (clock (env g) (ticks g)) api in
    (Some oid, mkGateway (env g) (S (ticks g)) (rolls g) (Some api1))
  end.

(** [get_order_status].  A status drawn for a known order uses up one
    [Draw]. *)
Definition client_get_order_status (oid : string) (g : Gateway)
    : option OrderStatusInfo * Gateway :=
  match client g with
  | None => (None, g)
  | Some api =>
    let '(response, api1) := neo_order_status oid (dice (env g) (rolls g)) api in
    let rolls1 :=
      if bool_decide (is_Some (orders api !! oid)) then S (rolls g)
      else rolls g in
    (match response with
     | Some (StatusOf stat filled remaining avg) =>
       Some (mkOrderStatusInfo oid (Some stat) filled
               (if PrimFloat.eqb avg 0 then None else Some avg) remaining)
     | Some NotFound =>
       Some (mkOrderStatusInfo oid (Some "NOT_FOUND"%string) 0 None 0)
     | None => None
     end,
     mkGateway (env g) (ticks g) rolls1 (Some api1))
  end.

(** [cancel_order] *)
Definition client_cancel_order (oid : string) (g : Gateway) : bool * Gateway :=
  match client g with
  | None => (false, g)
  | Some api =>
    let '(ok, api1) := neo_cancel_order oid api in
    (ok, mkGateway (env g) (ticks g) (rolls g) (Some api1))
  end.

#[export] Instance mock_client : KotakNeoClient Gateway := {|
  place_order := client_place_order;
  get_order_status := client_get_order_status;
  cancel_order := client_cancel_order
|}.

(** A gateway before [authenticate]. *)
Definition fresh (e : Env) : Gateway := mkGateway e 0 0 None.

End Broker.

(** *** What the program can ask of the gateway *)

Module Requests.
Import Broker.

Inductive request :=
  | Login
  | Place (o : Order)
  | Poll (oid : string)
  | Cancel (oid : string).

Definition serve (q : request) (g : Gateway) : Gateway :=
  match q with
  | Login => (authenticate g).2
  | Place o => (client_place_order o g).2
  | Poll oid => (client_get_order_status oid g).2
  | Cancel oid => (client_cancel_order oid g).2
  end.

Definition serve_all (qs : list request) (g : Gateway) : Gateway :=
  foldl (λ g q, serve q g) g qs.

(** A clock that starts at the epoch or later and does not go back. *)
Definition steady (e : Env) : Prop :=
  ∀ j k, (j ≤ k)%nat → 0 ≤ clock e j ≤ clock e k.

(** Every id in the book was made by [place_order], at an earlier
    reading of the clock and with a counter that has been passed. *)
Definition stamped (g : Gateway) : Prop :=
  match client g with
  | None => True
  | Some api =>
    0 ≤ order_counter api ∧
    ∀ oid e, orders api !! oid = Some e →
      ∃ k c, (k < ticks g)%nat ∧ 0 ≤ c ≤ order_counter api ∧
             oid = stamp (clock (env g) k) c
  end.

(** Polls and cancellations leave the book as it is, up to the statuses:
    the same ids with the same details, the same counter, the same
    clock. *)
Definition same_book (g g' : Gateway) : Prop :=
  env g' = env g ∧ ticks g' = ticks g ∧
  match client g, client g' with
  | Some api, Some api' =>
    order_counter api' = order_counter api ∧
    ∀ oid, b_details <$> orders api' !! oid = b_details <$> orders api !! oid
  | None, None => True
  | _, _ => False
  end.

End Requests.

(** Scenarios for the executor and the monitor. *)
Module Scenarios.
Import Scripted.

(** A broker that takes the entry leg and refuses the stop-loss leg. *)
Definition stop_refused : Script := mkScript [Some "E1"%string; None] [] [].

(** A broker on which the target fills while the stop-loss leg is open,
    and which then fails to cancel the stop-loss leg. *)
Definition target_hit : Script :=
  mkScript [Some "E1"; Some "S1"; Some "T1"]%string
    [reports "S1" "OPEN"; reports "T1" "COMPLETE"] [false].

(** A broker that rejected one exit leg and cancelled the other. *)
Definition dead_legs : Script :=
  mkScript [Some "E1"; Some "S1"; Some "T1"]%string
    [reports "S1" "REJECTED"; reports "T1" "CANCELLED";
     reports "S1" "REJECTED"; reports "T1" "CANCELLED"] [].

End Scenarios.

(** Scenarios on the mock broker. *)
Module Desk.
Import Broker Requests.

(** A clock that ticks once a reading, and dice that count. *)
Definition env0 : Env :=
  mkEnv (λ k, Z.of_nat k + 1700000000)
        (λ k, mkDraw k (S k) (S (S k)) 250.5%float).

(** A session on a gateway: nothing submitted yet. *)
Definition desk (g : Gateway) : World Gateway :=
  mkWorld g [] MainCoroutine [] 0%nat 0%nat ∅ ∅
    (mkTradeExecutor ∅ ∅) (mkTradeManager [] []).

Definition logged_in : Gateway := serve_all [Login] (fresh env0).

Definition abc : Order :=
  mkOrder "o-1" "abc" LIMIT BUY 10 (Some 99.5%float) None PENDING 0 None.

End Desk.

(** * Properties *)

(** Symbolic execution keeps worlds as flat records. *)
Ltac flat :=
  unfold with_gateway, with_trace, with_running, with_schedule,
    with_uuid_counter, with_next_handle, with_heap, with_tasks, with_executor,
    with_manager; simpl.

(** Run [execute_trade] from world [w]: one goal for each way out. *)
Ltac run_execute_trade w :=
  unfold execute_trade, new_Order, fresh_uuid, call_place_order, sleep, emit,
    bind, ret; flat;
  let r1 := fresh "r1" in let g1 := fresh "g1" in
  let r2 := fresh "r2" in let g2 := fresh "g2" in
  let r3 := fresh "r3" in let g3 := fresh "g3" in
  let w2 := fresh "w2" in
  destruct (place_order _ (gateway w)) as [r1 g1] eqn:?E1; flat;
  destruct (truthy_id r1) as [?mid |] eqn:?T1; flat;
  [ destruct (yield_to_loop _) as [[] w2] eqn:?Y; flat;
    destruct (place_order _ (gateway w2)) as [r2 g2] eqn:?E2; flat;
    destruct (truthy_id r2) as [?sid |] eqn:?T2; flat;
    [ destruct (place_order _ g2) as [r3 g3] eqn:?E3; flat;
      destruct (truthy_id r3) as [?tid |] eqn:?T3; flat;
      [ unfold new_Trade, start_order_monitoring, fresh_uuid, fresh_handle,
          create_task, set_task, add_done_callback, emit, bind, ret; flat;
        rewrite ?lookup_insert_eq; flat; rewrite ?lookup_insert_eq; flat;
        rewrite ?insert_insert_eq
      | ]
    | ]
  | ].

Section Properties.
Context {GW : Type} `{!KotakNeoClient GW} `{!UuidSource}.
Implicit Types w : World GW.

(** ** What background work can change *)

(** The executor holds nothing for trade [tid]. *)
Definition cleaned (tid : string) w : Prop :=
  active_orders (executor w) !! tid = None ∧
  trade_locks (executor w) !! tid = None.

(** A task seen before and after: it is as it was, or it is finished;
    its done-callbacks are still to run, or they have run and cleaned
    up. *)
Definition task_advance w' (t t' : Task) : Prop :=
  t' = t ∨
  (done t' = true ∧ coro t' = coro t ∧
   (done_callbacks t' = done_callbacks t ∨
    (done_callbacks t' = [] ∧ ∀ tid, tid ∈ done_callbacks t → cleaned tid w'))).

Record background_step w w' : Prop := mkBackgroundStep {
  bs_manager : manager w' = manager w;
  bs_uuid : uuid_counter w' = uuid_counter w;
  bs_handle : next_handle w' = next_handle w;
  bs_running : running w' = running w;
  bs_trace : ∃ tr, trace w' = trace w ++ tr
                   ∧ Forall (λ ae, background_entry ae = true) tr;
  bs_heap : ∀ r, heap w' !! r = heap w !! r
                 ∨ heap w' !! r = set_active false <$> heap w !! r;
  bs_tasks : ∀ h, match tasks w !! h, tasks w' !! h with
                  | Some t, Some t' => task_advance w' t t'
                  | None, None => True
                  | _, _ => False
                  end;
  bs_active_orders : active_orders (executor w') ⊆ active_orders (executor w);
  bs_trade_locks : trade_locks (executor w') ⊆ trade_locks (executor w)
}.

Lemma set_active_false_twice t :
  set_active false (set_active false t) = set_active false t.
Proof. by destruct t. Qed.

Lemma background_step_refl w : background_step w w.
Proof.
  split; try done.
  - exists []. by rewrite app_nil_r.
  - by left.
  - intros h. destruct (tasks w !! h); [by left | done].
Qed.

Lemma background_step_cleaned tid w w' :
  background_step w w' → cleaned tid w → cleaned tid w'.
Proof.
  intros HB [Ha Hl]. split.
  - eapply lookup_weaken_None; [exact Ha | apply HB].
  - eapply lookup_weaken_None; [exact Hl | apply HB].
Qed.

Lemma background_step_trans w1 w2 w3 :
  background_step w1 w2 → background_step w2 w3 → background_step w1 w3.
Proof.
  intros HB HB'.
  pose proof (background_step_cleaned) as Hcl.
  destruct HB as [Hm Hu Hh Hr (tr & Ht & Hb) Hp Hk Ha Hl].
  pose proof HB' as [Hm' Hu' Hh' Hr' (tr' & Ht' & Hb') Hp' Hk' Ha' Hl'].
  split; try congruence.
  - exists (tr ++ tr'). rewrite Ht', Ht, app_assoc. split; [done |].
    by apply Forall_app.
  - intros r. destruct (Hp r) as [E | E], (Hp' r) as [E' | E'];
      rewrite E', E; auto.
    right. destruct (heap w1 !! r); simpl; [| done].
    by rewrite set_active_false_twice.
  - intros h. specialize (Hk h). specialize (Hk' h).
    destruct (tasks w1 !! h) as [t1 |], (tasks w2 !! h) as [t2 |],
      (tasks w3 !! h) as [t3 |]; try done.
    unfold task_advance in *.
    destruct Hk as [-> | (Hd & Hc & Hcb)]; [done |].
    destruct Hk' as [-> | (Hd' & Hc' & Hcb')].
    + right. repeat split; [done .. |].
      destruct Hcb as [? | [? Hcb]]; [by left | right]. split; [done |].
      intros tid Hin. eapply Hcl; [exact HB' | by apply Hcb].
    + right. split; [done |]. split; [congruence |].
      destruct Hcb as [E | [E Hcb]].
      * rewrite <- E. destruct Hcb' as [? | ?]; [by left | by right].
      * right. split; [destruct Hcb' as [? | [? _]]; congruence |].
        intros tid Hin. eapply Hcl; [exact HB' | by apply Hcb].
  - by etrans.
  - by etrans.
Qed.

(** One pass of the monitor writes only the trace, the gateway and the
    [active] flag of its own trade. *)
Lemma monitor_iteration_frame r w i w' :
  monitor_iteration r w = (i, w') →
  manager w' = manager w ∧ uuid_counter w' = uuid_counter w ∧
  next_handle w' = next_handle w ∧ running w' = running w ∧
  schedule w' = schedule w ∧ tasks w' = tasks w ∧ executor w' = executor w ∧
  (∃ tr, trace w' = trace w ++ tr ∧
     Forall (λ ae, ae.1 = running w ∧
                   match ae.2 with
                   | EvGetOrderStatus _ | EvCancelOrder _ | EvSleep _ => True
                   | _ => False
                   end) tr) ∧
  (heap w' = heap w ∨ heap w' = alter (set_active false) r (heap w)).
Proof.
  unfold monitor_iteration, call_get_order_status, call_cancel_order,
    deactivate, emit, bind, ret.
  intros Hrun.
  repeat (case_match; simplify_eq/=); repeat split; auto;
    rewrite <- ?app_assoc; simpl;
    try (eexists; split; [reflexivity |]; repeat constructor; done).
  all: exists []; rewrite app_nil_r; split; [done | constructor].
Qed.

Lemma cleanup_background tid w u w' :
  running w ≠ MainCoroutine →
  _cleanup_trade_resources tid w = (u, w') →
  background_step w w' ∧ cleaned tid w'.
Proof.
  unfold _cleanup_trade_resources, emit. intros Hr ?; simplify_eq.
  split; [split |]; simpl; try done.
  - eexists. split; [done |]. repeat constructor.
    unfold background_entry. simpl. by destruct (running w).
  - by left.
  - intros h. destruct (tasks w !! h); [by left | done].
  - case_bool_decide; [apply delete_subseteq | done].
  - case_bool_decide; [apply delete_subseteq | done].
  - split; simpl; case_bool_decide as Hs; try apply lookup_delete_eq;
      by apply eq_None_not_Some.
Qed.

Lemma run_each_cleanup_background tids w u w' :
  running w ≠ MainCoroutine →
  run_each _cleanup_trade_resources tids w = (u, w') →
  background_step w w' ∧ ∀ tid, tid ∈ tids → cleaned tid w'.
Proof.
  revert w. induction tids as [| tid tids IH]; simpl; intros w Hr.
  - unfold ret. intros ?; simplify_eq.
    split; [apply background_step_refl |]. by intros tid ?%elem_of_nil.
  - unfold bind.
    destruct (_cleanup_trade_resources tid w) as [[] w1] eqn:E1.
    intros E2. destruct (cleanup_background _ _ _ _ Hr E1) as [B1 C1].
    destruct (IH w1) with (2 := E2) as [B2 C2];
      [by rewrite (bs_running _ _ B1) |].
    split; [by eapply background_step_trans |].
    intros tid' [-> | Hin]%elem_of_cons; [| by apply C2].
    by eapply background_step_cleaned.
Qed.

Lemma step_task_background h w u w' :
  step_task h w = (u, w') → background_step w w'.
Proof.
  unfold step_task. destruct (tasks w !! h) as [t |] eqn:Et;
    [| intros ?; simplify_eq; apply background_step_refl].
  destruct (done t) eqn:Ed; [intros ?; simplify_eq; apply background_step_refl |].
  assert (∀ c, background_step w (with_tasks (<[h := finish c t]> (tasks w)) w))
    as Hfin.
  { intros c. split; simpl; try done.
    - exists []. by rewrite app_nil_r.
    - by left.
    - intros h'. destruct (decide (h' = h)) as [-> |].
      + rewrite Et, lookup_insert_eq. right. repeat split. by left.
      + rewrite lookup_insert_ne by done.
        destruct (tasks w !! h'); [by left | done]. }
  unfold set_task.
  destruct (must_cancel t); [intros ?; simplify_eq; apply Hfin |].
  destruct (coro t) as [r | sym]; [| intros ?; simplify_eq; apply Hfin].
  unfold bind, as_actor.
  destruct (monitor_iteration r (with_running (InTask h) w)) as [i w1] eqn:Ei.
  apply monitor_iteration_frame in Ei as (Hm & Hu & Hh & _ & _ & Hk & He & Htr & Hp).
  simpl in *. destruct Htr as (tr & Htr & Hall).
  assert (background_step w (with_running (running w) w1)) as Hmon.
  { split; simpl; try done; try by rewrite He.
    - exists tr. split; [done |].
      eapply Forall_impl; [exact Hall |]. intros [a e] [Ha He']; simpl in *.
      unfold background_entry; simpl. rewrite Ha. by destruct e.
    - intros r'. destruct Hp as [-> | ->]; [by left |].
      destruct (decide (r' = r)) as [-> |].
      + right. by rewrite lookup_alter_eq.
      + left. by rewrite lookup_alter_ne.
    - intros h'. rewrite Hk. destruct (tasks w !! h'); [by left | done]. }
  unfold ret.
  destruct (suspends i); [intros ?; simplify_eq; exact Hmon |].
  intros ?; simplify_eq.
  eapply background_step_trans; [exact Hmon |].
  split; simpl; try done.
  - exists []. by rewrite app_nil_r.
  - by left.
  - intros h'. rewrite Hk. destruct (decide (h' = h)) as [-> |].
    + rewrite Et, lookup_insert_eq. right. repeat split. by left.
    + rewrite lookup_insert_ne by done.
      destruct (tasks w !! h'); [by left | done].
Qed.

Lemma run_callbacks_background h w u w' :
  run_callbacks h w = (u, w') → background_step w w'.
Proof.
  unfold run_callbacks. destruct (tasks w !! h) as [t |] eqn:Et;
    [| intros ?; simplify_eq; apply background_step_refl].
  destruct (done t) eqn:Ed; [| intros ?; simplify_eq; apply background_step_refl].
  unfold bind, set_task, as_actor.
  set (w0 := with_tasks _ w).
  destruct (run_each _cleanup_trade_resources (done_callbacks t)
              (with_running (DoneCallback h) w0)) as [[] w1] eqn:E1.
  intros ?; simplify_eq.
  apply run_each_cleanup_background in E1 as [E1 Hcl]; [| done].
  destruct E1 as [Hm Hu Hh Hr Htr Hp Hk Ha Hl]. simpl in *.
  split; simpl; try done.
  intros h'. specialize (Hk h'). subst w0; simpl in Hk.
  destruct (decide (h' = h)) as [-> |].
  - rewrite lookup_insert_eq in Hk. rewrite Et.
    destruct (tasks w1 !! h) as [t1 |]; [| done].
    right. unfold cleaned in *. simpl.
    destruct Hk as [-> | (? & ? & Hcb)]; simpl in *;
      (split; [done |]; split; [done |]; right; split; [| done]).
    + done.
    + by destruct Hcb as [? | [? _]].
  - rewrite lookup_insert_ne in Hk by done.
    destruct (tasks w !! h') as [t0 |], (tasks w1 !! h') as [t1 |]; try done.
Qed.

Lemma run_action_background a w u w' :
  run_action a w = (u, w') → background_step w w'.
Proof.
  destruct a; [apply step_task_background | apply run_callbacks_background].
Qed.

Lemma run_actions_background l w u w' :
  run_each run_action l w = (u, w') → background_step w w'.
Proof.
  revert w. induction l as [| a l IH]; simpl; intros w.
  - unfold ret. intros ?; simplify_eq. apply background_step_refl.
  - unfold bind. destruct (run_action a w) as [[] w1] eqn:E1. intros E2.
    eapply background_step_trans;
      [eapply run_action_background, E1 | eapply IH, E2].
Qed.

Lemma yield_to_loop_background w u w' :
  yield_to_loop w = (u, w') → background_step w w'.
Proof.
  unfold yield_to_loop. destruct (schedule w) as [| batch rest];
    [intros ?; simplify_eq; apply background_step_refl |].
  intros E. apply run_actions_background in E.
  destruct E as [Hm Hu Hh Hr Htr Hp Hk Ha Hl]. by split.
Qed.

(** ** The trace *)

Lemma new_events_app w w' tr : trace w' = trace w ++ tr → new_events w w' = tr.
Proof. unfold new_events. intros ->. by rewrite drop_app_length. Qed.

Lemma placed_app tr tr' : placed (tr ++ tr') = placed tr ++ placed tr'.
Proof. apply omap_app. Qed.

Lemma placed_background tr :
  Forall (λ ae, background_entry ae = true) tr → placed tr = [].
Proof.
  induction 1 as [| [a e] tr Hb _ IH]; [done |].
  unfold background_entry in Hb. simpl in Hb. destruct a, e; try done; exact IH.
Qed.

(** ** The legs of a bracket *)

(** C1.  Whatever [execute_trade] hands to the gateway is a leg of the
    bracket: the entry order carries the entry side; the stop-loss order
    and the target order carry the opposite side and trigger at
    [entry - stop_loss_points] and [entry + target_points] for BUY, at
    [entry + stop_loss_points] and [entry - target_points] for SELL.  The
    legs go out in the order entry, stop-loss, target; when the call
    succeeds all three went out and the [Trade] it created holds them. *)
Theorem execute_trade_legs sym sd qty entry slp tpp w res w' :
  execute_trade sym sd qty entry slp tpp w = (res, w') →
  (∀ o, o ∈ placed (new_events w w') →
     symbol o = sym ∧ quantity o = qty ∧
     match order_type o with
     | MARKET => side o = sd
     | STOP_LOSS =>
       side o = spec_exit_side sd ∧
       trigger_price o = Some (spec_stop_loss_price sd entry slp)
     | TARGET =>
       side o = spec_exit_side sd ∧
       trigger_price o = Some (spec_target_price sd entry tpp)
     | LIMIT => False
     end) ∧
  order_type <$> placed (new_events w w') `prefix_of` [MARKET; STOP_LOSS; TARGET] ∧
  (success res = true →
   order_type <$> placed (new_events w w') = [MARKET; STOP_LOSS; TARGET] ∧
   ∃ r t, heap w' !! r = Some t ∧ r_trade_id res = Some (trade_id t) ∧
          active t = true ∧ t_side t = sd ∧
          side (market_order t) = sd ∧
          side (stop_loss_order t) = spec_exit_side sd ∧
          trigger_price (stop_loss_order t)
            = Some (spec_stop_loss_price sd entry slp) ∧
          side (target_order t) = spec_exit_side sd ∧
          trigger_price (target_order t)
            = Some (spec_target_price sd entry tpp) ∧
          Some (order_id <$> [market_order t; stop_loss_order t; target_order t])
            = order_ids res).
Proof.
  run_execute_trade w.
  all: try (apply yield_to_loop_background in Y as HB;
            destruct (bs_trace _ _ HB) as (tr & Htr & Hbg); simpl in Htr).
  all: intros [= <- <-]; simpl.
  all: rewrite ?Htr; rewrite <- ?app_assoc.
  all: erewrite new_events_app by (simpl; reflexivity).
  all: simpl; rewrite ?placed_app, ?(placed_background _ Hbg); simpl.
  all: clear; split;
    [intros o Ho; repeat (apply elem_of_cons in Ho as [-> | Ho]);
       [.. | by apply elem_of_nil in Ho]; simpl; destruct sd; simpl; auto |].
  all: split; [by eexists |].
  all: simpl; try (intros ?; discriminate).
  intros _. split; [reflexivity |].
  eexists _, _. split; [apply lookup_insert_eq |].
  simpl. destruct sd; repeat (split; [reflexivity |]); reflexivity.
Qed.


(** ** Fail-fast on the entry leg *)

(** C2.  When the gateway returns no order id for the entry leg ([None],
    or an empty id, which [if not market_order_id] takes alike),
    [execute_trade] returns a [TradeResult] with [success = False]; the
    only effect of the call is that one [place_order]: no stop-loss or
    target order is placed, no task is created, and the maps of the
    executor are as they were. *)
Theorem execute_trade_entry_refused sym sd qty entry slp tpp w :
  let mo := mkOrder (uuid4 (uuid_counter w)) sym MARKET sd qty (Some entry)
              None PENDING 0 None in
  truthy_id (place_order mo (gateway w)).1 = None →
  ∃ res w',
    execute_trade sym sd qty entry slp tpp w = (res, w') ∧
    success res = false ∧ r_trade_id res = None ∧
    new_events w w' = [(running w, EvPlaceOrder mo)] ∧
    placed (new_events w w') = [mo] ∧
    tasks w' = tasks w ∧ executor w' = executor w ∧
    heap w' = heap w ∧ manager w' = manager w ∧
    next_handle w' = next_handle w.
Proof.
  intros mo Hnone. subst mo.
  run_execute_trade w; try rewrite E1 in Hnone; simpl in Hnone;
    try congruence.
  eexists _, _. split; [reflexivity |]. simpl.
  erewrite new_events_app by (simpl; reflexivity).
  by repeat split.
Qed.

(** ** The OCO monitor *)

Lemma terminal_filled_not_live s :
  terminal_filled s = true → still_live s = false.
Proof.
  destruct s as [x |]; [| done]. unfold terminal_filled, still_live.
  intros Hx. apply bool_decide_eq_true in Hx.
  repeat (apply elem_of_cons in Hx as [-> | Hx]);
    [.. | by apply elem_of_nil in Hx]; reflexivity.
Qed.

(** C3, as it holds.  When both exit legs report a Terminal-Filled
    status in one pass of the monitor, the stop-loss branch is taken and
    the target branch is not; the pass makes no [cancel_order] call (a
    leg is cancelled only when it is Still-Live, which a filled target
    is not), marks the trade inactive and ends the loop. *)
Theorem tie_break_stop_loss_wins r w trade sl tg g1 g2 :
  heap w !! r = Some trade →
  active trade = true →
  get_order_status (order_id (stop_loss_order trade)) (gateway w) = (Some sl, g1) →
  get_order_status (order_id (target_order trade)) g1 = (Some tg, g2) →
  terminal_filled (os_status sl) = true →
  terminal_filled (os_status tg) = true →
  ∃ w',
    monitor_iteration r w = (StopLossFilled, w') ∧
    suspends StopLossFilled = false ∧
    new_events w w' =
      [(running w, EvGetOrderStatus (order_id (stop_loss_order trade)));
       (running w, EvGetOrderStatus (order_id (target_order trade)))] ∧
    cancels (new_events w w') = [] ∧
    heap w' !! r = Some (set_active false trade).
Proof.
  intros Hr Ha Hsl Htg Fsl Ftg.
  unfold monitor_iteration, call_get_order_status, call_cancel_order,
    deactivate, emit, bind, ret.
  rewrite Hr, Ha. flat. rewrite Hsl. flat. rewrite Htg. flat.
  rewrite Fsl, (terminal_filled_not_live _ Ftg). flat.
  eexists. split; [reflexivity |]. simpl.
  rewrite <- app_assoc. erewrite new_events_app by (simpl; reflexivity).
  repeat split. by rewrite lookup_alter_eq, Hr.
Qed.

(** One pass in which a status is absent. *)
Lemma monitor_iteration_absent r w trade s1 g1 s2 g2 :
  heap w !! r = Some trade →
  active trade = true →
  get_order_status (order_id (stop_loss_order trade)) (gateway w) = (s1, g1) →
  get_order_status (order_id (target_order trade)) g1 = (s2, g2) →
  s1 = None ∨ s2 = None →
  monitor_iteration r w =
    (AbsentStatus,
     with_gateway g2
       (with_trace
          (trace w ++
           [(running w, EvGetOrderStatus (order_id (stop_loss_order trade)));
            (running w, EvGetOrderStatus (order_id (target_order trade)));
            (running w, EvSleep 1000)]) w)).
Proof.
  intros Hr Ha Hsl Htg Habs.
  unfold monitor_iteration, call_get_order_status, emit, bind, ret.
  rewrite Hr, Ha. flat. rewrite Hsl. flat. rewrite Htg.
  destruct Habs as [-> | ->]; [| destruct s1]; flat;
    rewrite <- !app_assoc; reflexivity.
Qed.


Lemma step_task_absent h r w t trade s1 g1 s2 g2 :
  tasks w !! h = Some t →
  coro t = monitor_oco_orders r → done t = false → must_cancel t = false →
  heap w !! r = Some trade → active trade = true →
  get_order_status (order_id (stop_loss_order trade)) (gateway w) = (s1, g1) →
  get_order_status (order_id (target_order trade)) g1 = (s2, g2) →
  s1 = None ∨ s2 = None →
  step_task h w =
    (tt, with_gateway g2
           (with_trace
              (trace w ++ absent_pass h (order_id (stop_loss_order trade))
                            (order_id (target_order trade))) w)).
Proof.
  intros Ht Hc Hd Hm Hr Ha Hsl Htg Habs.
  unfold step_task. rewrite Ht, Hd, Hm, Hc. unfold bind, as_actor.
  erewrite monitor_iteration_absent; [| done ..]. by flat.
Qed.

Lemma cancels_absent_passes n h sl tg :
  cancels (concat (replicate n (absent_pass h sl tg))) = [].
Proof. induction n as [| n IH]; [done |]. exact IH. Qed.

(** C5.  A pass of the monitor that gets no data for the stop-loss leg
    or for the target leg sleeps one polling interval and goes round
    again: the task stays alive, the trade keeps its [active] flag, and
    no leg is classified or cancelled; and so for any number [n] of such
    passes in a row. *)
Theorem absent_status_is_retried n h r w t trade :
  tasks w !! h = Some t →
  coro t = monitor_oco_orders r → done t = false → must_cancel t = false →
  heap w !! r = Some trade → active trade = true →
  absent_polls n (order_id (stop_loss_order trade))
    (order_id (target_order trade)) (gateway w) →
  ∃ w',
    run_each step_task (replicate n h) w = (tt, w') ∧
    heap w' = heap w ∧ tasks w' = tasks w ∧
    executor w' = executor w ∧ manager w' = manager w ∧
    trace w' =
      trace w ++
      concat (replicate n (absent_pass h (order_id (stop_loss_order trade))
                             (order_id (target_order trade)))) ∧
    cancels (new_events w w') = [].
Proof.
  intros Ht Hc Hd Hm Hr Ha. revert w Ht Hr.
  induction n as [| n IH]; intros w Ht Hr Hp.
  - exists w. unfold new_events. rewrite drop_all, app_nil_r. by repeat split.
  - simpl in Hp.
    destruct (get_order_status _ (gateway w)) as [s1 g1] eqn:Hsl.
    destruct (get_order_status _ g1) as [s2 g2] eqn:Htg.
    destruct Hp as [Habs Hp].
    pose proof (step_task_absent h r w t trade s1 g1 s2 g2
                  Ht Hc Hd Hm Hr Ha Hsl Htg Habs) as Hstep.
    set (w1 := with_gateway g2 _) in Hstep.
    destruct (IH w1 Ht Hr Hp) as (w' & Hrun & Hh & Hk & He & Hg & Htr & _).
    exists w'. simpl. unfold bind. rewrite Hstep, Hrun.
    assert (trace w' = trace w ++
              concat (replicate (S n)
                (absent_pass h (order_id (stop_loss_order trade))
                   (order_id (target_order trade))))) as Htr'.
    { rewrite Htr. subst w1. simpl. by rewrite <- app_assoc. }
    repeat split; try done.
    rewrite (new_events_app _ _ _ Htr'). apply cancels_absent_passes.
Qed.


(** ** Cancelling a task and waiting for it *)

Lemma background_step_ending h w w' :
  background_step w w' → ending h w → ending h w'.
Proof.
  intros HB. pose proof (bs_tasks _ _ HB h) as Hk. unfold ending.
  destruct (tasks w !! h) as [t |], (tasks w' !! h) as [t' |]; try done.
  destruct Hk as [-> | [Hd _]]; auto.
Qed.

Lemma background_step_finished h w w' :
  background_step w w' → finished h w → finished h w'.
Proof.
  intros HB. pose proof (bs_tasks _ _ HB h) as Hk. unfold finished.
  destruct (tasks w !! h) as [t |], (tasks w' !! h) as [t' |]; try done.
  destruct Hk as [-> | (Hd & Hc & Hcb)]; [done |]. intros [_ Hcb'].
  split; [done |]. destruct Hcb as [? | [? _]]; congruence.
Qed.


Lemma step_task_ends h w u w' :
  ending h w → step_task h w = (u, w') →
  match tasks w' !! h with Some t' => done t' = true | None => True end.
Proof.
  unfold ending, step_task. destruct (tasks w !! h) as [t |] eqn:Et.
  - destruct (done t) eqn:Ed.
    + intros _ ?; simplify_eq. by rewrite Et.
    + intros [? | ->]; [done |]. unfold set_task. intros ?; simplify_eq.
      simpl. by rewrite lookup_insert_eq.
  - intros _ ?; simplify_eq. by rewrite Et.
Qed.

Lemma run_callbacks_finishes h w u w' :
  match tasks w !! h with Some t => done t = true | None => True end →
  run_callbacks h w = (u, w') →
  finished h w' ∧
  ∀ t tid, tasks w !! h = Some t → tid ∈ done_callbacks t → cleaned tid w'.
Proof.
  unfold run_callbacks, finished. destruct (tasks w !! h) as [t |] eqn:Et.
  - intros ->. unfold bind, set_task, as_actor.
    set (w0 := with_tasks _ w).
    destruct (run_each _cleanup_trade_resources (done_callbacks t)
                (with_running (DoneCallback h) w0)) as [[] w1] eqn:E1.
    intros ?; simplify_eq.
    apply run_each_cleanup_background in E1 as [E1 Hcl]; [| done].
    pose proof (bs_tasks _ _ E1 h) as Hk. subst w0. simpl in Hk |- *.
    rewrite lookup_insert_eq in Hk. split.
    + destruct (tasks w1 !! h) as [t1 |]; [| done].
      destruct Hk as [-> | (? & ? & [? | [? _]])]; by simpl in *.
    + intros t' tid [= <-] Hin. by apply Hcl.
  - intros _ ?; simplify_eq. rewrite Et. split; [done |]. by intros.
Qed.

Lemma await_task_run h w b w' :
  ending h w → await_task h w = (b, w') →
  b = true ∧
  background_step (with_trace (trace w ++ [(running w, EvAwaitTask h)]) w) w' ∧
  match tasks w !! h with
  | Some t =>
    done t = true ∨
    (finished h w' ∧ ∀ tid, tid ∈ done_callbacks t → cleaned tid w')
  | None => True
  end.
Proof.
  intros Hend. unfold await_task, task_done, emit, bind, ret. flat.
  set (w0 := mkWorld _ _ _ _ _ _ _ _ _ _).
  assert (ending h w0) as Hend0 by done.
  destruct (tasks w !! h) as [t |] eqn:Et;
    [destruct (done t) eqn:Ed |];
    try (intros ?; simplify_eq; split; [done |];
         split; [apply background_step_refl | auto]).
  destruct (yield_to_loop w0) as [[] w2] eqn:Y.
  destruct (step_task h w2) as [[] w3] eqn:S.
  destruct (run_callbacks h w3) as [[] w4] eqn:R.
  intros ?; simplify_eq.
  pose proof (yield_to_loop_background _ _ _ Y) as B2.
  pose proof (step_task_background _ _ _ _ S) as B3.
  pose proof (run_callbacks_background _ _ _ _ R) as B4.
  pose proof (step_task_ends _ _ _ _ (background_step_ending _ _ _ B2 Hend0) S)
    as Hd3.
  pose proof (run_callbacks_finishes _ _ _ _ Hd3 R) as [Hfin Hcl].
  pose proof (background_step_trans _ _ _ B2 B3) as B03.
  split; [| split; [by eapply background_step_trans | right; split; [done |]]].
  - pose proof (bs_tasks _ _ B03 h) as Hk. pose proof (bs_tasks _ _ B4 h) as Hk4.
    subst w0. simpl in Hk. rewrite Et in Hk.
    destruct (tasks w3 !! h) as [t3 |]; [| done].
    destruct (tasks w' !! h) as [t4 |]; [| done].
    destruct Hk4 as [-> | [-> _]]; done.
  - intros tid Hin. pose proof (bs_tasks _ _ B03 h) as Hk.
    subst w0. simpl in Hk. rewrite Et in Hk.
    destruct (tasks w3 !! h) as [t3 |] eqn:Et3; [| done].
    destruct Hk as [-> | (_ & _ & [Hcb | [_ Hcb]])].
    + by eapply Hcl.
    + eapply Hcl; [done |]. by rewrite Hcb.
    + eapply background_step_cleaned; [exact B4 | by apply Hcb].
Qed.


Lemma task_cancel_run h w :
  ∃ wc, task_cancel h w = (tt, wc) ∧ ending h wc ∧
    gateway wc = gateway w ∧ manager wc = manager w ∧
    uuid_counter wc = uuid_counter w ∧ next_handle wc = next_handle w ∧
    running wc = running w ∧ schedule wc = schedule w ∧
    heap wc = heap w ∧ executor wc = executor w ∧
    trace wc = trace w ++ [(running w, EvCancelTask h)] ∧
    (∀ h', h' ≠ h → tasks wc !! h' = tasks w !! h') ∧
    match tasks w !! h, tasks wc !! h with
    | Some t, Some t' =>
      coro t' = coro t ∧ done t' = done t ∧
      done_callbacks t' = done_callbacks t
    | None, None => True
    | _, _ => False
    end.
Proof.
  unfold task_cancel, ending, emit, bind, set_task. flat.
  destruct (tasks w !! h) as [t |] eqn:Et; [destruct (done t) eqn:Ed |];
    eexists; (split; [reflexivity |]); simpl;
    rewrite ?lookup_insert_eq, ?Et; repeat split; auto.
  intros h' Hne. by rewrite lookup_insert_ne.
Qed.

Lemma cancel_requested_fields h w :
  ending h (cancel_requested h w) ∧
  gateway (cancel_requested h w) = gateway w ∧
  manager (cancel_requested h w) = manager w ∧
  uuid_counter (cancel_requested h w) = uuid_counter w ∧
  next_handle (cancel_requested h w) = next_handle w ∧
  running (cancel_requested h w) = running w ∧
  schedule (cancel_requested h w) = schedule w ∧
  heap (cancel_requested h w) = heap w ∧
  executor (cancel_requested h w) = executor w ∧
  trace (cancel_requested h w) =
    trace w ++ [(running w, EvCancelTask h); (running w, EvAwaitTask h)] ∧
  (∀ h', h' ≠ h → tasks (cancel_requested h w) !! h' = tasks w !! h') ∧
  match tasks w !! h, tasks (cancel_requested h w) !! h with
  | Some t, Some t' =>
    coro t' = coro t ∧ done t' = done t ∧ done_callbacks t' = done_callbacks t
  | None, None => True
  | _, _ => False
  end.
Proof.
  unfold cancel_requested.
  destruct (task_cancel_run h w)
    as (wc & -> & He & Hg & Hm & Hu & Hh & Hr & Hs & Hp & Hx & Ht & Hk & Hc).
  unfold emit, ending. flat. rewrite Hr, Ht, <- app_assoc.
  by repeat split.
Qed.

Lemma cancel_trade_orders_run tid w :
  ∃ w',
    cancel_trade_orders tid w = (Some true, w') ∧
    match active_orders (executor w) !! tid with
    | None => w' = w
    | Some h =>
      background_step (cancel_requested h w) w' ∧
      match tasks w !! h with
      | Some t =>
        done t = true ∨
        (finished h w' ∧ ∀ tid', tid' ∈ done_callbacks t → cleaned tid' w')
      | None => True
      end
    end.
Proof.
  unfold cancel_trade_orders.
  destruct (active_orders (executor w) !! tid) as [h |]; [| by eexists].
  pose proof (cancel_requested_fields h w) as (Hend & _ & _ & _ & _ & _ & _
    & _ & _ & _ & _ & Hc).
  unfold bind, ret.
  destruct (task_cancel_run h w) as (wc & Hrun & Hendc & _).
  assert (cancel_requested h w
          = with_trace (trace wc ++ [(running wc, EvAwaitTask h)]) wc) as Eq.
  { unfold cancel_requested. by rewrite Hrun. }
  rewrite Hrun. destruct (await_task h wc) as [b w'] eqn:Ha.
  apply await_task_run in Ha as (-> & HB & Hk); [| done].
  exists w'. split; [done |]. rewrite Eq. split; [done |].
  rewrite Eq in Hc. simpl in Hc.
  destruct (tasks w !! h) as [t |], (tasks wc !! h) as [tc |]; try done.
  destruct Hc as (_ & Hd & Hcb). rewrite <- Hd, <- Hcb. exact Hk.
Qed.


(** ** Lock discipline *)

Lemma quiet_app tr tr' : quiet tr → quiet tr' → quiet (tr ++ tr').
Proof. induction 1; simpl; auto using quiet. Qed.

Lemma quiet_not_under_lock P tr : quiet tr → occurs_under_lock P [] tr = false.
Proof.
  induction 1 as [| l tr _ IH | e tr He _ IH]; simpl; [done | |].
  - by destruct l.
  - destruct e; try done; simpl; by rewrite andb_false_r.
Qed.

Lemma main_events_app tr tr' :
  main_events (tr ++ tr') = main_events tr ++ main_events tr'.
Proof. apply omap_app. Qed.

Lemma main_events_background tr :
  Forall (λ ae, background_entry ae = true) tr → main_events tr = [].
Proof.
  induction 1 as [| [a e] tr Hb _ IH]; [done |].
  unfold background_entry in Hb. simpl in Hb. destruct a; try done; exact IH.
Qed.

Lemma emits_refl w : emits w w [].
Proof. exists []. by rewrite app_nil_r. Qed.

Lemma emits_trans w1 w2 w3 evs evs' :
  emits w1 w2 evs → emits w2 w3 evs' → emits w1 w3 (evs ++ evs').
Proof.
  intros (tr & Ht & He) (tr' & Ht' & He'). exists (tr ++ tr').
  by rewrite Ht', Ht, app_assoc, main_events_app, He, He'.
Qed.

Lemma background_step_emits w w' : background_step w w' → emits w w' [].
Proof.
  intros HB. destruct (bs_trace _ _ HB) as (tr & Ht & Hb).
  exists tr. split; [done |]. by apply main_events_background.
Qed.

Lemma emits_new_events w w' evs :
  emits w w' evs → main_events (new_events w w') = evs.
Proof. intros (tr & Ht & He). by rewrite (new_events_app _ _ _ Ht). Qed.

(** ** The registry *)

Lemma dict_del_absent {V} k (d : list (string * V)) :
  dict_contains k d = false → dict_del k d = d.
Proof.
  unfold dict_contains, dict_del. intros Hk%bool_decide_eq_false.
  induction d as [| [k' v] d IH]; [done |].
  rewrite filter_cons. simpl in *. rewrite not_elem_of_cons in Hk.
  destruct Hk as [Hne Hk]. rewrite decide_True by done. f_equal. auto.
Qed.

Lemma dict_del_twice {V} k (d : list (string * V)) :
  dict_del k (dict_del k d) = dict_del k d.
Proof.
  unfold dict_del. induction d as [| [k' v] d IH]; [done |].
  rewrite filter_cons. simpl. destruct (decide (k' ≠ k)); [| done].
  rewrite filter_cons. simpl. rewrite decide_True by done. by f_equal.
Qed.

Lemma dict_del_all {V} (ks : list string) (d : list (string * V)) :
  dict_keys d ⊆ ks → foldl (λ d k, dict_del k d) d ks = [].
Proof.
  revert d. induction ks as [| k ks IH]; intros d Hsub; simpl.
  - destruct d as [| [k v] d]; [done |].
    specialize (Hsub k). simpl in Hsub. set_solver.
  - apply IH. intros k' Hin. unfold dict_keys, dict_del in *.
    apply list_elem_of_fmap in Hin as ([k0 v0] & -> & Hin).
    apply list_elem_of_filter in Hin as [Hne Hin]. simpl in *.
    assert (k0 ∈ k :: ks) as Hk.
    { apply Hsub. apply list_elem_of_fmap. by exists (k0, v0). }
    apply elem_of_cons in Hk as [-> | Hk]; done.
Qed.

Lemma remove_active_trade_run tid w :
  remove_active_trade tid w =
    (tt, mkWorld (gateway w)
           (trace w ++ [(running w, EvAcquire trade_lock);
                        (running w, EvRelease trade_lock)])
           (running w) (schedule w) (uuid_counter w) (next_handle w) (heap w)
           (tasks w) (executor w)
           (mkTradeManager (dict_del tid (active_trades (manager w)))
              (ltp_streams (manager w)))).
Proof.
  unfold remove_active_trade, acquire, release, set_active_trades, emit, bind.
  flat.
  destruct (dict_contains tid (active_trades (manager w))) eqn:Hc; flat;
    rewrite <- app_assoc; simpl; [done |].
  rewrite (dict_del_absent _ _ Hc). by destruct (manager w).
Qed.


Lemma cancel_trade_orders_frame tid w w1 r :
  cancel_trade_orders tid w = (r, w1) →
  r = Some true ∧ manager w1 = manager w ∧ running w1 = running w ∧
  (running w = MainCoroutine → ∃ evs, emits w w1 evs ∧ quiet evs).
Proof.
  destruct (cancel_trade_orders_run tid w) as (w' & Hrun & Hcase).
  rewrite Hrun. intros [= <- <-]. split; [done |].
  destruct (active_orders (executor w) !! tid) as [h |].
  - destruct Hcase as [HB _].
    pose proof (cancel_requested_fields h w) as (_ & _ & Hm & _ & _ & Hr & _
      & _ & _ & Ht & _).
    split; [by rewrite (bs_manager _ _ HB) |].
    split; [by rewrite (bs_running _ _ HB) |].
    intros Hmain. exists ([EvCancelTask h; EvAwaitTask h] ++ []).
    split; [| repeat constructor].
    eapply emits_trans; [| by apply background_step_emits].
    eexists. split; [exact Ht |]. by rewrite Hmain.
  - subst w'. repeat split; [].
    intros _. exists []. split; [apply emits_refl | constructor].
Qed.

Lemma cancel_trade_run tid w :
  ∃ w1 w',
    cancel_trade_orders tid w = (Some true, w1) ∧
    remove_active_trade tid w1 = (tt, w') ∧
    cancel_trade tid w = (Some true, w') ∧
    running w' = running w ∧
    active_trades (manager w') = dict_del tid (active_trades (manager w)) ∧
    ltp_streams (manager w') = ltp_streams (manager w) ∧
    (running w = MainCoroutine → ∃ evs, emits w w' evs ∧ quiet evs).
Proof.
  destruct (cancel_trade_orders_run tid w) as (w1 & Hrun & _).
  destruct (cancel_trade_orders_frame _ _ _ _ Hrun) as (_ & Hm & Hr & He).
  eexists w1, _. split; [done |]. split; [apply remove_active_trade_run |].
  unfold cancel_trade, bind, ret. rewrite Hrun, remove_active_trade_run.
  simpl. rewrite Hm, Hr. repeat split; [].
  intros Hmain. destruct (He Hmain) as (evs & Hemit & Hq).
  exists (evs ++ [EvAcquire trade_lock; EvRelease trade_lock]).
  split; [| by apply quiet_app; [| repeat constructor]].
  eapply emits_trans; [exact Hemit |].
  eexists. split; [reflexivity |]. by rewrite Hmain.
Qed.

(** C6.  [cancel_trade] answers [True] for every trade id and every
    state of the executor and of the registry, and leaves the registry
    without that id.  So on an id that the registry does not hold it
    changes nothing in the registry, whether or not the executor has a
    task for it; and a second call on the same id answers [True] again
    and leaves the registry as the first call left it. *)
Theorem cancel_trade_idempotent tid w :
  ∃ w1,
    cancel_trade tid w = (Some true, w1) ∧
    active_trades (manager w1) = dict_del tid (active_trades (manager w)) ∧
    (dict_contains tid (active_trades (manager w)) = false →
     active_trades (manager w1) = active_trades (manager w)) ∧
    ∃ w2,
      cancel_trade tid w1 = (Some true, w2) ∧
      active_trades (manager w2) = active_trades (manager w1).
Proof.
  destruct (cancel_trade_run tid w) as (? & w1 & _ & _ & Hrun & _ & Hreg & _).
  destruct (cancel_trade_run tid w1) as (? & w2 & _ & _ & Hrun' & _ & Hreg' & _).
  exists w1. split; [done |]. split; [done |].
  split; [intros Hc; by rewrite Hreg, dict_del_absent |].
  exists w2. split; [done |]. by rewrite Hreg', Hreg, dict_del_twice.
Qed.

(** ** Bulk cancellation *)

Lemma for_each_cancel_trade ids w :
  ∃ w',
    for_each cancel_trade ids w = (Some tt, w') ∧
    running w' = running w ∧
    active_trades (manager w')
      = foldl (λ d k, dict_del k d) (active_trades (manager w)) ids ∧
    ltp_streams (manager w') = ltp_streams (manager w) ∧
    (running w = MainCoroutine → ∃ evs, emits w w' evs ∧ quiet evs).
Proof.
  revert w. induction ids as [| tid ids IH]; intros w; simpl.
  - exists w. repeat split; [].
    intros _. exists []. split; [apply emits_refl | constructor].
  - destruct (cancel_trade_run tid w)
      as (? & w1 & _ & _ & Hrun & Hr & Hreg & Hl & He).
    destruct (IH w1) as (w' & Hrun' & Hr' & Hreg' & Hl' & He').
    exists w'. unfold bind. rewrite Hrun, Hrun'.
    split; [done |]. split; [congruence |]. split; [by rewrite Hreg', Hreg |].
    split; [congruence |].
    intros Hmain. destruct (He Hmain) as (evs & Hemit & Hq).
    destruct He' as (evs' & Hemit' & Hq'); [congruence |].
    exists (evs ++ evs'). split; [by eapply emits_trans | by apply quiet_app].
Qed.

(** ** Objects stay, flags only fall *)


Lemma grows_some w w' r :
  grows w w' → is_Some (heap w !! r) → is_Some (heap w' !! r).
Proof.
  intros G [t Ht]. destruct (g_heap G r) as [E | [E | [_ E]]]; [| | done];
    rewrite E, Ht; by eexists.
Qed.

Lemma grows_trans w1 w2 w3 : grows w1 w2 → grows w2 w3 → grows w1 w3.
Proof.
  intros G G'. split.
  - pose proof (g_handle G). pose proof (g_handle G'). lia.
  - intros r. pose proof (g_handle G). pose proof (g_handle G').
    destruct (g_heap G' r) as [E' | [E' | [? ?]]]; [| | right; right; split; [lia | done]];
      (destruct (g_heap G r) as [E | [E | [? E]]];
       [rewrite E', E; auto
       | rewrite E', E; right; left;
         destruct (heap w1 !! r); simpl; by rewrite ?set_active_false_twice
       | right; right; split; [lia |]; rewrite E';
         destruct E as [t ->]; by eexists]).
  - intros h Hs. pose proof (g_handle G). pose proof (g_handle G').
    destruct (g_tasks G' h Hs) as [Hs' | ?]; [| right; lia].
    destruct (g_tasks G h Hs') as [? | ?]; [by left | right; lia].
  - intros k r Hin. destruct (g_registry G' k r Hin) as [Hin' | ?]; [| by right].
    destruct (g_registry G k r Hin') as [? | ?]; [by left | right].
    by eapply grows_some.
Qed.



Lemma background_step_grows w w' : background_step w w' → grows w w'.
Proof.
  intros HB. split.
  - by rewrite (bs_handle _ _ HB).
  - intros r. destruct (bs_heap _ _ HB r); auto.
  - intros h Hs. left. pose proof (bs_tasks _ _ HB h) as Hk.
    destruct (tasks w !! h), (tasks w' !! h); done.
  - intros k r. rewrite (bs_manager _ _ HB). auto.
Qed.


Lemma yield_to_loop_idle w u w' :
  idle_loop w → yield_to_loop w = (u, w') → heap w' = heap w.
Proof.
  unfold idle_loop, yield_to_loop. destruct (schedule w) as [| batch rest].
  - by intros _ [= _ <-].
  - intros ->. by intros [= _ <-].
Qed.

Lemma execute_trade_frame sym sd qty entry slp tpp w res w' :
  execute_trade sym sd qty entry slp tpp w = (res, w') →
  manager w' = manager w ∧ running w' = running w ∧ grows w w' ∧
  (idle_loop w → ∀ r, r ≠ next_handle w → heap w' !! r = heap w !! r).
Proof.
  run_execute_trade w.
  all: try (pose proof (λ Hi, yield_to_loop_idle _ _ _ Hi Y) as Hidle;
            unfold idle_loop in Hidle; simpl in Hidle; fold (idle_loop w) in Hidle;
            apply yield_to_loop_background in Y as HB;
            apply background_step_grows in HB as G;
            destruct G as [Gh Gp Gk Gr]; simpl in *).
  all: intros [= <- <-]; simpl.
  all: try (split; [apply HB |]; split; [apply HB |]).
  4: { repeat split; auto. }
  all: (split; [split; simpl; auto |]).
  all: try (intros Hi r _; by rewrite <- (Hidle Hi)).
  - intros r. destruct (decide (r = next_handle w2)) as [-> |].
    + right. right. rewrite lookup_insert_eq. split; [lia | by eexists].
    + rewrite lookup_insert_ne by done.
      destruct (Gp r) as [? | [? | [? ?]]]; auto.
      right. right. split; [lia | done].
  - intros h. rewrite lookup_insert_is_Some.
    intros [<- | [_ Hs]]; [right; lia |].
    destruct (Gk h Hs) as [? | ?]; [by left | right; lia].
  - intros k r Hin. destruct (Gr k r Hin) as [? | Hs]; [by left | right].
    destruct (decide (r = next_handle w2)) as [-> |].
    + rewrite lookup_insert_eq. by eexists.
    + by rewrite lookup_insert_ne.
  - intros Hi r Hne. rewrite (bs_handle _ _ HB) in *. simpl in *.
    rewrite lookup_insert_ne by done. by rewrite <- (Hidle Hi).
Qed.


(** ** What [execute_new_trade] leaves alone *)

Lemma get_active_trades_count_run w :
  (get_active_trades_count w).1 = length (active_trades (manager w)).
Proof. reflexivity. Qed.

Lemma get_active_trades_run w :
  (get_active_trades w).1 = dict_values (active_trades (manager w)).
Proof. reflexivity. Qed.

Lemma get_overall_status_run w :
  (get_overall_status w).1 =
    (length (active_trades (manager w)),
     omap (λ r, summary <$> heap w !! r) (dict_values (active_trades (manager w)))).
Proof. reflexivity. Qed.

Lemma report_resolved (refs : list nat) (hp hp' : gmap nat Trade) :
  (∀ r, r ∈ refs →
     ∃ t, hp !! r = Some t ∧
          (hp' !! r = Some t ∨ hp' !! r = Some (set_active false t))) →
  Forall2 resolved_meanwhile
    (omap (λ r, summary <$> hp !! r) refs)
    (omap (λ r, summary <$> hp' !! r) refs).
Proof.
  induction refs as [| r refs IH]; intros Hall; [constructor |].
  destruct (Hall r) as (t & Ht & Ht'); [left |].
  simpl. rewrite Ht. simpl.
  destruct Ht' as [-> | ->]; simpl; constructor;
    try (apply IH; intros r' Hin; apply Hall; by right).
  - by left.
  - by right.
Qed.

Lemma add_active_trade_run r t w :
  heap w !! r = Some t →
  active_trades (manager (add_active_trade r w).2)
    = dict_set (trade_id t) r (active_trades (manager w)).
Proof.
  intros Ht. unfold add_active_trade, acquire, release, set_active_trades,
    emit, bind. flat. rewrite Ht. by flat.
Qed.

(** C10.  [execute_new_trade] does not touch the registry: whatever the
    executor answers, [active_trades] is what it was, and so are the
    count and the list of the active trades.  The status report is the
    same too, apart from the [active] flag of a trade that its monitor
    resolved while the call was suspended (and wholly the same when the
    event loop ran nothing meanwhile).  A trade enters the registry only
    when [add_active_trade] is called with it. *)
Theorem execute_new_trade_registers_nothing sym sd qty entry slp tpp w res w' :
  execute_new_trade sym sd qty entry slp tpp w = (res, w') →
  active_trades (manager w') = active_trades (manager w) ∧
  (get_active_trades_count w').1 = (get_active_trades_count w).1 ∧
  (get_active_trades w').1 = (get_active_trades w).1 ∧
  (well_formed w →
   (get_overall_status w').1.1 = (get_overall_status w).1.1 ∧
   Forall2 resolved_meanwhile
     (get_overall_status w).1.2 (get_overall_status w').1.2 ∧
   (idle_loop w → (get_overall_status w').1 = (get_overall_status w).1)) ∧
  (∀ r t, heap w' !! r = Some t →
     active_trades (manager (add_active_trade r w').2)
       = dict_set (trade_id t) r (active_trades (manager w))).
Proof.
  rewrite !get_active_trades_count_run, !get_active_trades_run,
    !get_overall_status_run.
  unfold execute_new_trade, acquire, release, emit, bind, ret. flat.
  set (w0 := mkWorld _ _ _ _ _ _ _ _ _ _).
  destruct (execute_trade sym sd qty entry slp tpp w0) as [res1 w1] eqn:Hrun.
  apply execute_trade_frame in Hrun as (Hm & _ & G & Hidle). flat.
  intros [= <- <-]. simpl. rewrite Hm. subst w0. simpl in *.
  split; [done |]. split; [done |]. split; [done |]. split.
  - intros (Hh & _ & Hreg).
    assert (∀ r, r ∈ dict_values (active_trades (manager w)) →
              ∃ t, heap w !! r = Some t ∧ (r < next_handle w)%nat) as Hrefs.
    { intros r Hin. apply list_elem_of_fmap in Hin as ([k r'] & -> & Hin).
      simpl. destruct (Hreg k r' Hin) as [t Ht]. exists t. split; [done |].
      apply Hh. by eexists. }
    split; [done |]. split.
    + apply report_resolved. intros r Hin.
      destruct (Hrefs r Hin) as (t & Ht & Hlt). exists t. split; [done |].
      destruct (g_heap G r) as [E | [E | [? _]]]; simpl in *.
      * left. by rewrite E.
      * right. by rewrite E, Ht.
      * lia.
    + intros Hi. f_equal. apply list_omap_ext, Forall_Forall2_diag, Forall_forall.
      intros r Hin. destruct (Hrefs r Hin) as (t & Ht & Hlt).
      rewrite Hidle; [done | done | lia].
  - intros r t Ht. by erewrite add_active_trade_run by (simpl; exact Ht).
Qed.


(** ** Reclaiming the resources of a trade *)

Lemma subseteq_singleton_cleaned {V} (m : gmap string V) k v :
  m ⊆ <[k := v]> ∅ → m !! k = None → m = ∅.
Proof.
  intros Hsub Hk. apply map_eq. intros i. rewrite lookup_empty.
  destruct (decide (i = k)) as [-> |]; [done |].
  destruct (m !! i) as [x |] eqn:Hi; [| done].
  eapply lookup_weaken in Hi; [| exact Hsub].
  by rewrite lookup_insert_ne, lookup_empty in Hi.
Qed.

Lemma subseteq_empty_eq {V} (m : gmap string V) : m ⊆ ∅ → m = ∅.
Proof.
  intros Hsub. apply map_eq. intros i. rewrite lookup_empty.
  destruct (m !! i) as [x |] eqn:Hi; [| done].
  eapply lookup_weaken in Hi; [| exact Hsub]. by rewrite lookup_empty in Hi.
Qed.

Lemma run_steps_background hs w u w' :
  run_each step_task hs w = (u, w') → background_step w w'.
Proof.
  revert w. induction hs as [| h hs IH]; simpl; intros w.
  - unfold ret. intros ?; simplify_eq. apply background_step_refl.
  - unfold bind. destruct (step_task h w) as [[] w1] eqn:E1. intros E2.
    eapply background_step_trans;
      [eapply step_task_background, E1 | eapply IH, E2].
Qed.

(** What a call of [execute_trade] leaves in the executor. *)
Lemma execute_trade_monitor sym sd qty entry slp tpp w res w' :
  execute_trade sym sd qty entry slp tpp w = (res, w') →
  match r_trade_id res with
  | None =>
    success res = false ∧
    active_orders (executor w') ⊆ active_orders (executor w) ∧
    trade_locks (executor w') ⊆ trade_locks (executor w)
  | Some tid =>
    success res = true ∧
    ∃ h r trade ao tl,
      ao ⊆ active_orders (executor w) ∧ tl ⊆ trade_locks (executor w) ∧
      active_orders (executor w') = <[tid := h]> ao ∧
      trade_locks (executor w') = <[tid := tt]> tl ∧
      tasks w' !! h
        = Some (mkTask (monitor_oco_orders r) false false false [tid]) ∧
      heap w' !! r = Some trade ∧ trade_id trade = tid ∧ active trade = true
  end.
Proof.
  run_execute_trade w.
  all: try (apply yield_to_loop_background in Y as HB;
            pose proof (bs_active_orders _ _ HB) as Ha;
            pose proof (bs_trade_locks _ _ HB) as Hl; simpl in Ha, Hl).
  all: intros [= <- <-]; simpl; auto.
  split; [done |].
  eexists _, _, _, _, _. split; [exact Ha |]. split; [exact Hl |].
  split; [reflexivity |]. split; [reflexivity |].
  rewrite !lookup_insert_eq. by repeat split.
Qed.

Lemma run_callbacks_once h w t tid :
  tasks w !! h = Some t → done t = true → done_callbacks t = [tid] →
  ∃ w',
    run_callbacks h w = (tt, w') ∧ cleaned tid w' ∧
    trace w' = trace w ++ [(DoneCallback h, EvCleanup tid)] ∧
    finished h w' ∧
    run_callbacks h w' = (tt, w').
Proof.
  intros Ht Hd Hcb.
  unfold run_callbacks at 1. rewrite Ht, Hd, Hcb.
  unfold bind, set_task, as_actor, run_each, _cleanup_trade_resources, emit,
    bind, ret. flat.
  eexists. split; [reflexivity |]. unfold cleaned, finished. simpl.
  rewrite lookup_insert_eq. simpl.
  split; [| split; [done |]; split; [done |]].
  - split; case_bool_decide as Hs; try apply lookup_delete_eq;
      by apply eq_None_not_Some.
  - unfold run_callbacks. simpl. rewrite lookup_insert_eq. simpl.
    unfold bind, set_task, as_actor, run_each, ret. flat.
    by rewrite insert_insert_eq.
Qed.


Lemma submit_resolve_cycle_reclaims q path w w' :
  active_orders (executor w) = ∅ → trade_locks (executor w) = ∅ →
  submit_resolve_cycle q path w = (true, w') →
  active_orders (executor w') = ∅ ∧ trade_locks (executor w') = ∅.
Proof.
  intros Ha Hl. unfold submit_resolve_cycle, bind, ret.
  destruct (execute_trade _ _ _ _ _ _ w) as [res w1] eqn:Hrun.
  apply execute_trade_monitor in Hrun.
  destruct (r_trade_id res) as [tid |].
  2: { destruct Hrun as (_ & Ha1 & Hl1). rewrite Ha in Ha1. rewrite Hl in Hl1.
       intros [= <-]. split; by apply subseteq_empty_eq. }
  destruct Hrun as (_ & h & r & trade & ao & tl & Hao & Htl & Ea & El & Ht & _).
  rewrite Ha in Hao. rewrite Hl in Htl.
  assert (ao = ∅) as -> by (by apply subseteq_empty_eq).
  assert (tl = ∅) as -> by (by apply subseteq_empty_eq).
  rewrite Ea, lookup_insert_eq.
  assert (∀ w2, background_step w1 w2 → cleaned tid w2 →
            active_orders (executor w2) = ∅ ∧ trade_locks (executor w2) = ∅)
    as Hclean.
  { intros w2 HB [Hca Hcl]. split.
    - eapply subseteq_singleton_cleaned; [| exact Hca].
      rewrite <- Ea. apply HB.
    - eapply subseteq_singleton_cleaned; [| exact Hcl].
      rewrite <- El. apply HB. }
  destruct path as [n |].
  - destruct (run_each step_task (replicate n h) w1) as [[] w2] eqn:Hsteps.
    destruct (run_callbacks h w2) as [[] w3] eqn:Hcb.
    pose proof (run_steps_background _ _ _ _ Hsteps) as B2.
    pose proof (run_callbacks_background _ _ _ _ Hcb) as B3.
    pose proof (bs_tasks _ _ B2 h) as Hk. rewrite Ht in Hk.
    destruct (tasks w2 !! h) as [t2 |] eqn:Et2; [| done].
    intros [= Hdone <-].
    apply Hclean; [by eapply background_step_trans |].
    destruct Hk as [-> | (Hd2 & _ & [Hcb2 | [_ Hcl2]])].
    + exfalso. revert Hcb Hdone. unfold run_callbacks. rewrite Et2. simpl.
      intros [= <-]. by rewrite Et2.
    + eapply run_callbacks_finishes; [| exact Hcb | exact Et2 |].
      * by rewrite Et2.
      * rewrite Hcb2. simpl. by left.
    + eapply background_step_cleaned; [exact B3 |]. apply Hcl2. simpl. by left.
  - destruct (cancel_trade_orders_run tid w1) as (w2 & Hrun & Hcase).
    rewrite Hrun. rewrite Ea, lookup_insert_eq, Ht in Hcase. simpl in Hcase.
    destruct Hcase as (HB & [? | [_ Hcl]]); [done |].
    intros [= <-].
    pose proof (cancel_requested_fields h w1) as (_ & _ & _ & _ & _ & _ & _
      & _ & He & _).
    assert (cleaned tid w2) as [Hca Hcll] by (apply Hcl; by left).
    split.
    + eapply subseteq_singleton_cleaned; [| exact Hca].
      rewrite <- Ea, <- He. apply HB.
    + eapply subseteq_singleton_cleaned; [| exact Hcll].
      rewrite <- El, <- He. apply HB.
Qed.

(** C9.  The monitor task of a trade is created with one done-callback,
    the cleanup of that trade, and with the trade's id in both maps of
    the executor.  Resuming the task keeps the callback, whether the
    pass suspends, resolves the OCO or delivers the cancellation.  Once
    the task is done, the event loop runs the callback: it calls
    [_cleanup_trade_resources] once, after which the id is in neither
    map and no callback is left to run.  So when every one of a sequence
    of submit/resolve cycles ends, by resolution or by cancellation, the
    maps that were empty before are empty after. *)
Theorem monitor_cleanup_reclaims :
  (∀ sym sd qty entry slp tpp w res w' tid,
     execute_trade sym sd qty entry slp tpp w = (res, w') →
     r_trade_id res = Some tid →
     ∃ h t, active_orders (executor w') !! tid = Some h ∧
            trade_locks (executor w') !! tid = Some tt ∧
            tasks w' !! h = Some t ∧ done t = false ∧
            done_callbacks t = [tid]) ∧
  (∀ h w w' t,
     tasks w !! h = Some t → done t = false →
     step_task h w = (tt, w') →
     ∃ t', tasks w' !! h = Some t' ∧ done_callbacks t' = done_callbacks t) ∧
  (∀ h w t tid,
     tasks w !! h = Some t → done t = true → done_callbacks t = [tid] →
     ∃ w',
       run_callbacks h w = (tt, w') ∧
       cleanups (new_events w w') = [tid] ∧
       active_orders (executor w') !! tid = None ∧
       trade_locks (executor w') !! tid = None ∧
       finished h w' ∧
       run_callbacks h w' = (tt, w')) ∧
  (∀ l w w',
     active_orders (executor w) = ∅ → trade_locks (executor w) = ∅ →
     cycles l w = (true, w') →
     active_orders (executor w') = ∅ ∧ trade_locks (executor w') = ∅).
Proof.
  split; [| split; [| split]].
  - intros sym sd qty entry slp tpp w res w' tid Hrun Hid.
    apply execute_trade_monitor in Hrun. rewrite Hid in Hrun.
    destruct Hrun as (_ & h & r & trade & ao & tl & _ & _ & Ea & El & Ht & _).
    eexists h, _. rewrite Ea, El, !lookup_insert_eq. by repeat split.
  - intros h w w' t Ht Hd Hstep.
    pose proof (bs_tasks _ _ (step_task_background _ _ _ _ Hstep) h) as Hk.
    rewrite Ht in Hk. destruct (tasks w' !! h) as [t' |] eqn:Et'; [| done].
    exists t'. split; [done |].
    revert Hstep Et'. unfold step_task. rewrite Ht, Hd.
    unfold set_task, bind, as_actor, ret.
    destruct (must_cancel t).
    { intros [= <-]. simpl. rewrite lookup_insert_eq. by intros [= <-]. }
    destruct (coro t) as [r | sym].
    2: { intros [= <-]. simpl. rewrite lookup_insert_eq. by intros [= <-]. }
    destruct (monitor_iteration r (with_running (InTask h) w)) as [i w1] eqn:Ei.
    apply monitor_iteration_frame in Ei as (_ & _ & _ & _ & _ & Hk1 & _).
    destruct (suspends i); intros [= <-]; simpl.
    + rewrite Hk1. simpl. rewrite Ht. by intros [= <-].
    + rewrite lookup_insert_eq. by intros [= <-].
  - intros h w t tid Ht Hd Hcb.
    destruct (run_callbacks_once h w t tid Ht Hd Hcb)
      as (w' & Hrun & [Hca Hcl] & Htr & Hfin & Hagain).
    exists w'. by rewrite (new_events_app _ _ _ Htr).
  - intros l. induction l as [| [q path] l IH]; intros w w' Ha Hl; simpl.
    + by intros [= <-].
    + unfold bind.
      destruct (submit_resolve_cycle q path w) as [[] w1] eqn:Hc;
        [| by intros [= ? _]].
      destruct (submit_resolve_cycle_reclaims _ _ _ _ Ha Hl Hc) as [Ha1 Hl1].
      by apply IH.
Qed.


(** ** Every operation, one by one *)

(** A world that differs from [w] in nothing that [grows] looks at. *)
Lemma grows_same w w' :
  next_handle w' = next_handle w → heap w' = heap w →
  (∀ h, is_Some (tasks w' !! h) → is_Some (tasks w !! h)) →
  (∀ kr, kr ∈ active_trades (manager w') → kr ∈ active_trades (manager w)) →
  grows w w'.
Proof.
  intros Hh Hp Hk Hr. split.
  - by rewrite Hh.
  - intros r. left. by rewrite Hp.
  - intros h Hs. left. by apply Hk.
  - intros k r Hin. left. by apply Hr.
Qed.

Lemma cancel_requested_grows h w : grows w (cancel_requested h w).
Proof.
  pose proof (cancel_requested_fields h w)
    as (_ & _ & Hm & _ & Hh & _ & _ & Hp & _ & _ & Hne & Hc).
  apply grows_same; [done | done | | by rewrite Hm].
  intros h' Hs. destruct (decide (h' = h)) as [-> |].
  - destruct (tasks w !! h); [done |].
    destruct (tasks (cancel_requested h w) !! h); [done | by destruct Hs].
  - by rewrite <- Hne.
Qed.

(** [task.cancel()] and the wait for the task, in the main coroutine. *)
Lemma cancel_and_await h w :
  ∃ w',
    (task_cancel h ;;; await_task h) w = (true, w') ∧
    background_step (cancel_requested h w) w'.
Proof.
  unfold bind. destruct (task_cancel_run h w) as (wc & Hrun & Hend & _).
  assert (cancel_requested h w
          = with_trace (trace wc ++ [(running wc, EvAwaitTask h)]) wc) as Eq.
  { unfold cancel_requested. by rewrite Hrun. }
  rewrite Hrun. destruct (await_task h wc) as [b w'] eqn:Ha.
  apply await_task_run in Ha as (-> & HB & _); [| done].
  exists w'. by rewrite Eq.
Qed.

Lemma cancel_and_await_run h w :
  ∃ w',
    (task_cancel h ;;; await_task h) w = (true, w') ∧
    grows w w' ∧ manager w' = manager w ∧ running w' = running w ∧
    next_handle w' = next_handle w ∧
    (running w = MainCoroutine → emits w w' [EvCancelTask h; EvAwaitTask h]).
Proof.
  destruct (cancel_and_await h w) as (w' & Hrun & HB).
  pose proof (cancel_requested_fields h w)
    as (_ & _ & Hm & _ & Hh & Hr & _ & _ & _ & Ht & _).
  exists w'. split; [done |].
  split; [eapply grows_trans;
            [apply cancel_requested_grows | by apply background_step_grows] |].
  split; [by rewrite (bs_manager _ _ HB) |].
  split; [by rewrite (bs_running _ _ HB) |].
  split; [by rewrite (bs_handle _ _ HB) |].
  intros Hmain. rewrite <- (app_nil_r [_; _]).
  eapply emits_trans; [| by apply background_step_emits].
  eexists. split; [exact Ht |]. by rewrite Hmain.
Qed.








Lemma bind_step {A B} (m : M GW A) (k : A → M GW B) w a w1 :
  m w = (a, w1) → bind m k w = k a w1.
Proof. unfold bind. by intros ->. Qed.

Lemma emits_main w e :
  running w = MainCoroutine →
  emits w (with_trace (trace w ++ [(running w, e)]) w) [e].
Proof. intros Hmain. eexists. split; [reflexivity |]. by rewrite Hmain. Qed.

Lemma dict_set_elem_of {V} k (v : V) d kr :
  kr ∈ dict_set k v d → kr ∈ d ∨ kr = (k, v).
Proof.
  unfold dict_set. destruct (dict_contains k d).
  - intros ([k' v'] & -> & Hin)%list_elem_of_fmap. simpl.
    case_bool_decide; [by right | by left].
  - intros [? | ->%list_elem_of_singleton]%elem_of_app; [by left | by right].
Qed.

(** The stream operations: they end, they write only the task table and
    [ltp_streams], and they wait for the old stream with the stream lock
    held. *)
Lemma start_ltp_stream_run sym w :
  ∃ w',
    start_ltp_stream_for_symbol sym w = (Some tt, w') ∧
    grows w w' ∧ running w' = running w ∧
    active_trades (manager w') = active_trades (manager w) ∧
    (running w = MainCoroutine →
     emits w w'
       (EvAcquire stream_lock ::
        match dict_get sym (ltp_streams (manager w)) with
        | Some h => [EvCancelTask h; EvAwaitTask h]
        | None => []
        end ++ [EvCreateTask (next_handle w); EvRelease stream_lock])).
Proof.
  unfold start_ltp_stream_for_symbol, acquire.
  erewrite bind_step by reflexivity.
  set (w0 := with_trace _ w).
  erewrite bind_step by reflexivity. simpl.
  assert (∃ w2,
    match dict_get sym (ltp_streams (manager w)) with
    | Some h => task_cancel h;;; await_task h
    | None => ret true
    end w0 = (true, w2) ∧ grows w w2 ∧ manager w2 = manager w ∧
    running w2 = running w ∧ next_handle w2 = next_handle w ∧
    (running w = MainCoroutine →
     emits w w2
       (EvAcquire stream_lock ::
        match dict_get sym (ltp_streams (manager w)) with
        | Some h => [EvCancelTask h; EvAwaitTask h]
        | None => []
        end))) as (w2 & Hrun & G & Hm & Hr & Hh & He).
  { destruct (dict_get sym (ltp_streams (manager w))) as [h |].
    - destruct (cancel_and_await_run h w0) as (w2 & Hrun & G & Hm & Hr & Hh & He).
      exists w2. split; [done |]. split; [| split; [done |]; split; [done |];
                                            split; [done |]].
      + eapply grows_trans; [| exact G]. by apply grows_same.
      + intros Hmain. eapply (emits_trans _ w0 _ [_]); [by apply emits_main |].
        by apply He.
    - exists w0. split; [done |]. split; [| split; [done |]; split; [done |];
                                            split; [done |]].
      + by apply grows_same.
      + intros Hmain. by apply emits_main. }
  erewrite bind_step by exact Hrun.
  unfold create_task, fresh_handle, set_task, set_ltp_streams, release, emit,
    bind, ret. flat.
  eexists. split; [reflexivity |]. simpl.
  split; [| split; [done |]; split; [by rewrite Hm |]].
  - eapply grows_trans; [exact G |]. split; simpl.
    + lia.
    + intros r. by left.
    + intros h. rewrite lookup_insert_is_Some.
      intros [<- | [_ ?]]; [right; lia | by left].
    + intros k r Hin. by left.
  - intros Hmain. rewrite app_comm_cons.
    eapply emits_trans; [by apply He |].
    eexists. rewrite <- app_assoc. split; [reflexivity |].
    simpl. by rewrite Hr, Hmain, Hh.
Qed.

Lemma stop_ltp_stream_run sym w :
  ∃ w',
    stop_ltp_stream_for_symbol sym w = (Some tt, w') ∧
    grows w w' ∧ running w' = running w ∧
    active_trades (manager w') = active_trades (manager w) ∧
    ltp_streams (manager w') = dict_del sym (ltp_streams (manager w)) ∧
    (running w = MainCoroutine →
     emits w w'
       (EvAcquire stream_lock ::
        match dict_get sym (ltp_streams (manager w)) with
        | Some h => [EvCancelTask h; EvAwaitTask h]
        | None => []
        end ++ [EvRelease stream_lock])).
Proof.
  unfold stop_ltp_stream_for_symbol, acquire.
  erewrite bind_step by reflexivity.
  set (w0 := with_trace _ w).
  erewrite bind_step by reflexivity. simpl.
  destruct (dict_get sym (ltp_streams (manager w))) as [h |] eqn:Hget.
  - destruct (cancel_and_await_run h w0) as (w2 & Hrun & G & Hm & Hr & Hh & He).
    unfold bind in Hrun. unfold bind at 1.
    destruct (task_cancel h w0) as [[] wc].
    erewrite bind_step by exact Hrun.
    unfold set_ltp_streams, release, emit, bind, ret. flat.
    eexists. split; [reflexivity |]. simpl. rewrite Hm. simpl.
    split; [| split; [done |]; split; [done |]; split; [done |]].
    + eapply grows_trans; [| eapply grows_trans; [exact G |]];
        apply grows_same; simpl; auto. by rewrite Hm.
    + intros Hmain.
      eapply (emits_trans _ w0 _ [_]); [by apply emits_main |].
      eapply (emits_trans _ w2 _ [_; _] [_]); [by apply He |].
      eexists. split; [reflexivity |].
      rewrite Hr. subst w0. simpl. by rewrite Hmain.
  - unfold release, emit, bind, ret. flat.
    eexists. split; [reflexivity |]. simpl.
    assert (dict_del sym (ltp_streams (manager w)) = ltp_streams (manager w))
      as Hdel.
    { apply dict_del_absent. unfold dict_contains, dict_get in *.
      apply bool_decide_eq_false. intros Hin.
      apply list_elem_of_fmap in Hin as ([k v] & -> & Hin).
      apply fmap_None, list_find_None in Hget.
      rewrite Forall_forall in Hget. by apply (Hget _ Hin). }
    rewrite Hdel.
    split; [| split; [done |]; split; [done |]; split; [done |]].
    + by apply grows_same.
    + intros Hmain. eexists. rewrite <- app_assoc. split; [reflexivity |].
      simpl. by rewrite Hmain.
Qed.


Lemma execute_trade_events sym sd qty entry slp tpp w res w' :
  running w = MainCoroutine →
  execute_trade sym sd qty entry slp tpp w = (res, w') →
  ∃ mo evs, emits w w' (EvPlaceOrder mo :: evs) ∧ lock_free evs.
Proof.
  intros Hmain. run_execute_trade w.
  all: try (apply yield_to_loop_background in Y as HB;
            pose proof (bs_running _ _ HB) as Hr2; simpl in Hr2;
            destruct (bs_trace _ _ HB) as (tr & Htr & Hbg%main_events_background);
            simpl in Htr).
  all: intros [= <- <-]; simpl.
  all: eexists _, _; (split; [eexists; split;
         [rewrite ?Htr, <- ?app_assoc; simpl; reflexivity |] |]).
  all: rewrite ?main_events_app, ?Hbg, ?Hr2, ?Hmain; simpl;
       rewrite ?Hr2, ?Hmain; simpl; try reflexivity.
  all: unfold lock_free; rewrite ?main_events_app, ?Hbg; simpl;
       by repeat constructor.
Qed.


Lemma execute_new_trade_events sym sd qty entry slp tpp w res w' :
  running w = MainCoroutine →
  execute_new_trade sym sd qty entry slp tpp w = (res, w') →
  ∃ mo evs,
    emits w w'
      (EvAcquire trade_lock :: EvPlaceOrder mo :: evs ++ [EvRelease trade_lock])
    ∧ lock_free evs.
Proof.
  intros Hmain.
  unfold execute_new_trade, acquire, release, emit, bind, ret. flat.
  set (w0 := mkWorld _ _ _ _ _ _ _ _ _ _).
  destruct (execute_trade sym sd qty entry slp tpp w0) as [res1 w1] eqn:Hrun.
  pose proof (execute_trade_frame _ _ _ _ _ _ _ _ _ Hrun) as (_ & Hr & _).
  apply execute_trade_events in Hrun as (mo & evs & He & Hfree); [| done].
  flat. intros [= _ <-]. exists mo, evs. split; [| done].
  eapply (emits_trans _ w0 _ [_]).
  { eexists. split; [reflexivity |]. simpl. by rewrite Hmain. }
  rewrite app_comm_cons. eapply emits_trans; [exact He |].
  eexists. split; [reflexivity |]. simpl. rewrite Hr. subst w0. simpl.
  by rewrite Hmain.
Qed.

Lemma add_active_trade_events r w :
  grows w (add_active_trade r w).2 ∧
  (running w = MainCoroutine →
   emits w (add_active_trade r w).2 [EvAcquire trade_lock; EvRelease trade_lock]).
Proof.
  unfold add_active_trade, acquire, release, set_active_trades, emit, bind.
  flat. destruct (heap w !! r) as [t |] eqn:Ht; flat.
  - split.
    + split; simpl; auto.
      intros k r' [? | [= -> ->]]%dict_set_elem_of; [by left | right].
      by rewrite Ht.
    + intros Hmain. eexists. rewrite <- app_assoc. split; [reflexivity |].
      simpl. by rewrite Hmain.
  - split; [by apply grows_same |].
    intros Hmain. eexists. rewrite <- app_assoc. split; [reflexivity |].
    simpl. by rewrite Hmain.
Qed.

Lemma remove_active_trade_events tid w :
  running w = MainCoroutine →
  emits w (remove_active_trade tid w).2
    [EvAcquire trade_lock; EvRelease trade_lock].
Proof.
  intros Hmain. rewrite remove_active_trade_run. simpl.
  eexists. split; [reflexivity |]. simpl. by rewrite Hmain.
Qed.

Lemma get_active_trades_count_events w :
  grows w (get_active_trades_count w).2 ∧
  (running w = MainCoroutine →
   emits w (get_active_trades_count w).2
     [EvAcquire trade_lock; EvRelease trade_lock]).
Proof.
  unfold get_active_trades_count, acquire, release, emit, bind, ret. flat.
  split; [by apply grows_same |].
  intros Hmain. eexists. rewrite <- app_assoc. split; [reflexivity |].
  simpl. by rewrite Hmain.
Qed.

Lemma get_active_trades_events w :
  grows w (get_active_trades w).2 ∧
  (running w = MainCoroutine →
   emits w (get_active_trades w).2
     [EvAcquire trade_lock; EvRelease trade_lock]).
Proof.
  unfold get_active_trades, acquire, release, emit, bind, ret. flat.
  split; [by apply grows_same |].
  intros Hmain. eexists. rewrite <- app_assoc. split; [reflexivity |].
  simpl. by rewrite Hmain.
Qed.

Lemma get_overall_status_events w :
  grows w (get_overall_status w).2 ∧
  (running w = MainCoroutine →
   emits w (get_overall_status w).2
     [EvAcquire trade_lock; EvRelease trade_lock;
      EvAcquire trade_lock; EvRelease trade_lock]).
Proof.
  unfold get_overall_status, get_active_trades_count, get_active_trades,
    acquire, release, emit, bind, ret. flat.
  split; [by apply grows_same |].
  intros Hmain. eexists. rewrite <- !app_assoc. split; [reflexivity |].
  simpl. by rewrite Hmain.
Qed.






(** ** The life of the [active] flag *)

Lemma monitor_iteration_resolves r w trade i w1 :
  heap w !! r = Some trade → active trade = true →
  monitor_iteration r w = (i, w1) →
  i = StopLossFilled ∨ i = TargetFilled →
  heap w1 = alter (set_active false) r (heap w) ∧ tasks w1 = tasks w.
Proof.
  intros Hr Ha.
  unfold monitor_iteration, call_get_order_status, call_cancel_order,
    deactivate, emit, bind, ret.
  rewrite Hr, Ha. simpl. intros Hrun Hi.
  repeat (case_match; simplify_eq/=); by destruct Hi.
Qed.


(** ** Locks and suspension points *)

Lemma quiet_prefix P tr tr' :
  quiet tr → occurs_under_lock P [] (tr ++ tr') = occurs_under_lock P [] tr'.
Proof.
  induction 1 as [| l tr _ IH | e tr He _ IH]; simpl; [done | |].
  - by destruct l.
  - destruct e; try done; simpl; by rewrite andb_false_r.
Qed.

Lemma emits_quiet w w' evs :
  emits w w' evs → quiet evs →
  suspends_under_lock (main_events (new_events w w')) = false.
Proof.
  intros He Hq. rewrite (emits_new_events _ _ _ He).
  by apply quiet_not_under_lock.
Qed.

Lemma for_each_stop_run syms w :
  running w = MainCoroutine →
  ∃ w' evs,
    for_each stop_ltp_stream_for_symbol syms w = (Some tt, w') ∧
    emits w w' evs.
Proof.
  revert w. induction syms as [| sym syms IH]; intros w Hmain; simpl.
  - exists w, []. split; [done | apply emits_refl].
  - destruct (stop_ltp_stream_run sym w) as (w1 & Hrun & _ & Hr & _ & _ & He).
    destruct (IH w1) as (w' & evs & Hrun' & He'); [congruence |].
    unfold bind. rewrite Hrun. eexists w', _. split; [done |].
    eapply emits_trans; [by apply He | exact He'].
Qed.

Lemma dict_get_head {V} k (v : V) d : dict_get k ((k, v) :: d) = Some v.
Proof. unfold dict_get. simpl. by rewrite decide_True. Qed.

Lemma stop_all_ltp_streams_lock w :
  running w = MainCoroutine →
  ∃ w' evs,
    stop_all_ltp_streams w = (Some tt, w') ∧ emits w w' evs ∧
    occurs_under_lock suspending [] evs
      = negb (bool_decide (ltp_streams (manager w) = [])).
Proof.
  intros Hmain.
  unfold stop_all_ltp_streams, acquire, release, emit, bind. flat.
  set (w0 := mkWorld _ _ _ _ _ _ _ _ _ _).
  assert (emits w w0 [EvAcquire stream_lock; EvRelease stream_lock]) as H0.
  { eexists. subst w0. simpl. rewrite <- app_assoc. split; [reflexivity |].
    by rewrite Hmain. }
  destruct (ltp_streams (manager w)) as [| [sym h] d] eqn:Hd; simpl.
  - eexists _, _. split; [reflexivity |]. split; [exact H0 | done].
  - destruct (stop_ltp_stream_run sym w0) as (w1 & Hrun & _ & Hr & _ & _ & He).
    destruct (for_each_stop_run d.*1 w1) as (w' & evs & Hrun' & He');
      [by rewrite Hr |].
    unfold bind. rewrite Hrun. eexists w', _. split; [exact Hrun' |].
    split.
    + eapply emits_trans; [exact H0 |].
      eapply emits_trans; [by apply He | exact He'].
    + subst w0. simpl. rewrite Hd, dict_get_head. reflexivity.
Qed.


Lemma cancel_all_trades_run w :
  running w = MainCoroutine →
  ∃ w' evs,
    cancel_all_trades w = (Some tt, w') ∧ running w' = running w ∧
    ltp_streams (manager w') = ltp_streams (manager w) ∧
    emits w w' evs ∧ quiet evs.
Proof.
  intros Hmain.
  unfold cancel_all_trades, acquire, release, emit, bind. flat.
  set (w0 := mkWorld _ _ _ _ _ _ _ _ _ _).
  destruct (for_each_cancel_trade (dict_keys (active_trades (manager w))) w0)
    as (w' & Hrun & Hr & _ & Hl & He).
  destruct (He Hmain) as (evs & Hemit & Hq).
  exists w', ([EvAcquire trade_lock; EvRelease trade_lock] ++ evs).
  split; [done |]. split; [done |]. split; [done |].
  split; [| by apply (quiet_lock trade_lock)].
  eapply emits_trans; [| exact Hemit].
  eexists. subst w0. simpl. rewrite <- app_assoc. split; [reflexivity |].
  by rewrite Hmain.
Qed.

Lemma cleanup_lock w :
  running w = MainCoroutine →
  ∃ w' evs,
    cleanup w = (Some tt, w') ∧ emits w w' evs ∧
    occurs_under_lock suspending [] evs
      = negb (bool_decide (ltp_streams (manager w) = [])).
Proof.
  intros Hmain.
  destruct (cancel_all_trades_run w Hmain) as (w1 & evs1 & Hrun & Hr & Hl & He & Hq).
  destruct (stop_all_ltp_streams_lock w1) as (w' & evs2 & Hrun' & He' & Hlock);
    [congruence |].
  unfold cleanup, bind. rewrite Hrun. exists w', (evs1 ++ evs2).
  split; [done |]. split; [by eapply emits_trans |].
  by rewrite quiet_prefix, Hlock, Hl.
Qed.

(** C8, as it holds.  Of the operations of the manager, called by the
    main coroutine:
    - the readers and writers of the registry, [cancel_trade] and
      [cancel_all_trades] make no suspending call with a lock held;
    - [execute_new_trade] takes the trade lock first and gives it back
      last: every [place_order] of the executor and its settle sleep
      happen with the lock held;
    - [start_ltp_stream_for_symbol] and [stop_ltp_stream_for_symbol]
      wait, with the stream lock held, for the stream task of the symbol
      that they cancelled; when the symbol has no stream they make no
      suspending call; [stop_all_ltp_streams] and [cleanup] give the
      lock back after reading the symbols, and then stop each stream in
      that way. *)
Theorem lock_scope w :
  running w = MainCoroutine →
  (∀ r, suspends_under_lock
          (main_events (new_events w (add_active_trade r w).2)) = false) ∧
  (∀ tid, suspends_under_lock
            (main_events (new_events w (remove_active_trade tid w).2)) = false) ∧
  suspends_under_lock
    (main_events (new_events w (get_active_trades_count w).2)) = false ∧
  suspends_under_lock
    (main_events (new_events w (get_active_trades w).2)) = false ∧
  suspends_under_lock
    (main_events (new_events w (get_overall_status w).2)) = false ∧
  (∀ tid, suspends_under_lock
            (main_events (new_events w (cancel_trade tid w).2)) = false) ∧
  suspends_under_lock
    (main_events (new_events w (cancel_all_trades w).2)) = false ∧
  (∀ sym sd qty entry slp tpp,
     ∃ mo evs,
       main_events
         (new_events w (execute_new_trade sym sd qty entry slp tpp w).2)
       = EvAcquire trade_lock :: EvPlaceOrder mo :: evs
           ++ [EvRelease trade_lock] ∧
       lock_free evs ∧
       suspends_under_lock
         (main_events
            (new_events w (execute_new_trade sym sd qty entry slp tpp w).2))
       = true) ∧
  (∀ sym,
     suspends_under_lock
       (main_events (new_events w (start_ltp_stream_for_symbol sym w).2))
     = bool_decide (is_Some (dict_get sym (ltp_streams (manager w))))) ∧
  (∀ sym,
     suspends_under_lock
       (main_events (new_events w (stop_ltp_stream_for_symbol sym w).2))
     = bool_decide (is_Some (dict_get sym (ltp_streams (manager w))))) ∧
  suspends_under_lock
    (main_events (new_events w (stop_all_ltp_streams w).2))
  = negb (bool_decide (ltp_streams (manager w) = [])) ∧
  suspends_under_lock (main_events (new_events w (cleanup w).2))
  = negb (bool_decide (ltp_streams (manager w) = [])).
Proof.
  intros Hmain. repeat apply conj.
  - intros r. destruct (add_active_trade_events r w) as [_ He].
    eapply emits_quiet; [by apply He | repeat constructor].
  - intros tid. eapply emits_quiet;
      [by apply remove_active_trade_events | repeat constructor].
  - destruct (get_active_trades_count_events w) as [_ He].
    eapply emits_quiet; [by apply He | repeat constructor].
  - destruct (get_active_trades_events w) as [_ He].
    eapply emits_quiet; [by apply He | repeat constructor].
  - destruct (get_overall_status_events w) as [_ He].
    eapply emits_quiet; [by apply He | repeat constructor].
  - intros tid.
    destruct (cancel_trade_run tid w) as (? & w' & _ & _ & -> & _ & _ & _ & He).
    destruct (He Hmain) as (evs & Hemit & Hq). by eapply emits_quiet.
  - destruct (cancel_all_trades_run w Hmain) as (w' & evs & -> & _ & _ & He & Hq).
    by eapply emits_quiet.
  - intros sym sd qty entry slp tpp.
    destruct (execute_new_trade sym sd qty entry slp tpp w) as [res w'] eqn:Hrun.
    apply execute_new_trade_events in Hrun as (mo & evs & He & Hfree); [| done].
    exists mo, evs. simpl. by rewrite (emits_new_events _ _ _ He).
  - intros sym.
    destruct (start_ltp_stream_run sym w) as (w' & -> & _ & _ & _ & He).
    simpl. rewrite (emits_new_events _ _ _ (He Hmain)).
    by destruct (dict_get sym (ltp_streams (manager w))).
  - intros sym.
    destruct (stop_ltp_stream_run sym w) as (w' & -> & _ & _ & _ & _ & He).
    simpl. rewrite (emits_new_events _ _ _ (He Hmain)).
    by destruct (dict_get sym (ltp_streams (manager w))).
  - destruct (stop_all_ltp_streams_lock w Hmain) as (w' & evs & -> & He & Hl).
    simpl. by rewrite (emits_new_events _ _ _ He).
  - destruct (cleanup_lock w Hmain) as (w' & evs & -> & He & Hl).
    simpl. by rewrite (emits_new_events _ _ _ He).
Qed.

End Properties.

(** * More properties of the engine *)

Section Executor.
Context {GW : Type} `{!KotakNeoClient GW} `{!UuidSource}.
Implicit Types w : World GW.

(** X1.  When [execute_trade] fails, it fails at one of the three
    [place_order] calls, and the message says which.  The main coroutine
    has then made the placements up to the refused one (with the settle
    sleep after the entry leg) and nothing else: a leg that the broker
    accepted before is not cancelled, no [Trade] is created and no
    monitor is started. *)
Theorem refused_exit_leg_leaves_entry_placed sym sd qty entry slp tpp w res w' :
  running w = MainCoroutine →
  execute_trade sym sd qty entry slp tpp w = (res, w') →
  success res = false →
  r_trade_id res = None ∧ order_ids res = None ∧
  next_handle w' = next_handle w ∧
  ∃ mo so to,
    order_type mo = MARKET ∧ order_type so = STOP_LOSS ∧
    order_type to = TARGET ∧
    ((message res = "Failed to place market order"%string ∧
      truthy_id (place_order mo (gateway w)).1 = None ∧
      main_events (new_events w w') = [EvPlaceOrder mo]) ∨
     (message res = "Failed to place stop loss order"%string ∧
      is_Some (truthy_id (place_order mo (gateway w)).1) ∧
      main_events (new_events w w')
        = [EvPlaceOrder mo; EvSleep 500; EvPlaceOrder so]) ∨
     (message res = "Failed to place target order"%string ∧
      is_Some (truthy_id (place_order mo (gateway w)).1) ∧
      main_events (new_events w w')
        = [EvPlaceOrder mo; EvSleep 500; EvPlaceOrder so; EvPlaceOrder to])).
Proof.
  intros Hmain. run_execute_trade w.
  all: try (apply yield_to_loop_background in Y as HB;
            pose proof (bs_running _ _ HB) as Hr2; simpl in Hr2;
            pose proof (bs_handle _ _ HB) as Hh2; simpl in Hh2;
            destruct (bs_trace _ _ HB) as (tr & Htr & Hbg%main_events_background);
            simpl in Htr).
  all: intros [= <- <-]; simpl; intros Hs; try discriminate Hs.
  all: split; [done |]; split; [done |]; split; [done |].
  all: exists
         (mkOrder (uuid4 (uuid_counter w)) sym MARKET sd qty (Some entry) None
            PENDING 0 None),
         (mkOrder (uuid4 (S (uuid_counter w))) sym STOP_LOSS
            (if TradeSide_eqb sd BUY then SELL else BUY) qty
            (Some (if TradeSide_eqb sd BUY then PrimFloat.sub entry slp
                   else PrimFloat.add entry slp))
            (Some (if TradeSide_eqb sd BUY then PrimFloat.sub entry slp
                   else PrimFloat.add entry slp)) PENDING 0 None),
         (mkOrder (uuid4 (S (S (uuid_counter w)))) sym TARGET
            (if TradeSide_eqb sd BUY then SELL else BUY) qty
            (Some (if TradeSide_eqb sd BUY then PrimFloat.add entry tpp
                   else PrimFloat.sub entry tpp))
            (Some (if TradeSide_eqb sd BUY then PrimFloat.add entry tpp
                   else PrimFloat.sub entry tpp)) PENDING 0 None).
  all: split; [reflexivity |]; split; [reflexivity |]; split; [reflexivity |].
  - right. right. split; [reflexivity |]. simpl. rewrite E1. simpl. rewrite T1.
    split; [by eexists |].
    apply emits_new_events. eexists.
    split; [rewrite Htr, <- ?app_assoc; simpl; reflexivity |].
    rewrite ?Hr2, ?Hmain. simpl.
    change (?a :: ?b :: tr ++ ?l) with ([a; b] ++ tr ++ l).
    rewrite !main_events_app, Hbg. reflexivity.
  - right. left. split; [reflexivity |]. simpl. rewrite E1. simpl. rewrite T1.
    split; [by eexists |].
    apply emits_new_events. eexists.
    split; [rewrite Htr, <- ?app_assoc; simpl; reflexivity |].
    rewrite ?Hr2, ?Hmain. simpl.
    change (?a :: ?b :: tr ++ ?l) with ([a; b] ++ tr ++ l).
    rewrite !main_events_app, Hbg. reflexivity.
  - left. split; [reflexivity |]. simpl. rewrite E1. simpl. split; [done |].
    erewrite new_events_app by (simpl; reflexivity).
    simpl. rewrite Hmain. reflexivity.
Qed.

End Executor.

Section Monitor.
Context {GW : Type} `{!KotakNeoClient GW} `{!UuidSource}.
Implicit Types w : World GW.

(** X2.  A pass of the monitor that finds the stop-loss leg
    Terminal-Filled polls both legs, sends one [cancel_order] for the
    target leg exactly when that leg is Still-Live, then sets
    [trade.active = False] and ends the task; this is so whatever
    [cancel_order] answers. *)
Theorem stop_loss_fill_resolves h r w t trade sl tg g1 g2 :
  tasks w !! h = Some t →
  coro t = monitor_oco_orders r → done t = false → must_cancel t = false →
  heap w !! r = Some trade → active trade = true →
  get_order_status (order_id (stop_loss_order trade)) (gateway w) = (Some sl, g1) →
  get_order_status (order_id (target_order trade)) g1 = (Some tg, g2) →
  terminal_filled (os_status sl) = true →
  ∃ w',
    step_task h w = (tt, w') ∧
    trace w' =
      trace w ++
      [(InTask h, EvGetOrderStatus (order_id (stop_loss_order trade)));
       (InTask h, EvGetOrderStatus (order_id (target_order trade)))] ++
      (if still_live (os_status tg)
       then [(InTask h, EvCancelOrder (order_id (target_order trade)))]
       else []) ∧
    gateway w' =
      (if still_live (os_status tg)
       then (cancel_order (order_id (target_order trade)) g2).2 else g2) ∧
    heap w' = <[r := set_active false trade]> (heap w) ∧
    tasks w' = <[h := finish false t]> (tasks w) ∧
    executor w' = executor w ∧ manager w' = manager w.
Proof.
  intros Ht Hc Hd Hm Hr Ha Hsl Htg Fsl.
  unfold step_task. rewrite Ht, Hd, Hm, Hc.
  unfold bind, as_actor, monitor_iteration, call_get_order_status,
    call_cancel_order, deactivate, emit, set_task, bind, ret.
  flat. rewrite Hr, Ha. flat. rewrite Hsl. flat. rewrite Htg. flat.
  rewrite Fsl.
  assert (alter (set_active false) r (heap w) = <[r := set_active false trade]> (heap w)) as Halter.
  { apply map_eq. intros k. destruct (decide (k = r)) as [-> |].
    - by rewrite lookup_alter_eq, lookup_insert_eq, Hr.
    - by rewrite lookup_alter_ne, lookup_insert_ne. }
  destruct (still_live (os_status tg)); flat.
  - destruct (cancel_order _ g2) as [b g3]. flat.
    eexists. split; [reflexivity |]. simpl.
    rewrite <- !app_assoc. by rewrite Halter.
  - eexists. split; [reflexivity |]. simpl.
    rewrite <- ?app_assoc, ?app_nil_r. by rewrite Halter.
Qed.

(** X3.  A pass that finds the stop-loss leg not filled and the target
    leg Terminal-Filled sends one [cancel_order] for the stop-loss leg
    exactly when that leg is Still-Live, then sets
    [trade.active = False] and ends the task, whatever [cancel_order]
    answers. *)
Theorem target_fill_resolves h r w t trade sl tg g1 g2 :
  tasks w !! h = Some t →
  coro t = monitor_oco_orders r → done t = false → must_cancel t = false →
  heap w !! r = Some trade → active trade = true →
  get_order_status (order_id (stop_loss_order trade)) (gateway w) = (Some sl, g1) →
  get_order_status (order_id (target_order trade)) g1 = (Some tg, g2) →
  terminal_filled (os_status sl) = false →
  terminal_filled (os_status tg) = true →
  ∃ w',
    step_task h w = (tt, w') ∧
    trace w' =
      trace w ++
      [(InTask h, EvGetOrderStatus (order_id (stop_loss_order trade)));
       (InTask h, EvGetOrderStatus (order_id (target_order trade)))] ++
      (if still_live (os_status sl)
       then [(InTask h, EvCancelOrder (order_id (stop_loss_order trade)))]
       else []) ∧
    gateway w' =
      (if still_live (os_status sl)
       then (cancel_order (order_id (stop_loss_order trade)) g2).2 else g2) ∧
    heap w' = <[r := set_active false trade]> (heap w) ∧
    tasks w' = <[h := finish false t]> (tasks w) ∧
    executor w' = executor w ∧ manager w' = manager w.
Proof.
  intros Ht Hc Hd Hm Hr Ha Hsl Htg Fsl Ftg.
  unfold step_task. rewrite Ht, Hd, Hm, Hc.
  unfold bind, as_actor, monitor_iteration, call_get_order_status,
    call_cancel_order, deactivate, emit, set_task, bind, ret.
  flat. rewrite Hr, Ha. flat. rewrite Hsl. flat. rewrite Htg. flat.
  rewrite Fsl, Ftg.
  assert (alter (set_active false) r (heap w) = <[r := set_active false trade]> (heap w)) as Halter.
  { apply map_eq. intros k. destruct (decide (k = r)) as [-> |].
    - by rewrite lookup_alter_eq, lookup_insert_eq, Hr.
    - by rewrite lookup_alter_ne, lookup_insert_ne. }
  destruct (still_live (os_status sl)); flat.
  - destruct (cancel_order _ g2) as [b g3]. flat.
    eexists. split; [reflexivity |]. simpl.
    rewrite <- !app_assoc. by rewrite Halter.
  - eexists. split; [reflexivity |]. simpl.
    rewrite <- ?app_assoc, ?app_nil_r. by rewrite Halter.
Qed.

Lemma step_task_unfilled h r w t trade sl tg g1 g2 :
  tasks w !! h = Some t →
  coro t = monitor_oco_orders r → done t = false → must_cancel t = false →
  heap w !! r = Some trade → active trade = true →
  get_order_status (order_id (stop_loss_order trade)) (gateway w) = (Some sl, g1) →
  get_order_status (order_id (target_order trade)) g1 = (Some tg, g2) →
  terminal_filled (os_status sl) = false →
  terminal_filled (os_status tg) = false →
  step_task h w =
    (tt, with_gateway g2
           (with_trace
              (trace w ++ absent_pass h (order_id (stop_loss_order trade))
                            (order_id (target_order trade))) w)).
Proof.
  intros Ht Hc Hd Hm Hr Ha Hsl Htg Fsl Ftg.
  unfold step_task. rewrite Ht, Hd, Hm, Hc.
  unfold bind, as_actor, monitor_iteration, call_get_order_status, emit, bind,
    ret.
  flat. rewrite Hr, Ha. flat. rewrite Hsl. flat. rewrite Htg. flat.
  rewrite Fsl, Ftg. flat. rewrite <- !app_assoc. reflexivity.
Qed.

(** X4.  The monitor ends only through a fill.  As long as every pass
    gets both statuses and neither is Terminal-Filled (legs that the
    broker rejected or cancelled included), each pass polls the two
    legs, sleeps one second and leaves the trade, the task and the
    executor as they were: there is no time-out. *)
Theorem unfilled_legs_are_polled_on n h r w t trade :
  tasks w !! h = Some t →
  coro t = monitor_oco_orders r → done t = false → must_cancel t = false →
  heap w !! r = Some trade → active trade = true →
  unfilled_polls n (order_id (stop_loss_order trade))
    (order_id (target_order trade)) (gateway w) →
  ∃ w',
    run_each step_task (replicate n h) w = (tt, w') ∧
    heap w' = heap w ∧ tasks w' = tasks w ∧
    executor w' = executor w ∧ manager w' = manager w ∧
    trace w' =
      trace w ++
      concat (replicate n (absent_pass h (order_id (stop_loss_order trade))
                             (order_id (target_order trade)))).
Proof.
  intros Ht Hc Hd Hm Hr Ha. revert w Ht Hr.
  induction n as [| n IH]; intros w Ht Hr Hp.
  - exists w. by rewrite app_nil_r.
  - simpl in Hp.
    destruct (get_order_status _ (gateway w)) as [s1 g1] eqn:Hsl.
    destruct (get_order_status _ g1) as [s2 g2] eqn:Htg.
    destruct Hp as [(a & b & -> & -> & Fa & Fb) Hp].
    pose proof (step_task_unfilled h r w t trade a b g1 g2
                  Ht Hc Hd Hm Hr Ha Hsl Htg Fa Fb) as Hstep.
    set (w1 := with_gateway g2 _) in Hstep.
    destruct (IH w1 Ht Hr Hp) as (w' & Hrun & Hh & Hk & He & Hg & Htr).
    exists w'. simpl. unfold bind. rewrite Hstep, Hrun.
    split; [done |]. rewrite Hh, Hk, He, Hg, Htr. subst w1. flat.
    by rewrite <- app_assoc.
Qed.

End Monitor.

Section Status.
Context {GW : Type} `{!KotakNeoClient GW} `{!UuidSource}.
Implicit Types w : World GW.

(** X5.  [get_trade_status] answers from [active_orders] alone.  After
    the pass of the monitor that resolves a trade its [active] flag is
    [False], but until the done-callback of the task has run the status
    is still [active: True, status: MONITORING]; after the callback it
    is [None]. *)
Theorem get_trade_status_lags_resolution h r w t trade i w1 :
  active_orders (executor w) !! trade_id trade = Some h →
  tasks w !! h = Some t → coro t = monitor_oco_orders r →
  done t = false → must_cancel t = false →
  done_callbacks t = [trade_id trade] →
  heap w !! r = Some trade → active trade = true →
  monitor_iteration r (with_running (InTask h) w) = (i, w1) →
  i = StopLossFilled ∨ i = TargetFilled →
  ∃ w' w'',
    step_task h w = (tt, w') ∧
    heap w' !! r = Some (set_active false trade) ∧
    (get_trade_status (trade_id trade) w').1
      = Some (trade_id trade, true, "MONITORING"%string) ∧
    run_callbacks h w' = (tt, w'') ∧
    heap w'' !! r = Some (set_active false trade) ∧
    (get_trade_status (trade_id trade) w'').1 = None.
Proof.
  intros Hao Ht Hc Hd Hm Hcb Hr Ha Hi Hres.
  pose proof (monitor_iteration_frame _ _ _ _ Hi)
    as (_ & _ & _ & _ & _ & _ & Hex & _).
  pose proof (monitor_iteration_resolves r (with_running (InTask h) w) trade i
                w1 Hr Ha Hi Hres) as [Hh Hk].
  assert (step_task h w
          = (tt, with_tasks (<[h := finish false t]> (tasks w1))
                   (with_running (running w) w1))) as Hstep.
  { unfold step_task. rewrite Ht, Hd, Hm, Hc. unfold bind, as_actor.
    rewrite Hi. destruct Hres as [-> | ->]; reflexivity. }
  set (w' := with_tasks _ _) in Hstep.
  assert (heap w' !! r = Some (set_active false trade)) as Hr'.
  { subst w'. simpl. rewrite Hh. simpl. by rewrite lookup_alter_eq, Hr. }
  destruct (run_callbacks_once h w' (finish false t) (trade_id trade))
    as (w'' & Hrun & [Hcl _] & Htr & _).
  { subst w'. simpl. by rewrite lookup_insert_eq. }
  { done. }
  { done. }
  exists w', w''. split; [done |]. split; [done |].
  split.
  { unfold get_trade_status. subst w'. simpl. rewrite Hex. simpl.
    by rewrite Hao. }
  split; [done |]. split.
  - pose proof (bs_heap _ _ (run_callbacks_background _ _ _ _ Hrun) r) as Hb.
    rewrite Hr' in Hb. simpl in Hb. rewrite set_active_false_twice in Hb.
    by destruct Hb.
  - unfold get_trade_status. by rewrite Hcl.
Qed.

End Status.

Section Registry.
Context {GW : Type} `{!KotakNeoClient GW} `{!UuidSource}.
Implicit Types w : World GW.

(** ** Dictionaries *)

Lemma dict_contains_true {V} k (d : list (string * V)) :
  dict_contains k d = true ↔ ∃ v, (k, v) ∈ d.
Proof.
  unfold dict_contains. rewrite bool_decide_eq_true, list_elem_of_fmap.
  split.
  - intros ([k' v] & -> & Hin). by exists v.
  - intros [v Hin]. by exists (k, v).
Qed.

Lemma dict_del_set {V} k (v : V) d :
  dict_del k (dict_set k v d) = dict_del k d.
Proof.
  unfold dict_set, dict_del.
  destruct (dict_contains k d).
  - induction d as [| [k' v'] d IH]; [done |]. simpl.
    case_bool_decide as Hk; simpl in Hk.
    + subst k'. rewrite !filter_cons_False by (simpl; auto). exact IH.
    + rewrite !filter_cons_True by done. f_equal. exact IH.
  - rewrite filter_app, filter_cons_False by (simpl; auto).
    by rewrite filter_nil, app_nil_r.
Qed.

Lemma dict_get_set {V} k (v : V) d : dict_get k (dict_set k v d) = Some v.
Proof.
  unfold dict_set. destruct (dict_contains k d) eqn:Hc.
  - apply dict_contains_true in Hc as [v0 Hin].
    induction d as [| [k' v'] d IH]; [by apply elem_of_nil in Hin |].
    simpl. case_bool_decide as Hk; simpl in Hk.
    + subst k'. apply dict_get_head.
    + apply elem_of_cons in Hin as [[= ? ?] | Hin]; [done |].
      unfold dict_get in *. simpl. rewrite decide_False by done.
      specialize (IH Hin). simpl.
      destruct (list_find _ _) as [[i [k2 v2]] |]; [| done]. exact IH.
  - unfold dict_contains in Hc. apply bool_decide_eq_false in Hc.
    induction d as [| [k' v'] d IH]; simpl.
    + unfold dict_get. simpl. by rewrite decide_True.
    + rewrite fmap_cons, not_elem_of_cons in Hc.
      destruct Hc as [Hne Hc]. simpl in Hne.
      unfold dict_get in *. simpl. rewrite decide_False by done.
      specialize (IH Hc). simpl.
      destruct (list_find _ _) as [[i [k2 v2]] |]; [| done]. exact IH.
Qed.

Lemma dict_set_length {V} k (v : V) d :
  length (dict_set k v d)
  = if dict_contains k d then length d else S (length d).
Proof.
  unfold dict_set. destruct (dict_contains k d).
  - by rewrite length_fmap.
  - rewrite length_app. simpl. lia.
Qed.

Lemma dict_set_twice {V} k (v : V) d :
  dict_set k v (dict_set k v d) = dict_set k v d.
Proof.
  assert (dict_contains k (dict_set k v d) = true) as Hc.
  { apply dict_contains_true. exists v.
    pose proof (dict_get_set k v d) as Hg. unfold dict_get in Hg.
    destruct (list_find _ _) as [[i [k2 v2]] |] eqn:Hf; [| done].
    apply list_find_Some in Hf as (Hl & Hk & _). simpl in *.
    injection Hg as ->. subst k2. by eapply list_elem_of_lookup_2. }
  unfold dict_set at 1. rewrite Hc.
  unfold dict_set. destruct (dict_contains k d) eqn:Hd.
  - rewrite <- list_fmap_compose. apply list_fmap_ext.
    intros i [k' v'] _. simpl.
    repeat (case_bool_decide; simpl in * ); congruence.
  - rewrite fmap_app. simpl. rewrite bool_decide_true by done.
    f_equal. rewrite <- (list_fmap_id d) at 2. apply list_fmap_ext.
    intros i [k' v'] Hl. simpl. case_bool_decide as Hk; [| done].
    simpl in Hk. subst k'.
    assert (dict_contains k d = true) as Hc'; [| congruence].
    apply dict_contains_true. exists v'. by eapply list_elem_of_lookup_2.
Qed.

(** X9.  After [add_active_trade] the registry maps the id of the trade
    to the trade; the count goes up by one when the id is new and stays
    when it was there; adding the same trade again changes nothing; and
    [remove_active_trade] of that id then leaves the registry that one
    gets by deleting the id from the registry one started with. *)
Theorem registry_add_then_remove r t w :
  heap w !! r = Some t →
  dict_get (trade_id t) (active_trades (manager (add_active_trade r w).2))
    = Some r ∧
  (get_active_trades_count (add_active_trade r w).2).1
    = (if dict_contains (trade_id t) (active_trades (manager w))
       then length (active_trades (manager w))
       else S (length (active_trades (manager w)))) ∧
  active_trades (manager (add_active_trade r (add_active_trade r w).2).2)
    = active_trades (manager (add_active_trade r w).2) ∧
  active_trades
    (manager (remove_active_trade (trade_id t) (add_active_trade r w).2).2)
    = dict_del (trade_id t) (active_trades (manager w)).
Proof.
  intros Hr.
  assert (heap (add_active_trade r w).2 !! r = Some t) as Hr'.
  { unfold add_active_trade, acquire, release, emit, set_active_trades, bind.
    flat. rewrite Hr. by flat. }
  rewrite get_active_trades_count_run, remove_active_trade_run. simpl.
  rewrite (add_active_trade_run r t _ Hr'), (add_active_trade_run r t w Hr).
  split; [apply dict_get_set |]. split; [apply dict_set_length |].
  split; [apply dict_set_twice | apply dict_del_set].
Qed.

(** X8.  [cleanup] reaches only what is in the two registries.  A trade
    opened with [execute_new_trade] is not in [active_trades]; after
    [cleanup] from empty registries its monitor task is still there,
    not done and not asked to cancel, the trade is still active, and
    [cleanup] has only taken and given back the two locks. *)
Theorem unregistered_monitor_survives_cleanup
    sym sd qty entry slp tpp w res w1 tid :
  active_trades (manager w) = [] → ltp_streams (manager w) = [] →
  execute_new_trade sym sd qty entry slp tpp w = (res, w1) →
  r_trade_id res = Some tid →
  ∃ w2 h r trade,
    cleanup w1 = (Some tt, w2) ∧
    active_orders (executor w2) !! tid = Some h ∧
    tasks w2 !! h = Some (mkTask (monitor_oco_orders r) false false false [tid]) ∧
    heap w2 !! r = Some trade ∧ trade_id trade = tid ∧ active trade = true ∧
    gateway w2 = gateway w1 ∧
    new_events w1 w2 =
      [(running w1, EvAcquire trade_lock); (running w1, EvRelease trade_lock);
       (running w1, EvAcquire stream_lock); (running w1, EvRelease stream_lock)].
Proof.
  intros Hreg Hstr.
  unfold execute_new_trade, acquire, release, emit, bind, ret. flat.
  set (w0 := mkWorld _ _ _ _ _ _ _ _ _ _).
  destruct (execute_trade sym sd qty entry slp tpp w0) as [res1 wt] eqn:Hrun.
  pose proof (execute_trade_frame _ _ _ _ _ _ _ _ _ Hrun) as (Hm & _).
  apply execute_trade_monitor in Hrun.
  flat. intros [= <- <-] Hid. rewrite Hid in Hrun.
  destruct Hrun as (_ & h & r & trade & ao & tl & _ & _ & Ea & _ & Ht & Hh & Hi & Ha).
  unfold cleanup, cancel_all_trades, stop_all_ltp_streams, acquire, release,
    emit, bind, ret. flat.
  subst w0. simpl in Hm. rewrite Hm, Hreg. simpl. rewrite ?Hm, Hstr. simpl.
  eexists _, h, r, trade. split; [reflexivity |]. simpl.
  rewrite Ea, lookup_insert_eq.
  split; [done |]. split; [done |]. split; [done |]. split; [done |].
  split; [done |]. split; [done |].
  erewrite new_events_app by (simpl; rewrite <- !app_assoc; reflexivity).
  reflexivity.
Qed.

End Registry.

Ltac no_events :=
  exists []; rewrite app_nil_r; split; [reflexivity | by constructor].

Section Cancel.
Context {GW : Type} `{!KotakNeoClient GW} `{!UuidSource}.
Implicit Types w : World GW.

Lemma step_task_silent h h' w u w' :
  ending h w → step_task h' w = (u, w') →
  ∃ tr, trace w' = trace w ++ tr ∧ silent h tr.
Proof.
  intros Hend. unfold step_task.
  destruct (tasks w !! h') as [t |] eqn:Ht;
    [| intros [= _ <-]; no_events].
  destruct (done t) eqn:Hd;
    [intros [= _ <-]; no_events |].
  destruct (must_cancel t) eqn:Hm;
    [unfold set_task; intros [= _ <-]; no_events |].
  assert (h' ≠ h) as Hne.
  { intros ->. unfold ending in Hend. rewrite Ht in Hend.
    destruct Hend; congruence. }
  destruct (coro t) as [r | sym];
    [| unfold set_task; intros [= _ <-]; no_events].
  unfold bind, as_actor.
  destruct (monitor_iteration r _) as [i w1] eqn:Hi.
  apply monitor_iteration_frame in Hi
    as (_ & _ & _ & _ & _ & _ & _ & (tr & Htr & Hall) & _).
  simpl in Htr, Hall.
  assert (silent h tr) as Hs.
  { eapply Forall_impl; [exact Hall |]. intros [a e] [Ha _]. simpl in *.
    subst a. congruence. }
  destruct (suspends i); unfold ret, set_task; intros [= _ <-]; simpl;
    by exists tr.
Qed.

Lemma run_each_cleanup_trace tids w u w' :
  run_each _cleanup_trade_resources tids w = (u, w') →
  running w' = running w ∧
  ∃ tr, trace w' = trace w ++ tr ∧ Forall (λ ae, ae.1 = running w) tr.
Proof.
  revert w. induction tids as [| tid tids IH]; intros w; simpl.
  - intros [= _ <-]. split; [done |]. no_events.
  - unfold bind, _cleanup_trade_resources, emit. flat.
    intros Hrun. apply IH in Hrun as (Hr & tr & Htr & Hall). simpl in *.
    split; [done |]. eexists. rewrite Htr, <- app_assoc.
    split; [reflexivity |]. by constructor.
Qed.

Lemma run_callbacks_silent h h' w u w' :
  run_callbacks h' w = (u, w') →
  ∃ tr, trace w' = trace w ++ tr ∧ silent h tr.
Proof.
  unfold run_callbacks.
  destruct (tasks w !! h') as [t |];
    [| intros [= _ <-]; no_events].
  destruct (done t);
    [| intros [= _ <-]; no_events].
  unfold bind, set_task, as_actor. flat.
  destruct (run_each _ _ _) as [[] w1] eqn:Hrun.
  apply run_each_cleanup_trace in Hrun as (_ & tr & Htr & Hall).
  simpl in *. intros [= _ <-]. simpl. exists tr. split; [done |].
  eapply Forall_impl; [exact Hall |]. intros [a e] Ha. simpl in *. by subst a.
Qed.

Lemma run_actions_silent h l w u w' :
  ending h w → run_each run_action l w = (u, w') →
  ending h w' ∧ ∃ tr, trace w' = trace w ++ tr ∧ silent h tr.
Proof.
  revert w. induction l as [| a l IH]; intros w Hend; simpl.
  - intros [= _ <-]. split; [done |]. no_events.
  - unfold bind. destruct (run_action a w) as [[] w1] eqn:Ha.
    assert (∃ tr, trace w1 = trace w ++ tr ∧ silent h tr) as (tr1 & Htr1 & Hs1).
    { destruct a; simpl in Ha;
        [by eapply step_task_silent | by eapply run_callbacks_silent]. }
    pose proof (background_step_ending h _ _
                  (run_action_background _ _ _ _ Ha) Hend) as Hend1.
    intros Hrun. apply IH in Hrun as (Hend' & tr & Htr & Hs); [| done].
    split; [done |]. exists (tr1 ++ tr).
    rewrite Htr, Htr1, app_assoc. split; [done |]. by apply Forall_app.
Qed.

Lemma yield_to_loop_silent h w u w' :
  ending h w → yield_to_loop w = (u, w') →
  ending h w' ∧ ∃ tr, trace w' = trace w ++ tr ∧ silent h tr.
Proof.
  intros Hend. unfold yield_to_loop.
  destruct (schedule w) as [| batch rest].
  - intros [= _ <-]. split; [done |]. no_events.
  - intros Hrun. by apply (run_actions_silent h) in Hrun.
Qed.

(** Cancelling task [h] and waiting for it: what the trace gains. *)
Lemma cancel_and_await_silent h w :
  running w = MainCoroutine →
  ∃ w' tr,
    (task_cancel h ;;; await_task h) w = (true, w') ∧
    running w' = running w ∧ manager w' = manager w ∧
    trace w' = trace w ++ tr ∧ silent h tr ∧
    main_events tr = [EvCancelTask h; EvAwaitTask h].
Proof.
  intros Hmain.
  destruct (cancel_and_await_run h w) as (w' & Hrun & _ & Hm & Hr & _ & He).
  destruct (He Hmain) as (tr & Htr & Hev).
  exists w', tr. split; [done |]. split; [done |]. split; [done |].
  split; [done |]. split; [| done].
  (* the trace, step by step *)
  revert Hrun. unfold bind.
  destruct (task_cancel_run h w)
    as (wc & Hc & Hend & _ & _ & _ & _ & Hrc & _ & _ & _ & Htc & _).
  rewrite Hc. unfold await_task, bind, emit, task_done, ret. flat.
  destruct (tasks wc !! h) as [t |] eqn:Ht.
  - destruct (done t) eqn:Hd.
    + intros [= <-]. simpl in Htr. rewrite Htc, <- app_assoc in Htr.
      apply app_inv_head in Htr. subst tr. rewrite Hrc, Hmain.
      by repeat constructor.
    + destruct (yield_to_loop _) as [[] w2] eqn:Hy.
      apply yield_to_loop_silent with (h := h) in Hy as (Hend2 & tr2 & Htr2 & Hs2);
        [| unfold ending in *; simpl; by rewrite Ht in *].
      destruct (step_task h w2) as [[] w3] eqn:Hs.
      pose proof (background_step_ending h _ _
                    (step_task_background _ _ _ _ Hs) Hend2) as Hend3.
      apply step_task_silent with (h := h) in Hs as (tr3 & Htr3 & Hs3);
        [| done].
      destruct (run_callbacks h w3) as [[] w4] eqn:Hcb.
      apply run_callbacks_silent with (h := h) in Hcb as (tr4 & Htr4 & Hs4).
      intros [= _ <-]. simpl in Htr2.
      rewrite Htr4, Htr3, Htr2, Htc, <- !app_assoc in Htr.
      apply app_inv_head in Htr. subst tr. rewrite Hrc, Hmain.
      repeat (apply Forall_app; split; try done); by repeat constructor.
  - intros [= <-]. simpl in Htr. rewrite Htc, <- app_assoc in Htr.
    apply app_inv_head in Htr. subst tr. rewrite Hrc, Hmain.
    by repeat constructor.
Qed.

Lemma cancel_trade_trace tid w :
  running w = MainCoroutine →
  ∃ w',
    cancel_trade tid w = (Some true, w') ∧
    running w' = running w ∧
    active_trades (manager w') = dict_del tid (active_trades (manager w)) ∧
    ltp_streams (manager w') = ltp_streams (manager w) ∧
    emits w w'
      (match active_orders (executor w) !! tid with
       | Some h => [EvCancelTask h; EvAwaitTask h]
       | None => []
       end ++ [EvAcquire trade_lock; EvRelease trade_lock]) ∧
    match active_orders (executor w) !! tid with
    | Some h => silent h (new_events w w')
    | None => gateway w' = gateway w ∧ tasks w' = tasks w ∧ heap w' = heap w
    end.
Proof.
  intros Hmain. unfold cancel_trade, cancel_trade_orders, bind.
  destruct (active_orders (executor w) !! tid) as [h |] eqn:Hao.
  - destruct (cancel_and_await_silent h w Hmain)
      as (w1 & tr & Hrun & Hr & Hm & Htr & Hs & Hev).
    revert Hrun. unfold bind.
    destruct (task_cancel h w) as [[] wc].
    destruct (await_task h wc) as [b w1'] eqn:Haw. intros [= -> ->].
    unfold ret. rewrite remove_active_trade_run.
    eexists. split; [reflexivity |]. simpl. rewrite Hm.
    split; [done |]. split; [done |]. split; [done |].
    split.
    + eexists. rewrite Htr, <- app_assoc. split; [reflexivity |].
      by rewrite main_events_app, Hev, Hr, Hmain.
    + erewrite new_events_app by (rewrite Htr, <- app_assoc; reflexivity).
      rewrite Hr, Hmain. apply Forall_app. split; [done |].
      by repeat constructor.
  - unfold ret. rewrite remove_active_trade_run.
    eexists. split; [reflexivity |]. simpl.
    split; [done |]. split; [done |]. split; [done |].
    split; [| done]. eexists. split; [reflexivity |]. by rewrite Hmain.
Qed.


Lemma offline_app evs evs' : offline evs → offline evs' → offline (evs ++ evs').
Proof. intros. by apply Forall_app. Qed.

Lemma for_each_cancel_offline ids w :
  running w = MainCoroutine →
  ∃ w' evs,
    for_each cancel_trade ids w = (Some tt, w') ∧
    running w' = running w ∧
    active_trades (manager w')
      = foldl (λ d k, dict_del k d) (active_trades (manager w)) ids ∧
    ltp_streams (manager w') = ltp_streams (manager w) ∧
    emits w w' evs ∧ offline evs.
Proof.
  revert w. induction ids as [| tid ids IH]; intros w Hmain; simpl.
  - exists w, []. repeat split; [apply emits_refl | constructor].
  - destruct (cancel_trade_trace tid w Hmain)
      as (w1 & Hrun & Hr & Hreg & Hl & He & _).
    destruct (IH w1) as (w' & evs & Hrun' & Hr' & Hreg' & Hl' & He' & Ho');
      [congruence |].
    eexists w', _. unfold bind. rewrite Hrun, Hrun'.
    split; [done |]. split; [congruence |]. split; [by rewrite Hreg', Hreg |].
    split; [congruence |]. split; [by eapply emits_trans |].
    apply offline_app; [| done].
    destruct (active_orders (executor w) !! tid); by repeat constructor.
Qed.

Lemma for_each_stop_offline syms w :
  running w = MainCoroutine →
  ∃ w' evs,
    for_each stop_ltp_stream_for_symbol syms w = (Some tt, w') ∧
    running w' = running w ∧
    active_trades (manager w') = active_trades (manager w) ∧
    ltp_streams (manager w')
      = foldl (λ d k, dict_del k d) (ltp_streams (manager w)) syms ∧
    emits w w' evs ∧ offline evs.
Proof.
  revert w. induction syms as [| sym syms IH]; intros w Hmain; simpl.
  - exists w, []. repeat split; [apply emits_refl | constructor].
  - destruct (stop_ltp_stream_run sym w) as (w1 & Hrun & _ & Hr & Ha & Hl & He).
    destruct (IH w1) as (w' & evs & Hrun' & Hr' & Ha' & Hl' & He' & Ho');
      [congruence |].
    eexists w', _. unfold bind. rewrite Hrun, Hrun'.
    split; [done |]. split; [congruence |]. split; [congruence |].
    split; [by rewrite Hl', Hl |]. split; [by eapply emits_trans; [apply He |] |].
    apply offline_app; [| done].
    destruct (dict_get sym (ltp_streams (manager w))); by repeat constructor.
Qed.

(** X7.  [cleanup], called by the main coroutine, returns, leaves
    [active_trades] and [ltp_streams] empty, and makes no call to the
    broker. *)
Theorem cleanup_empties_both_registries w :
  running w = MainCoroutine →
  ∃ w',
    cleanup w = (Some tt, w') ∧
    active_trades (manager w') = [] ∧ ltp_streams (manager w') = [] ∧
    offline (main_events (new_events w w')).
Proof.
  intros Hmain.
  unfold cleanup, cancel_all_trades, stop_all_ltp_streams, acquire, release,
    emit, bind. flat.
  set (w0 := mkWorld _ _ _ _ _ _ _ _ _ _).
  destruct (for_each_cancel_offline (dict_keys (active_trades (manager w))) w0)
    as (w1 & evs1 & Hrun1 & Hr1 & Hreg1 & Hl1 & He1 & Ho1); [done |].
  rewrite Hrun1. flat.
  set (w2 := mkWorld _ _ _ _ _ _ _ _ _ _).
  destruct (for_each_stop_offline (dict_keys (ltp_streams (manager w1))) w2)
    as (w3 & evs3 & Hrun3 & Hr3 & Hreg3 & Hl3 & He3 & Ho3);
    [subst w2; simpl; rewrite Hr1; subst w0; by simpl |].
  exists w3. split; [done |].
  split; [rewrite Hreg3; subst w2; simpl; rewrite Hreg1; by apply dict_del_all |].
  split; [rewrite Hl3; subst w2; simpl; by apply dict_del_all |].
  assert (emits w w0 [EvAcquire trade_lock; EvRelease trade_lock]) as H0.
  { eexists. subst w0. simpl. rewrite <- app_assoc. split; [reflexivity |].
    by rewrite Hmain. }
  assert (emits w1 w2 [EvAcquire stream_lock; EvRelease stream_lock]) as H2.
  { eexists. subst w2. simpl. rewrite <- app_assoc. split; [reflexivity |].
    rewrite Hr1. subst w0. simpl. by rewrite Hmain. }
  erewrite emits_new_events
    by (eapply emits_trans; [exact H0 |]; eapply emits_trans; [exact He1 |];
        eapply emits_trans; [exact H2 | exact He3]).
  repeat apply offline_app; try done; by repeat constructor.
Qed.

End Cancel.

Section Streams.
Context {GW : Type} `{!KotakNeoClient GW} `{!UuidSource}.
Implicit Types w : World GW.

(** Cancelling a task and waiting for it leaves it done. *)
Lemma cancel_and_await_done h w :
  ∃ w',
    (task_cancel h ;;; await_task h) w = (true, w') ∧
    manager w' = manager w ∧ next_handle w' = next_handle w ∧
    match tasks w !! h with
    | Some t => ∃ t', tasks w' !! h = Some t' ∧ done t' = true
    | None => True
    end.
Proof.
  destruct (cancel_and_await_run h w) as (w' & Hrun & _ & Hm & _ & Hh & _).
  exists w'. split; [done |]. split; [done |]. split; [done |].
  revert Hrun. unfold bind.
  destruct (task_cancel_run h w)
    as (wc & Hc & Hend & _ & _ & _ & _ & _ & _ & _ & _ & _ & _ & Hk).
  rewrite Hc. intros Ha.
  apply await_task_run in Ha as (_ & HB & Hfin); [| done].
  pose proof (bs_tasks _ _ HB h) as Hadv. simpl in Hadv.
  destruct (tasks w !! h) as [t |] eqn:Et; [| done].
  destruct (tasks wc !! h) as [tc |] eqn:Ec; [| done].
  destruct (tasks w' !! h) as [t' |] eqn:E'; [| done].
  exists t'. split; [done |].
  destruct Hfin as [Hd | [Hf _]].
  - destruct Hadv as [-> | [? _]]; done.
  - unfold finished in Hf. rewrite E' in Hf. by destruct Hf.
Qed.

(** X10.  [start_ltp_stream_for_symbol] returns and leaves the symbol
    mapped to a task that it has just created (in the place of the
    former task of the symbol, if there was one);
    [stop_ltp_stream_for_symbol] for the same symbol then returns,
    leaves the registry that one gets by deleting the symbol from the
    registry one started with, and leaves that task done. *)
Theorem ltp_stream_start_then_stop sym w :
  ∃ w1 w2 t,
    start_ltp_stream_for_symbol sym w = (Some tt, w1) ∧
    ltp_streams (manager w1)
      = dict_set sym (next_handle w) (ltp_streams (manager w)) ∧
    tasks w1 !! next_handle w
      = Some (mkTask (run_ltp_stream sym) false false false []) ∧
    stop_ltp_stream_for_symbol sym w1 = (Some tt, w2) ∧
    ltp_streams (manager w2) = dict_del sym (ltp_streams (manager w)) ∧
    tasks w2 !! next_handle w = Some t ∧ done t = true.
Proof.
  assert (∃ w1,
    start_ltp_stream_for_symbol sym w = (Some tt, w1) ∧
    ltp_streams (manager w1)
      = dict_set sym (next_handle w) (ltp_streams (manager w)) ∧
    tasks w1 !! next_handle w
      = Some (mkTask (run_ltp_stream sym) false false false []))
    as (w1 & Hstart & Hl1 & Ht1).
  { unfold start_ltp_stream_for_symbol, acquire.
    erewrite bind_step by reflexivity.
    set (w0 := with_trace _ w).
    erewrite bind_step by reflexivity. simpl.
    assert (∃ wa,
      match dict_get sym (ltp_streams (manager w)) with
      | Some h => task_cancel h;;; await_task h
      | None => ret true
      end w0 = (true, wa) ∧ manager wa = manager w ∧
      next_handle wa = next_handle w) as (wa & Hrun & Hm & Hh).
    { destruct (dict_get sym (ltp_streams (manager w))) as [h |].
      - destruct (cancel_and_await_done h w0) as (wa & Hrun & Hm & Hh & _).
        by exists wa.
      - by exists w0. }
    erewrite bind_step by exact Hrun.
    unfold create_task, fresh_handle, set_task, set_ltp_streams, release, emit,
      bind, ret. flat.
    eexists. split; [reflexivity |]. simpl.
    by rewrite Hm, Hh, lookup_insert_eq. }
  (* stop *)
  destruct (stop_ltp_stream_run sym w1) as (w2 & Hstop & _ & _ & _ & Hl2 & _).
  assert (∃ t, tasks w2 !! next_handle w = Some t ∧ done t = true)
    as (t & Ht2 & Hd2).
  { revert Hstop. unfold stop_ltp_stream_for_symbol, acquire.
    erewrite bind_step by reflexivity.
    set (w1' := with_trace _ w1).
    erewrite bind_step by reflexivity. simpl.
    rewrite Hl1, dict_get_set.
    destruct (cancel_and_await_done (next_handle w) w1')
      as (wb & Hrunb & _ & _ & Hdone).
    revert Hrunb. unfold bind at 1.
    destruct (task_cancel (next_handle w) w1') as [[] wc] eqn:Hc.
    intros Hrunb. unfold bind. rewrite Hc, Hrunb.
    unfold set_ltp_streams, release, emit, bind, ret. flat.
    intros [= <-]. simpl.
    subst w1'. simpl in Hdone. rewrite Ht1 in Hdone. exact Hdone. }
  exists w1, w2, t. split; [done |]. split; [done |]. split; [done |].
  split; [done |]. split; [by rewrite Hl2, Hl1, dict_del_set |]. done.
Qed.

End Streams.

(** ** Bulk cancellation, trade by trade *)

Section BulkCancellation.
Context {GW : Type} `{!KotakNeoClient GW} `{!UuidSource}.
Implicit Types w : World GW.










End BulkCancellation.

(** * The mock broker *)

Section Drift.
Context {GW : Type} `{!KotakNeoClient GW} `{!UuidSource}.
Implicit Types w : World GW.
Context (R : relation GW) `{!Reflexive R} `{!Transitive R}.
Hypothesis status_drift : ∀ oid g, R g (get_order_status oid g).2.
Hypothesis cancel_drift : ∀ oid g, R g (cancel_order oid g).2.

(** What the polls and the cancellations of the background tasks can do
    to the broker. *)
Lemma monitor_iteration_drift r w i w' :
  monitor_iteration r w = (i, w') → R (gateway w) (gateway w').
Proof using All.
  unfold monitor_iteration.
  destruct (heap w !! r) as [trade |]; [| by intros [= _ <-]].
  destruct (active trade); simpl; [| by intros [= _ <-]].
  unfold call_get_order_status, call_cancel_order, deactivate, emit, bind, ret.
  flat.
  pose proof (status_drift (order_id (stop_loss_order trade)) (gateway w)) as H1.
  destruct (get_order_status _ (gateway w)) as [s1 g1]. flat.
  pose proof (status_drift (order_id (target_order trade)) g1) as H2.
  destruct (get_order_status _ g1) as [s2 g2]. flat. simpl in *.
  assert (R (gateway w) g2) as H12 by (by etrans).
  destruct s1 as [sl |]; [| by intros [= _ <-]].
  destruct s2 as [tg |]; [| by intros [= _ <-]].
  destruct (terminal_filled (os_status sl)).
  - destruct (still_live (os_status tg)); flat; [| by intros [= _ <-]].
    pose proof (cancel_drift (order_id (target_order trade)) g2) as H3.
    destruct (cancel_order _ g2) as [b g3]. flat. intros [= _ <-]. simpl in *.
    by etrans.
  - destruct (terminal_filled (os_status tg)); flat; [| by intros [= _ <-]].
    destruct (still_live (os_status sl)); flat; [| by intros [= _ <-]].
    pose proof (cancel_drift (order_id (stop_loss_order trade)) g2) as H3.
    destruct (cancel_order _ g2) as [b g3]. flat. intros [= _ <-]. simpl in *.
    by etrans.
Qed.

Lemma step_task_drift h w u w' :
  step_task h w = (u, w') → R (gateway w) (gateway w').
Proof using All.
  unfold step_task.
  destruct (tasks w !! h) as [t |]; [| by intros [= _ <-]].
  destruct (done t); [by intros [= _ <-] |].
  destruct (must_cancel t); [unfold set_task; by intros [= _ <-] |].
  destruct (coro t) as [r | sym]; [| unfold set_task; by intros [= _ <-]].
  unfold bind, as_actor.
  destruct (monitor_iteration r _) as [i w1] eqn:Hi.
  apply monitor_iteration_drift in Hi. simpl in Hi.
  destruct (suspends i); unfold ret, set_task; by intros [= _ <-].
Qed.

Lemma run_each_cleanup_gateway tids w u w' :
  run_each _cleanup_trade_resources tids w = (u, w') → gateway w' = gateway w.
Proof.
  revert w. induction tids as [| tid tids IH]; intros w; simpl.
  - by intros [= _ <-].
  - unfold bind, _cleanup_trade_resources, emit. flat.
    intros Hrun. by apply IH in Hrun.
Qed.

Lemma run_callbacks_gateway h w u w' :
  run_callbacks h w = (u, w') → gateway w' = gateway w.
Proof.
  unfold run_callbacks.
  destruct (tasks w !! h) as [t |]; [| by intros [= _ <-]].
  destruct (done t); [| by intros [= _ <-]].
  unfold bind, set_task, as_actor. flat.
  destruct (run_each _ _ _) as [[] w1] eqn:Hrun.
  apply run_each_cleanup_gateway in Hrun. simpl in Hrun.
  by intros [= _ <-].
Qed.

Lemma run_actions_drift l w u w' :
  run_each run_action l w = (u, w') → R (gateway w) (gateway w').
Proof using All.
  revert w. induction l as [| a l IH]; intros w; simpl.
  - by intros [= _ <-].
  - unfold bind. destruct (run_action a w) as [[] w1] eqn:Ha.
    intros Hrun. apply IH in Hrun. etrans; [| exact Hrun].
    destruct a; simpl in Ha.
    + by eapply step_task_drift.
    + apply run_callbacks_gateway in Ha. by rewrite Ha.
Qed.

Lemma yield_to_loop_drift w u w' :
  yield_to_loop w = (u, w') → R (gateway w) (gateway w').
Proof using All.
  unfold yield_to_loop. destruct (schedule w) as [| batch rest].
  - by intros [= _ <-].
  - intros Hrun. by apply run_actions_drift in Hrun.
Qed.

End Drift.

Section Steps.
Context {GW : Type} `{!KotakNeoClient GW} `{!UuidSource}.
Implicit Types w : World GW.
Context (R : relation GW) `{!Reflexive R} `{!Transitive R}.
Hypothesis status_drift : ∀ oid g, R g (get_order_status oid g).2.
Hypothesis cancel_drift : ∀ oid g, R g (cancel_order oid g).2.

(** The journey of the gateway through [execute_trade]. *)
Lemma execute_trade_steps sym sd qty entry slp tpp w res w' :
  execute_trade sym sd qty entry slp tpp w = (res, w') →
  match truthy_id
          (place_order (entry_leg (uuid_counter w) sym sd qty entry)
             (gateway w)).1 with
  | None =>
    success res = false ∧
    gateway w' =
      (place_order (entry_leg (uuid_counter w) sym sd qty entry) (gateway w)).2
  | Some mid =>
    ∃ gs,
      R (place_order (entry_leg (uuid_counter w) sym sd qty entry)
           (gateway w)).2 gs ∧
      match truthy_id
              (place_order (stop_loss_leg (uuid_counter w) sym sd qty entry slp)
                 gs).1 with
      | None =>
        success res = false ∧
        gateway w' =
          (place_order (stop_loss_leg (uuid_counter w) sym sd qty entry slp)
             gs).2
      | Some sid =>
        match truthy_id
                (place_order (target_leg (uuid_counter w) sym sd qty entry tpp)
                   (place_order
                      (stop_loss_leg (uuid_counter w) sym sd qty entry slp)
                      gs).2).1 with
        | None => success res = false
        | Some tid =>
          success res = true ∧ order_ids res = Some [mid; sid; tid]
        end ∧
        gateway w' =
          (place_order (target_leg (uuid_counter w) sym sd qty entry tpp)
             (place_order (stop_loss_leg (uuid_counter w) sym sd qty entry slp)
                gs).2).2
      end
  end.
Proof using All.
  unfold entry_leg, stop_loss_leg, target_leg. run_execute_trade w.
  all: try (apply (yield_to_loop_drift R status_drift cancel_drift) in Y;
            simpl in Y).
  all: intros [= <- <-]; simpl.
  - exists (gateway w2). split; [done |].
    rewrite E2. simpl. rewrite T2, E3. simpl. by rewrite T3.
  - exists (gateway w2). split; [done |].
    rewrite E2. simpl. rewrite T2, E3. simpl. by rewrite T3.
  - exists (gateway w2). split; [done |].
    rewrite E2. simpl. by rewrite T2.
  - done.
Qed.

End Steps.

(** ** Decimal numerals *)

Lemma pretty_N_go_length x s :
  (String.length s ≤ String.length (pretty_N_go x s))%nat.
Proof.
  revert s. induction (N.lt_wf_0 x) as [x _ IH]; intros s.
  destruct (decide (x = 0%N)) as [-> | Hx].
  - by rewrite pretty_N_go_0.
  - rewrite pretty_N_go_step by lia.
    etrans; [| apply IH; apply N.div_lt; lia]. simpl. lia.
Qed.

Lemma pretty_N_go_length_mono x y s s' :
  (x ≤ y)%N → (String.length s ≤ String.length s')%nat →
  (String.length (pretty_N_go x s) ≤ String.length (pretty_N_go y s'))%nat.
Proof.
  revert x s s'. induction (N.lt_wf_0 y) as [y _ IH]; intros x s s' Hxy Hs.
  destruct (decide (x = 0%N)) as [-> | Hx].
  - rewrite pretty_N_go_0. etrans; [exact Hs | apply pretty_N_go_length].
  - rewrite (pretty_N_go_step x), (pretty_N_go_step y) by lia.
    apply IH.
    + apply N.div_lt; lia.
    + apply N.Div0.div_le_mono. lia.
    + simpl. lia.
Qed.

Lemma pretty_N_length_mono (x y : N) :
  (x ≤ y)%N → (String.length (pretty x) ≤ String.length (pretty y))%nat.
Proof.
  intros Hxy. unfold pretty, pretty_N.
  destruct (decide (x = 0%N)) as [-> | Hx]; destruct (decide (y = 0%N)) as [-> | Hy];
    try lia; try done.
  - rewrite pretty_N_go_step by lia. etrans; [| apply pretty_N_go_length]. simpl. lia.
  - by apply pretty_N_go_length_mono.
Qed.

Lemma pretty_Z_length_mono (x y : Z) :
  (0 ≤ x ≤ y)%Z → (String.length (pretty x) ≤ String.length (pretty y))%nat.
Proof.
  intros Hxy.
  assert (∀ z : Z, (0 ≤ z)%Z → pretty z = pretty (Z.to_N z)) as Hp.
  { intros [| p | p] Hz; try lia; reflexivity. }
  rewrite !Hp by lia. apply pretty_N_length_mono. lia.
Qed.

Lemma string_app_length s1 s2 :
  String.length (s1 +:+ s2) = (String.length s1 + String.length s2)%nat.
Proof. induction s1 as [| c s1 IH]; simpl; [done | by rewrite IH]. Qed.

Lemma string_app_inj_length s1 s2 t1 t2 :
  String.length s1 = String.length t1 →
  s1 +:+ s2 = t1 +:+ t2 → s1 = t1 ∧ s2 = t2.
Proof.
  revert t1. induction s1 as [| c s1 IH]; intros [| d t1] Hl; simpl in *;
    try done.
  intros [= -> Heq]. apply IH in Heq as [-> ->]; [done | lia].
Qed.

(** Two stamps [time ++ counter] agree only if both parts do, when the
    later one has the later time and the larger counter. *)
Lemma stamp_inj (t1 t2 c1 c2 : Z) :
  (0 ≤ t1 ≤ t2)%Z → (0 ≤ c1 ≤ c2)%Z →
  pretty t1 +:+ pretty c1 = pretty t2 +:+ pretty c2 → t1 = t2 ∧ c1 = c2.
Proof.
  intros Ht Hc Heq.
  pose proof (pretty_Z_length_mono t1 t2 Ht) as Lt.
  pose proof (pretty_Z_length_mono c1 c2 Hc) as Lc.
  pose proof (f_equal String.length Heq) as Hl.
  rewrite !string_app_length in Hl.
  apply string_app_inj_length in Heq as [E1 E2]; [| lia].
  by apply pretty_Z_inj in E1, E2.
Qed.

Section BrokerProperties.
Import Broker Requests.
Context `{!UuidSource}.
Implicit Types w : World Gateway.
Implicit Types g : Gateway.

Arguments stamp : simpl never.

#[local] Instance same_book_refl : Reflexive same_book.
Proof. intros g. unfold same_book. by destruct (client g). Qed.

#[local] Instance same_book_trans : Transitive same_book.
Proof.
  intros g1 g2 g3 (He & Ht & H12) (He' & Ht' & H23). unfold same_book.
  split; [congruence |]. split; [congruence |].
  destruct (client g1), (client g2), (client g3); try done.
  destruct H12 as [Hc H12], H23 as [Hc' H23]. split; [congruence |].
  intros oid. by rewrite H23, H12.
Qed.

Lemma status_same_book oid g : same_book g (client_get_order_status oid g).2.
Proof.
  unfold client_get_order_status, same_book, neo_order_status.
  destruct (client g) as [api |] eqn:Hc; simpl; [| by rewrite Hc].
  destruct (orders api !! oid) as [e |] eqn:He; simpl; rewrite ?Hc.
  - split; [done |]. split; [done |]. split; [done |].
    intros oid'. destruct (decide (oid' = oid)) as [-> |].
    + by rewrite lookup_insert_eq, He.
    + by rewrite lookup_insert_ne.
  - done.
Qed.

Lemma cancel_same_book oid g : same_book g (client_cancel_order oid g).2.
Proof.
  unfold client_cancel_order, same_book, neo_cancel_order.
  destruct (client g) as [api |] eqn:Hc; simpl; [| by rewrite Hc].
  destruct (orders api !! oid) as [e |] eqn:He; simpl; rewrite ?Hc.
  - split; [done |]. split; [done |]. split; [done |].
    intros oid'. destruct (decide (oid' = oid)) as [-> |].
    + by rewrite lookup_insert_eq, He.
    + by rewrite lookup_insert_ne.
  - done.
Qed.

(** What [place_order] does once there is a client. *)
Lemma place_order_accepted o g api :
  client g = Some api →
  client_place_order o g =
    (Some (stamp (clock (env g) (ticks g)) (order_counter api + 1)),
     mkGateway (env g) (S (ticks g)) (rolls g)
       (Some
          (mkNeoAPI
             (<[stamp (clock (env g) (ticks g)) (order_counter api + 1) :=
                  mkBookEntry
                    (stamp (clock (env g) (ticks g)) (order_counter api + 1))
                    "OPEN" (order_params o (neo_search_scrip (symbol o)))]>
                (orders api))
             (order_counter api + 1)))).
Proof. intros Hc. unfold client_place_order. by rewrite Hc. Qed.

(** X11.  Before [authenticate] has run, [place_order] and
    [get_order_status] answer [None] and [cancel_order] answers [False],
    and the gateway stays as it is; [execute_trade] then fails with
    "Failed to place market order" and changes neither the gateway nor
    the tasks, the heap or the executor. *)
Theorem unauthenticated_gateway_refuses sym sd qty entry slp tpp w :
  client (gateway w) = None →
  (∀ o, place_order o (gateway w) = (None, gateway w)) ∧
  (∀ oid, get_order_status oid (gateway w) = (None, gateway w)) ∧
  (∀ oid, cancel_order oid (gateway w) = (false, gateway w)) ∧
  ∃ res w',
    execute_trade sym sd qty entry slp tpp w = (res, w') ∧
    success res = false ∧
    message res = "Failed to place market order"%string ∧
    gateway w' = gateway w ∧ tasks w' = tasks w ∧ heap w' = heap w ∧
    executor w' = executor w.
Proof.
  intros Hc.
  assert (∀ o, place_order o (gateway w) = (None, gateway w)) as Hp.
  { intros o. simpl. unfold client_place_order. by rewrite Hc. }
  split; [done |].
  split; [intros oid; simpl; unfold client_get_order_status; by rewrite Hc |].
  split; [intros oid; simpl; unfold client_cancel_order; by rewrite Hc |].
  unfold execute_trade, new_Order, fresh_uuid, call_place_order, emit, bind,
    ret. flat. rewrite Hp. flat.
  eexists _, _. split; [reflexivity |]. by simpl.
Qed.

(** X12.  On the mock broker, once [authenticate] has run,
    [execute_trade] succeeds for every input: the three ids it returns
    are in the book of the broker, and the counter of the broker has
    gone up by three. *)
Theorem mock_broker_accepts_every_bracket sym sd qty entry slp tpp w res w' api :
  client (gateway w) = Some api →
  execute_trade sym sd qty entry slp tpp w = (res, w') →
  success res = true ∧ is_Some (r_trade_id res) ∧
  ∃ mid sid tid api',
    order_ids res = Some [mid; sid; tid] ∧
    client (gateway w') = Some api' ∧
    is_Some (orders api' !! mid) ∧ is_Some (orders api' !! sid) ∧
    is_Some (orders api' !! tid) ∧
    order_counter api' = order_counter api + 3.
Proof.
  intros Hc Hrun.
  pose proof (execute_trade_monitor _ _ _ _ _ _ _ _ _ Hrun) as Hmon.
  apply (@execute_trade_steps Gateway mock_client _ same_book _ _
           status_same_book cancel_same_book)
    in Hrun.
  simpl in Hrun.
  rewrite (place_order_accepted _ _ _ Hc) in Hrun. simpl in Hrun.
  destruct Hrun as (gs & (_ & _ & Hb) & Hrun). simpl in Hb.
  destruct (client gs) as [api2 |] eqn:Hc2; [| done].
  destruct Hb as [Hn Hb].
  rewrite (place_order_accepted _ _ _ Hc2) in Hrun. simpl in Hrun.
  destruct Hrun as [[Hs Hids] Hg].
  split; [done |].
  split; [destruct (r_trade_id res); [by eexists | by destruct Hmon; congruence] |].
  eexists _, _, _, _. split; [exact Hids |]. rewrite Hg. simpl.
  split; [reflexivity |]. simpl.
  specialize (Hb (stamp (clock (env (gateway w)) (ticks (gateway w)))
                    (order_counter api + 1))).
  rewrite lookup_insert_eq in Hb. simpl in Hb.
  split; [| split; [| split]].
  - apply lookup_insert_is_Some'. right. apply lookup_insert_is_Some'. right.
    destruct (orders api2 !! _); [by eexists | done].
  - apply lookup_insert_is_Some'; right. apply lookup_insert_is_Some'; by left.
  - apply lookup_insert_is_Some'; by left.
  - lia.
Qed.

(** *** The ids of the book *)

Lemma stamped_authenticate g : stamped (authenticate g).2.
Proof. unfold stamped. simpl. split; [done |]. intros oid e. by rewrite lookup_empty. Qed.

Lemma stamped_place o g : stamped g → stamped (client_place_order o g).2.
Proof.
  unfold stamped, client_place_order.
  destruct (client g) as [api |] eqn:Hc; simpl; [| by rewrite Hc].
  intros [Hn Hs]. split; [lia |]. intros oid e.
  rewrite lookup_insert_Some. intros [[<- _] | [_ Hin]].
  - exists (ticks g), (order_counter api + 1). split; [lia |]. split; [lia | done].
  - destruct (Hs _ _ Hin) as (k & c & Hk & Hc' & ->).
    exists k, c. split; [lia |]. split; [lia | done].
Qed.

Lemma stamped_same_book g g' : same_book g g' → stamped g → stamped g'.
Proof.
  unfold stamped, same_book. intros (He & Ht & Hb).
  destruct (client g) as [api |], (client g') as [api' |]; try done.
  destruct Hb as [Hn Hb]. intros [H0 Hs]. split; [lia |].
  intros oid e Hin. specialize (Hb oid). rewrite Hin in Hb. simpl in Hb.
  destruct (orders api !! oid) as [e0 |] eqn:Hin0; [| done].
  destruct (Hs _ _ Hin0) as (k & c & Hk & Hc' & ->).
  exists k, c. rewrite He, Ht, Hn. done.
Qed.

Lemma stamped_serve q g : stamped g → stamped (serve q g).
Proof.
  destruct q; simpl.
  - intros _. apply stamped_authenticate.
  - apply stamped_place.
  - apply stamped_same_book, status_same_book.
  - apply stamped_same_book, cancel_same_book.
Qed.

Lemma serve_env q g : env (serve q g) = env g.
Proof.
  destruct q; simpl; try done.
  - unfold client_place_order. by destruct (client g).
  - apply status_same_book.
  - apply cancel_same_book.
Qed.

Lemma serve_all_reachable qs e :
  stamped (serve_all qs (fresh e)) ∧ env (serve_all qs (fresh e)) = e.
Proof.
  unfold serve_all. induction qs as [| q qs IH] using rev_ind; [done |].
  rewrite foldl_app. simpl. destruct IH as [Hs He].
  split; [by apply stamped_serve | by rewrite serve_env].
Qed.

(** With a steady clock, the next id is not in the book. *)
Lemma next_stamp_is_fresh g api :
  steady (env g) → stamped g → client g = Some api →
  orders api !! stamp (clock (env g) (ticks g)) (order_counter api + 1) = None.
Proof.
  intros Hsteady Hs Hc. unfold stamped in Hs. rewrite Hc in Hs.
  destruct Hs as [Hn Hs].
  destruct (orders api !! _) as [e |] eqn:Hin; [| done]. exfalso.
  destruct (Hs _ _ Hin) as (k & c & Hk & Hc' & Heq).
  unfold stamp in Heq. injection Heq as Heq. symmetry in Heq.
  apply stamp_inj in Heq as [_ Heq]; [lia | | lia].
  apply Hsteady. lia.
Qed.


(** X14.  With such a clock, a bracket placed by [execute_trade] for a
    symbol of ASCII characters is in the book of the mock broker under
    three different ids, each leg with the upper-cased symbol followed
    by [_INSTR_TOKEN] as its instrument token: the entry
    leg as an [MKT] order at price 0, the stop-loss leg and the target
    leg both as [SL-M] orders of the opposite side, at the stop-loss
    price and at the target price; the orders that were in the book
    keep their ids and their parameters. *)
Theorem bracket_legs_are_booked sym sd qty entry slp tpp w res w' e qs api :
  ascii_only sym = true →
  steady e → gateway w = serve_all qs (fresh e) →
  client (gateway w) = Some api →
  execute_trade sym sd qty entry slp tpp w = (res, w') →
  ∃ mid sid tid api',
    order_ids res = Some [mid; sid; tid] ∧ NoDup [mid; sid; tid] ∧
    client (gateway w') = Some api' ∧
    b_details <$> (orders api' !! mid) =
      Some (mkOrderParams (str_upper sym +:+ "_INSTR_TOKEN") "MARKET" qty
              (TradeSide_value sd) "CNC" "DAY" (PriceInt 0) "MKT") ∧
    b_details <$> (orders api' !! sid) =
      Some (mkOrderParams (str_upper sym +:+ "_INSTR_TOKEN") "STOP_LOSS" qty
              (TradeSide_value (spec_exit_side sd)) "CNC" "DAY"
              (PriceFloat (Some (spec_stop_loss_price sd entry slp))) "SL-M") ∧
    b_details <$> (orders api' !! tid) =
      Some (mkOrderParams (str_upper sym +:+ "_INSTR_TOKEN") "TARGET" qty
              (TradeSide_value (spec_exit_side sd)) "CNC" "DAY"
              (PriceFloat (Some (spec_target_price sd entry tpp))) "SL-M") ∧
    (∀ old en, orders api !! old = Some en →
       (old ∉ [mid; sid; tid]) ∧
       b_details <$> (orders api' !! old) = Some (b_details en)).
Proof.
  intros _ Hsteady Hg Hc Hrun.
  destruct (serve_all_reachable qs e) as [Hst He]. rewrite <- Hg in Hst, He.
  apply (@execute_trade_steps Gateway mock_client _ same_book _ _
           status_same_book cancel_same_book)
    in Hrun.
  simpl in Hrun.
  rewrite (place_order_accepted _ _ _ Hc) in Hrun. simpl in Hrun.
  destruct Hrun as (gs & Hsb & Hrun).
  assert (steady (env (gateway w))) as Hsteadyw by (by rewrite He).
  pose proof (next_stamp_is_fresh _ _ Hsteadyw Hst Hc) as F1.
  pose proof (stamped_place (entry_leg (uuid_counter w) sym sd qty entry) _ Hst) as Hst1.
  unfold client_place_order in Hst1. rewrite Hc in Hst1. simpl in Hst1.
  pose proof (stamped_same_book _ _ Hsb Hst1) as Hsts.
  destruct Hsb as (Hes & Hts & Hb). simpl in Hes, Hts, Hb.
  destruct (client gs) as [api2 |] eqn:Hc2; [| done].
  destruct Hb as [Hn Hb].
  assert (steady (env gs)) as Hsteadys by (by rewrite Hes, He).
  pose proof (next_stamp_is_fresh gs api2 Hsteadys Hsts Hc2) as F2.
  pose proof (stamped_place (stop_loss_leg (uuid_counter w) sym sd qty entry slp) _ Hsts) as Hst2.
  rewrite (place_order_accepted _ _ _ Hc2) in Hrun, Hst2. simpl in Hrun, Hst2.
  match type of Hst2 with
  | stamped ?g2 =>
    assert (steady (env g2)) as Hsteady2 by (simpl; by rewrite Hes, He);
    pose proof (next_stamp_is_fresh g2 _ Hsteady2 Hst2 eq_refl) as F3
  end.
  simpl in F3.
  destruct Hrun as [[Hs Hids] Hgw].
  set (mid := stamp (clock (env (gateway w)) (ticks (gateway w))) (order_counter api + 1)) in *.
  set (sid := stamp (clock (env gs) (ticks gs)) (order_counter api2 + 1)) in *.
  set (tid := stamp (clock (env gs) (S (ticks gs))) (order_counter api2 + 1 + 1)) in *.
  assert (is_Some (orders api2 !! mid)) as Hmid2.
  { specialize (Hb mid). rewrite lookup_insert_eq in Hb.
    destruct (orders api2 !! mid); [by eexists | done]. }
  assert (mid ≠ sid) as N12.
  { intros Heq. rewrite <- Heq, eq_None_not_Some in F2. done. }
  assert (sid ≠ tid) as N23.
  { intros Heq. rewrite <- Heq, lookup_insert_eq in F3. done. }
  assert (mid ≠ tid) as N13.
  { intros Heq. rewrite <- Heq, lookup_insert_ne in F3 by done.
    rewrite eq_None_not_Some in F3. done. }
  exists mid, sid, tid. eexists. split; [exact Hids |].
  split.
  { rewrite !NoDup_cons, !not_elem_of_cons.
    repeat split; auto using not_elem_of_nil, NoDup_nil_2. }
  rewrite Hgw. simpl. split; [reflexivity |]. simpl.
  split; [| split; [| split]].
  - rewrite !lookup_insert_ne by done. specialize (Hb mid).
    by rewrite lookup_insert_eq in Hb.
  - rewrite lookup_insert_ne, lookup_insert_eq by done. simpl.
    unfold order_params, stop_loss_leg. simpl.
    destruct sd; simpl; by destruct (PrimFloat.eqb _ _).
  - rewrite lookup_insert_eq. simpl.
    unfold order_params, target_leg. simpl.
    destruct sd; simpl; by destruct (PrimFloat.eqb _ _).
  - intros old en Hin.
    assert (old ≠ mid) as O1 by (intros ->; congruence).
    assert (b_details <$> (orders api2 !! old) = Some (b_details en)) as Hin2.
    { specialize (Hb old). rewrite lookup_insert_ne in Hb by done.
      by rewrite Hb, Hin. }
    assert (old ≠ sid) as O2.
    { intros ->. by rewrite F2 in Hin2. }
    assert (old ≠ tid) as O3.
    { intros ->. rewrite lookup_insert_ne in F3 by done.
      by rewrite F3 in Hin2. }
    split; [| by rewrite !lookup_insert_ne].
    rewrite !not_elem_of_cons. repeat split; auto using not_elem_of_nil.
Qed.

(** X15.  The mock broker cancels an order that it knows and marks it
    [CANCELLED]; but the next [get_order_status] of that order (of
    non-negative quantity) draws its status afresh, one of [OPEN],
    [PARTIAL] and [COMPLETE], reports it and stores it over the
    [CANCELLED]. *)
Theorem cancelled_order_is_drawn_again oid g api en :
  client g = Some api → orders api !! oid = Some en →
  0 ≤ p_quantity (b_details en) →
  ∃ g1 g2 info api2 en2,
    cancel_order oid g = (true, g1) ∧
    (b_status <$> (client g1 ≫= λ a, orders a !! oid)) = Some "CANCELLED"%string ∧
    get_order_status oid g1 = (Some info, g2) ∧
    os_status info = Some (choice (dice (env g) (rolls g))) ∧
    os_status info ∈ (Some <$> possible_statuses) ∧
    client g2 = Some api2 ∧ orders api2 !! oid = Some en2 ∧
    Some (b_status en2) = os_status info ∧
    b_details en2 = b_details en.
Proof.
  intros Hc Hin Hq. simpl.
  unfold client_cancel_order, neo_cancel_order. rewrite Hc, Hin.
  eexists _, _, _, _, _. split; [reflexivity |]. simpl.
  rewrite lookup_insert_eq. split; [reflexivity |].
  unfold client_get_order_status, neo_order_status, randint_upto. simpl.
  rewrite lookup_insert_eq. simpl.
  destruct (p_quantity (b_details en) <? 0) eqn:Hneg; [lia |]. simpl.
  split; [reflexivity |]. simpl. split; [reflexivity |].
  split.
  { unfold choice, possible_statuses. rewrite !elem_of_cons.
    pose proof (Nat.mod_upper_bound (d_choice (dice (env g) (rolls g))) 3) as Hm.
    destruct (d_choice (dice (env g) (rolls g)) mod 3)%nat as [| [| [| n]]];
      simpl; [auto .. | lia]. }
  split; [reflexivity |]. simpl. rewrite lookup_insert_eq.
  split; [reflexivity |]. done.
Qed.

Lemma unknown_order_status oid g api :
  client g = Some api → orders api !! oid = None →
  client_get_order_status oid g
  = (Some (mkOrderStatusInfo oid (Some "NOT_FOUND"%string) 0 None 0), g).
Proof.
  intros Hc Hin. unfold client_get_order_status, neo_order_status.
  rewrite Hc, Hin. simpl. by destruct g; simpl in *; subst.
Qed.

(** X17.  For an id that is not in its book the mock broker reports
    the status [NOT_FOUND], which is neither absent nor Terminal-Filled.
    A monitor whose two exit legs are unknown to the broker (as after a
    second [authenticate], which starts a new book) therefore polls on:
    any number of passes leaves the gateway, the trade and the task as
    they were. *)
Theorem unknown_order_ids_are_polled_on n h r w t trade api :
  tasks w !! h = Some t →
  coro t = monitor_oco_orders r → done t = false → must_cancel t = false →
  heap w !! r = Some trade → active trade = true →
  client (gateway w) = Some api →
  orders api !! order_id (stop_loss_order trade) = None →
  orders api !! order_id (target_order trade) = None →
  ∃ w',
    run_each step_task (replicate n h) w = (tt, w') ∧
    gateway w' = gateway w ∧ heap w' = heap w ∧ tasks w' = tasks w ∧
    executor w' = executor w ∧ manager w' = manager w ∧
    trace w' =
      trace w ++
      concat (replicate n (absent_pass h (order_id (stop_loss_order trade))
                             (order_id (target_order trade)))).
Proof.
  intros Ht Hc Hd Hm Hr Ha Hcl Hsl Htg. revert w Ht Hr Hcl.
  induction n as [| n IH]; intros w Ht Hr Hcl.
  - exists w. by rewrite app_nil_r.
  - pose proof (step_task_unfilled h r w t trade _ _ _ _ Ht Hc Hd Hm Hr Ha
                  (unknown_order_status _ _ _ Hcl Hsl)
                  (unknown_order_status _ _ _ Hcl Htg) eq_refl eq_refl)
      as Hstep.
    set (w1 := with_gateway (gateway w) _) in Hstep.
    destruct (IH w1 Ht Hr Hcl) as (w' & Hrun & Hg & Hh & Hk & He & Hma & Htr).
    exists w'. simpl. unfold bind. rewrite Hstep, Hrun.
    split; [done |]. rewrite Hg, Hh, Hk, He, Hma, Htr. subst w1. flat.
    by rewrite <- app_assoc.
Qed.

(** X16.  On the mock broker an order that was placed can be
    cancelled, and cancelled again, with the answer [True] each time.
    For an id that is not in the book [cancel_order] answers [False]
    and [get_order_status] answers the status [NOT_FOUND] (neither
    Terminal-Filled nor Still-Live), and neither changes the gateway. *)
Theorem cancel_order_knows_its_orders :
  (∀ o g api,
     client g = Some api →
     ∃ oid g1 g2,
       place_order o g = (Some oid, g1) ∧
       cancel_order oid g1 = (true, g2) ∧
       cancel_order oid g2 = (true, g2)) ∧
  (∀ oid g api,
     client g = Some api → orders api !! oid = None →
     cancel_order oid g = (false, g) ∧
     ∃ info,
       get_order_status oid g = (Some info, g) ∧
       os_status info = Some "NOT_FOUND"%string ∧
       terminal_filled (os_status info) = false ∧
       still_live (os_status info) = false).
Proof.
  split.
  - intros o g api Hc. simpl. rewrite (place_order_accepted _ _ _ Hc).
    eexists _, _, _. split; [reflexivity |].
    unfold client_cancel_order, neo_cancel_order. simpl.
    rewrite lookup_insert_eq. split; [reflexivity |]. simpl.
    rewrite lookup_insert_eq. simpl. by rewrite insert_insert_eq.
  - intros oid g api Hc Hin. simpl.
    unfold client_cancel_order, neo_cancel_order, client_get_order_status,
      neo_order_status.
    rewrite Hc, Hin. simpl.
    split; [by destruct g; simpl in *; subst |].
    eexists. split; [by destruct g; simpl in *; subst |]. done.
Qed.

End BrokerProperties.



(** * The engine on concrete inputs *)

Import Scripted.

(** A fact about a concrete run follows from a theorem by evaluation. *)
Ltac evaluated H := vm_compute in H; vm_compute; exact H.

(** The first hypothesis of [H] holds by evaluation (or by [tac] once
    evaluated). *)
Ltac discharge_with H tac :=
  lazymatch type of H with
  | ?A → _ =>
    let Hyp := fresh in
    assert (Hyp : A) by (vm_compute; tac); specialize (H Hyp); clear Hyp
  end.

Ltac discharge H := discharge_with H ltac:(reflexivity).


(** Scenario 1: Buy 10 XYZ at 100 with stop-loss 5 and target 10 places
    the entry, a Sell stop-loss at 95 and a Sell target at 110. *)
Lemma execute_trade_legs_witness :
  success (submit accepting).1 = true ∧
  order_type <$> placed (new_events (start accepting []) (submit accepting).2)
    = [MARKET; STOP_LOSS; TARGET] ∧
  ∃ r t,
    heap (submit accepting).2 !! r = Some t ∧
    r_trade_id (submit accepting).1 = Some (trade_id t) ∧
    active t = true ∧ t_side t = BUY ∧
    side (market_order t) = BUY ∧
    side (stop_loss_order t) = SELL ∧
    trigger_price (stop_loss_order t) = Some 95%float ∧
    side (target_order t) = SELL ∧
    trigger_price (target_order t) = Some 110%float ∧
    Some (order_id <$> [market_order t; stop_loss_order t; target_order t])
      = order_ids (submit accepting).1.
Proof.
  pose proof (execute_trade_legs "XYZ" BUY 10 100%float 5%float 10%float
                (start accepting []) (submit accepting).1 (submit accepting).2)
    as H.
  discharge H. destruct H as (_ & _ & H).
  assert (success (submit accepting).1 = true) as Hs
    by (vm_compute; reflexivity).
  split; [exact Hs |]. specialize (H Hs). clear Hs.
  evaluated H.
Defined.

(** Scenario 2: the gateway returns no id for the entry leg. *)
Lemma execute_trade_entry_refused_witness :
  truthy_id
    (place_order
       (mkOrder "uuid-0" "XYZ" MARKET BUY 10 (Some 100%float) None PENDING 0
          None)
       refusing).1 = None ∧
  ∃ res w',
    submit refusing = (res, w') ∧
    success res = false ∧ r_trade_id res = None ∧
    new_events (start refusing []) w'
      = [(MainCoroutine,
          EvPlaceOrder
            (mkOrder "uuid-0" "XYZ" MARKET BUY 10 (Some 100%float) None
               PENDING 0 None))] ∧
    placed (new_events (start refusing []) w')
      = [mkOrder "uuid-0" "XYZ" MARKET BUY 10 (Some 100%float) None PENDING 0
           None] ∧
    tasks w' = tasks (start refusing []) ∧
    executor w' = executor (start refusing []) ∧
    heap w' = heap (start refusing []) ∧
    manager w' = manager (start refusing []) ∧
    next_handle w' = next_handle (start refusing []).
Proof.
  split; [vm_compute; reflexivity |].
  pose proof (execute_trade_entry_refused "XYZ" BUY 10 100%float 5%float
                10%float (start refusing [])) as H.
  cbv zeta in H. discharge H. evaluated H.
Defined.

(** Both exit legs report FILLED in the same pass: the stop-loss branch
    is taken, and [cancel_order] is called for no leg, so the target leg
    is not cancelled through the gateway. *)
Lemma tie_break_counterexample :
  ∃ trade sl tg g1 g2,
    heap (submit both_filled).2 !! 0%nat = Some trade ∧ active trade = true ∧
    get_order_status (order_id (stop_loss_order trade))
      (gateway (submit both_filled).2) = (Some sl, g1) ∧
    get_order_status (order_id (target_order trade)) g1 = (Some tg, g2) ∧
    terminal_filled (os_status sl) = true ∧
    terminal_filled (os_status tg) = true ∧
    (monitor_iteration 0 (submit both_filled).2).1 = StopLossFilled ∧
    order_id (target_order trade)
      ∉ cancels (new_events (submit both_filled).2
                   (monitor_iteration 0 (submit both_filled).2).2).
Proof.
  eexists _, _, _, _, _.
  do 7 (split; [vm_compute; reflexivity |]).
  vm_compute. intros H. inversion H.
Qed.

Lemma tie_break_stop_loss_wins_witness :
  ∃ trade sl tg g1 g2,
    heap (submit both_filled).2 !! 0%nat = Some trade ∧ active trade = true ∧
    get_order_status (order_id (stop_loss_order trade))
      (gateway (submit both_filled).2) = (Some sl, g1) ∧
    get_order_status (order_id (target_order trade)) g1 = (Some tg, g2) ∧
    terminal_filled (os_status sl) = true ∧
    terminal_filled (os_status tg) = true ∧
    ∃ w',
      monitor_iteration 0 (submit both_filled).2 = (StopLossFilled, w') ∧
      suspends StopLossFilled = false ∧
      new_events (submit both_filled).2 w' =
        [(running (submit both_filled).2,
          EvGetOrderStatus (order_id (stop_loss_order trade)));
         (running (submit both_filled).2,
          EvGetOrderStatus (order_id (target_order trade)))] ∧
      cancels (new_events (submit both_filled).2 w') = [] ∧
      heap w' !! 0%nat = Some (set_active false trade).
Proof.
  epose proof (tie_break_stop_loss_wins 0 (submit both_filled).2 _ _ _ _ _)
    as H.
  do 6 (discharge H).
  eexists _, _, _, _, _.
  do 6 (split; [vm_compute; reflexivity |]).
  evaluated H.
Defined.



(** Two passes in a row of the monitor of scenario 1 get no data: the
    monitor is still there, and so is the trade. *)
Lemma absent_status_is_retried_witness :
  ∃ t trade,
    tasks (submit accepting).2 !! 1%nat = Some t ∧
    coro t = monitor_oco_orders 0 ∧ done t = false ∧ must_cancel t = false ∧
    heap (submit accepting).2 !! 0%nat = Some trade ∧ active trade = true ∧
    absent_polls 2 (order_id (stop_loss_order trade))
      (order_id (target_order trade)) (gateway (submit accepting).2) ∧
    ∃ w',
      run_each step_task [1%nat; 1%nat] (submit accepting).2 = (tt, w') ∧
      heap w' = heap (submit accepting).2 ∧
      tasks w' = tasks (submit accepting).2 ∧
      executor w' = executor (submit accepting).2 ∧
      manager w' = manager (submit accepting).2 ∧
      trace w' =
        trace (submit accepting).2 ++
        concat (replicate 2 (absent_pass 1 (order_id (stop_loss_order trade))
                               (order_id (target_order trade)))) ∧
      cancels (new_events (submit accepting).2 w') = [].
Proof.
  epose proof (absent_status_is_retried 2 1 0 (submit accepting).2 _ _) as H.
  do 6 (discharge H).
  discharge_with H ltac:(repeat split; auto).
  eexists _, _. do 6 (split; [vm_compute; reflexivity |]).
  split; [vm_compute; repeat split; auto |].
  destruct H as (w' & H). exists w'. evaluated H.
Defined.

(** Cancelling the second of three registered trades, twice. *)
Lemma cancel_trade_idempotent_witness :
  ∃ w1 w2,
    cancel_trade "uuid-7" three_registered = (Some true, w1) ∧
    active_trades (manager w1) = [("uuid-3", 0%nat); ("uuid-11", 4%nat)] ∧
    cancel_trade "uuid-7" w1 = (Some true, w2) ∧
    active_trades (manager w2) = [("uuid-3", 0%nat); ("uuid-11", 4%nat)].
Proof.
  destruct (cancel_trade_idempotent "uuid-7" three_registered)
    as (w1 & Hrun & Hreg & _ & w2 & Hrun' & Hreg').
  exists w1, w2. rewrite Hreg', Hreg.
  split; [exact Hrun |]. split; [vm_compute; reflexivity |].
  split; [exact Hrun' |]. vm_compute; reflexivity.
Defined.


(** [execute_new_trade] makes its suspending calls with the trade lock
    held, and [start_ltp_stream_for_symbol] waits for the stream that it
    replaces with the stream lock held. *)
Lemma lock_held_while_waiting_counterexample :
  running registered = MainCoroutine ∧
  suspends_under_lock
    (main_events
       (new_events registered
          (execute_new_trade "XYZ" BUY 10 100%float 5%float 10%float
             registered).2)) = true ∧
  occurs_under_lock (λ e, match e with EvSleep _ => true | _ => false end) []
    (main_events
       (new_events registered
          (execute_new_trade "XYZ" BUY 10 100%float 5%float 10%float
             registered).2)) = true ∧
  suspends_under_lock
    (main_events
       (new_events registered (start_ltp_stream_for_symbol "XYZ" registered).2))
    = true.
Proof.
  do 3 (split; [vm_compute; reflexivity |]). vm_compute. reflexivity.
Qed.

Lemma lock_scope_witness :
  running registered = MainCoroutine ∧
  suspends_under_lock
    (main_events (new_events registered (cancel_trade "uuid-3" registered).2))
    = false ∧
  suspends_under_lock
    (main_events (new_events registered (cancel_all_trades registered).2))
    = false ∧
  suspends_under_lock
    (main_events
       (new_events registered
          (execute_new_trade "XYZ" BUY 10 100%float 5%float 10%float
             registered).2)) = true ∧
  suspends_under_lock
    (main_events
       (new_events registered (start_ltp_stream_for_symbol "XYZ" registered).2))
    = true ∧
  suspends_under_lock
    (main_events
       (new_events registered (start_ltp_stream_for_symbol "ABC" registered).2))
    = false ∧
  suspends_under_lock
    (main_events (new_events registered (cleanup registered).2)) = true.
Proof.
  assert (Hmain : running registered = MainCoroutine)
    by (vm_compute; reflexivity).
  split; [exact Hmain |].
  destruct (lock_scope registered Hmain)
    as (_ & _ & _ & _ & _ & Hc & Hall & Hnew & Hstart & _ & _ & Hclean).
  split; [apply Hc |]. split; [exact Hall |].
  split.
  { destruct (Hnew "XYZ" BUY 10 100%float 5%float 10%float)
      as (mo & evs & _ & _ & H). exact H. }
  split; [rewrite Hstart; vm_compute; reflexivity |].
  split; [rewrite Hstart; vm_compute; reflexivity |].
  rewrite Hclean. vm_compute. reflexivity.
Defined.

(** Three brackets, ended by resolution, by cancellation and by
    resolution after an empty pass, leave the maps of the executor
    empty; each cleanup ran once. *)
Lemma monitor_cleanup_reclaims_witness :
  active_orders (executor (start three_brackets [])) = ∅ ∧
  trade_locks (executor (start three_brackets [])) = ∅ ∧
  (cycles three_cycles (start three_brackets [])).1 = true ∧
  active_orders (executor (cycles three_cycles (start three_brackets [])).2)
    = ∅ ∧
  trade_locks (executor (cycles three_cycles (start three_brackets [])).2)
    = ∅.
Proof.
  pose proof (proj2 (proj2 (proj2 (monitor_cleanup_reclaims (GW := Script))))
                three_cycles (start three_brackets [])
                (cycles three_cycles (start three_brackets [])).2) as H.
  assert (H1 : active_orders (executor (start three_brackets [])) = ∅)
    by (vm_compute; reflexivity).
  assert (H2 : trade_locks (executor (start three_brackets [])) = ∅)
    by (vm_compute; reflexivity).
  assert (H3 : (cycles three_cycles (start three_brackets [])).1 = true)
    by (vm_compute; reflexivity).
  specialize (H H1 H2). discharge H.
  split; [exact H1 |]. split; [exact H2 |]. split; [exact H3 |]. exact H.
Defined.

(** With one trade registered, a new bracket submitted through the
    manager succeeds and the registry still holds that one trade. *)
Lemma execute_new_trade_registers_nothing_witness :
  success
    (execute_new_trade "XYZ" BUY 10 100%float 5%float 10%float registered).1
    = true ∧
  active_trades (manager registered) = [("uuid-3", 0%nat)] ∧
  active_trades
    (manager
       (execute_new_trade "XYZ" BUY 10 100%float 5%float 10%float
          registered).2) = [("uuid-3", 0%nat)] ∧
  (get_active_trades_count
     (execute_new_trade "XYZ" BUY 10 100%float 5%float 10%float
        registered).2).1 = 1%nat.
Proof.
  pose proof (execute_new_trade_registers_nothing
                "XYZ" BUY 10 100%float 5%float 10%float registered
                (execute_new_trade "XYZ" BUY 10 100%float 5%float 10%float
                   registered).1
                (execute_new_trade "XYZ" BUY 10 100%float 5%float 10%float
                   registered).2) as H.
  discharge H. destruct H as (Hreg & Hcount & _).
  split; [vm_compute; reflexivity |].
  split; [vm_compute; reflexivity |].
  split; [evaluated Hreg | evaluated Hcount].
Defined.

(** ** More scenarios *)

Import Scenarios.

Lemma refused_exit_leg_leaves_entry_placed_witness :
  running (start stop_refused []) = MainCoroutine ∧
  success (submit stop_refused).1 = false ∧
  message (submit stop_refused).1 = "Failed to place stop loss order"%string ∧
  r_trade_id (submit stop_refused).1 = None ∧
  order_ids (submit stop_refused).1 = None ∧
  next_handle (submit stop_refused).2 = next_handle (start stop_refused []) ∧
  length (main_events (new_events (start stop_refused [])
                         (submit stop_refused).2)) = 3%nat.
Proof.
  pose proof (refused_exit_leg_leaves_entry_placed
                "XYZ" BUY 10 100%float 5%float 10%float
                (start stop_refused []) (submit stop_refused).1
                (submit stop_refused).2) as H.
  assert (running (start stop_refused []) = MainCoroutine) as Hm
    by (vm_compute; reflexivity).
  assert (success (submit stop_refused).1 = false) as Hs
    by (vm_compute; reflexivity).
  specialize (H Hm). discharge H. specialize (H Hs).
  destruct H as (Hid & Hoids & Hh & _).
  split; [exact Hm |]. split; [exact Hs |].
  split; [vm_compute; reflexivity |].
  split; [exact Hid |]. split; [exact Hoids |]. split; [exact Hh |].
  vm_compute. reflexivity.
Defined.

Lemma stop_loss_fill_resolves_witness :
  ∃ t trade sl tg g1 g2,
    tasks (submit three_brackets).2 !! 1%nat = Some t ∧
    coro t = monitor_oco_orders 0 ∧ done t = false ∧ must_cancel t = false ∧
    heap (submit three_brackets).2 !! 0%nat = Some trade ∧
    active trade = true ∧
    get_order_status (order_id (stop_loss_order trade))
      (gateway (submit three_brackets).2) = (Some sl, g1) ∧
    get_order_status (order_id (target_order trade)) g1 = (Some tg, g2) ∧
    terminal_filled (os_status sl) = true ∧
    still_live (os_status tg) = true ∧
    ∃ w',
      step_task 1 (submit three_brackets).2 = (tt, w') ∧
      cancels (new_events (submit three_brackets).2 w') = ["T1"%string] ∧
      heap w' !! 0%nat = Some (set_active false trade) ∧
      tasks w' !! 1%nat = Some (finish false t).
Proof.
  epose proof (stop_loss_fill_resolves 1 0 (submit three_brackets).2 _ _ _ _ _ _)
    as H.
  do 9 (discharge H).
  destruct H as (w' & Hstep & Htr & _ & Hh & Ht & _).
  eexists _, _, _, _, _, _.
  do 10 (split; [vm_compute; reflexivity |]).
  exists w'. split; [exact Hstep |].
  split; [unfold new_events; rewrite Htr; vm_compute; reflexivity |].
  split; [rewrite Hh; vm_compute; reflexivity |].
  rewrite Ht. vm_compute. reflexivity.
Defined.

Lemma target_fill_resolves_witness :
  ∃ t trade sl tg g1 g2,
    tasks (submit target_hit).2 !! 1%nat = Some t ∧
    coro t = monitor_oco_orders 0 ∧ done t = false ∧ must_cancel t = false ∧
    heap (submit target_hit).2 !! 0%nat = Some trade ∧
    active trade = true ∧
    get_order_status (order_id (stop_loss_order trade))
      (gateway (submit target_hit).2) = (Some sl, g1) ∧
    get_order_status (order_id (target_order trade)) g1 = (Some tg, g2) ∧
    terminal_filled (os_status sl) = false ∧
    terminal_filled (os_status tg) = true ∧
    still_live (os_status sl) = true ∧
    (cancel_order (order_id (stop_loss_order trade)) g2).1 = false ∧
    ∃ w',
      step_task 1 (submit target_hit).2 = (tt, w') ∧
      cancels (new_events (submit target_hit).2 w') = ["S1"%string] ∧
      heap w' !! 0%nat = Some (set_active false trade) ∧
      tasks w' !! 1%nat = Some (finish false t).
Proof.
  epose proof (target_fill_resolves 1 0 (submit target_hit).2 _ _ _ _ _ _) as H.
  do 10 (discharge H).
  destruct H as (w' & Hstep & Htr & _ & Hh & Ht & _).
  eexists _, _, _, _, _, _.
  do 12 (split; [vm_compute; reflexivity |]).
  exists w'. split; [exact Hstep |].
  split; [unfold new_events; rewrite Htr; vm_compute; reflexivity |].
  split; [rewrite Hh; vm_compute; reflexivity |].
  rewrite Ht. vm_compute. reflexivity.
Defined.

Lemma unfilled_legs_are_polled_on_witness :
  ∃ t trade,
    tasks (submit dead_legs).2 !! 1%nat = Some t ∧
    coro t = monitor_oco_orders 0 ∧ done t = false ∧ must_cancel t = false ∧
    heap (submit dead_legs).2 !! 0%nat = Some trade ∧ active trade = true ∧
    unfilled_polls 2 (order_id (stop_loss_order trade))
      (order_id (target_order trade)) (gateway (submit dead_legs).2) ∧
    ∃ w',
      run_each step_task [1%nat; 1%nat] (submit dead_legs).2 = (tt, w') ∧
      heap w' = heap (submit dead_legs).2 ∧
      tasks w' = tasks (submit dead_legs).2 ∧
      cancels (new_events (submit dead_legs).2 w') = [].
Proof.
  epose proof (unfilled_legs_are_polled_on 2 1 0 (submit dead_legs).2 _ _) as H.
  do 6 (discharge H).
  assert (∀ P Q : Prop, P → Q → P ∧ Q) as conj' by auto.
  discharge_with H
    ltac:(repeat (first [apply conj' | eexists _, _ | exact I | reflexivity])).
  destruct H as (w' & Hrun & Hh & Hk & _ & _ & Htr).
  eexists _, _. do 6 (split; [vm_compute; reflexivity |]).
  split.
  { vm_compute.
    repeat (first [apply conj' | eexists _, _ | exact I | reflexivity]). }
  exists w'. split; [exact Hrun |]. split; [exact Hh |]. split; [exact Hk |].
  unfold new_events. rewrite Htr. vm_compute. reflexivity.
Defined.

Lemma get_trade_status_lags_resolution_witness :
  ∃ t trade i w1,
    active_orders (executor (submit three_brackets).2) !! trade_id trade
      = Some 1%nat ∧
    tasks (submit three_brackets).2 !! 1%nat = Some t ∧
    coro t = monitor_oco_orders 0 ∧ done t = false ∧ must_cancel t = false ∧
    done_callbacks t = [trade_id trade] ∧
    heap (submit three_brackets).2 !! 0%nat = Some trade ∧
    active trade = true ∧
    monitor_iteration 0 (with_running (InTask 1) (submit three_brackets).2)
      = (i, w1) ∧
    i = StopLossFilled ∧
    ∃ w' w'',
      step_task 1 (submit three_brackets).2 = (tt, w') ∧
      heap w' !! 0%nat = Some (set_active false trade) ∧
      (get_trade_status (trade_id trade) w').1
        = Some (trade_id trade, true, "MONITORING"%string) ∧
      run_callbacks 1 w' = (tt, w'') ∧
      heap w'' !! 0%nat = Some (set_active false trade) ∧
      (get_trade_status (trade_id trade) w'').1 = None.
Proof.
  epose proof (get_trade_status_lags_resolution 1 0 (submit three_brackets).2
                 _ _ _ _) as H.
  lazymatch type of H with
  | _ → ?B → _ =>
    assert (B) as Ht by (vm_compute; reflexivity)
  end.
  lazymatch type of H with
  | _ → _ → _ → _ → _ → _ → ?B → _ =>
    assert (B) as Hr by (vm_compute; reflexivity)
  end.
  lazymatch type of H with
  | ?A → _ => assert (A) as Hao by (vm_compute; reflexivity)
  end.
  specialize (H Hao Ht). do 4 (discharge H). specialize (H Hr).
  do 2 (discharge H). discharge_with H ltac:(left; reflexivity).
  eexists _, _, _, _.
  split; [exact Hao |]. split; [exact Ht |].
  do 4 (split; [vm_compute; reflexivity |]).
  split; [exact Hr |].
  do 3 (split; [vm_compute; reflexivity |]).
  exact H.
Defined.


Lemma cleanup_empties_both_registries_witness :
  running registered = MainCoroutine ∧
  dict_keys (active_trades (manager registered)) = ["uuid-3"%string] ∧
  dict_keys (ltp_streams (manager registered)) = ["XYZ"%string] ∧
  ∃ w',
    cleanup registered = (Some tt, w') ∧
    active_trades (manager w') = [] ∧ ltp_streams (manager w') = [] ∧
    offline (main_events (new_events registered w')).
Proof.
  assert (running registered = MainCoroutine) as Hm
    by (vm_compute; reflexivity).
  split; [exact Hm |]. do 2 (split; [vm_compute; reflexivity |]).
  exact (cleanup_empties_both_registries registered Hm).
Defined.

Lemma unregistered_monitor_survives_cleanup_witness :
  active_trades (manager (start accepting [])) = [] ∧
  ltp_streams (manager (start accepting [])) = [] ∧
  execute_new_trade "XYZ" BUY 10 100%float 5%float 10%float
    (start accepting [])
  = ((execute_new_trade "XYZ" BUY 10 100%float 5%float 10%float
        (start accepting [])).1, monitored) ∧
  r_trade_id
    (execute_new_trade "XYZ" BUY 10 100%float 5%float 10%float
       (start accepting [])).1 = Some "uuid-3"%string ∧
  ∃ w2 h r trade,
    cleanup monitored = (Some tt, w2) ∧
    active_orders (executor w2) !! "uuid-3"%string = Some h ∧
    tasks w2 !! h
      = Some (mkTask (monitor_oco_orders r) false false false
                ["uuid-3"%string]) ∧
    heap w2 !! r = Some trade ∧ trade_id trade = "uuid-3"%string ∧
    active trade = true ∧
    gateway w2 = gateway monitored ∧
    new_events monitored w2 =
      [(running monitored, EvAcquire trade_lock);
       (running monitored, EvRelease trade_lock);
       (running monitored, EvAcquire stream_lock);
       (running monitored, EvRelease stream_lock)].
Proof.
  pose proof (unregistered_monitor_survives_cleanup
                "XYZ" BUY 10 100%float 5%float 10%float (start accepting [])
                (execute_new_trade "XYZ" BUY 10 100%float 5%float 10%float
                   (start accepting [])).1
                monitored "uuid-3") as H.
  do 4 (discharge H).
  do 4 (split; [vm_compute; reflexivity |]).
  exact H.
Defined.

Lemma registry_add_then_remove_witness :
  ∃ t,
    heap monitored !! 0%nat = Some t ∧
    dict_get (trade_id t)
      (active_trades (manager (add_active_trade 0 monitored).2)) = Some 0%nat ∧
    (get_active_trades_count (add_active_trade 0 monitored).2).1 = 1%nat ∧
    active_trades
      (manager (add_active_trade 0 (add_active_trade 0 monitored).2).2)
      = [("uuid-3"%string, 0%nat)] ∧
    active_trades
      (manager
         (remove_active_trade (trade_id t) (add_active_trade 0 monitored).2).2)
      = [].
Proof.
  epose proof (registry_add_then_remove 0 _ monitored) as H.
  discharge H. destruct H as (H1 & H2 & H3 & H4).
  eexists. split; [vm_compute; reflexivity |].
  split; [exact H1 |]. split; [evaluated H2 |].
  split; [rewrite H3; vm_compute; reflexivity |].
  rewrite H4. vm_compute. reflexivity.
Defined.

(** ** Scenarios on the mock broker *)

Import Broker Requests Desk.

Lemma env0_steady : steady env0.
Proof. intros j k Hjk. simpl. lia. Qed.

Lemma unauthenticated_gateway_refuses_witness :
  client (gateway (desk (fresh env0))) = None ∧
  ∃ res w',
    execute_trade "XYZ" BUY 10 100%float 5%float 10%float (desk (fresh env0))
      = (res, w') ∧
    success res = false ∧
    message res = "Failed to place market order"%string ∧
    gateway w' = gateway (desk (fresh env0)) ∧
    tasks w' = tasks (desk (fresh env0)) ∧
    heap w' = heap (desk (fresh env0)) ∧
    executor w' = executor (desk (fresh env0)).
Proof.
  split; [reflexivity |].
  exact (proj2 (proj2 (proj2
           (unauthenticated_gateway_refuses
              "XYZ" BUY 10 100%float 5%float 10%float (desk (fresh env0))
              eq_refl)))).
Defined.

Lemma mock_broker_accepts_every_bracket_witness :
  client (gateway (desk logged_in)) = Some new_NeoAPI ∧
  success
    (execute_trade "XYZ" BUY 10 100%float 5%float 10%float (desk logged_in)).1
    = true ∧
  order_ids
    (execute_trade "XYZ" BUY 10 100%float 5%float 10%float (desk logged_in)).1
    = Some ["MKT17000000021000001"; "MKT17000000031000002";
            "MKT17000000041000003"]%string.
Proof.
  pose proof (mock_broker_accepts_every_bracket
                "XYZ" BUY 10 100%float 5%float 10%float (desk logged_in)
                (execute_trade "XYZ" BUY 10 100%float 5%float 10%float
                   (desk logged_in)).1
                (execute_trade "XYZ" BUY 10 100%float 5%float 10%float
                   (desk logged_in)).2
                new_NeoAPI) as H.
  do 2 (discharge H). destruct H as (Hs & _).
  split; [vm_compute; reflexivity |]. split; [exact Hs |].
  vm_compute. reflexivity.
Defined.


Lemma bracket_legs_are_booked_witness :
  ascii_only "xyz" = true ∧
  steady env0 ∧
  gateway (desk logged_in) = serve_all [Login] (fresh env0) ∧
  client (gateway (desk logged_in)) = Some new_NeoAPI ∧
  ∃ api',
    order_ids
      (execute_trade "xyz" BUY 10 100%float 5%float 10%float (desk logged_in)).1
      = Some ["MKT17000000021000001"; "MKT17000000031000002";
              "MKT17000000041000003"]%string ∧
    client
      (gateway
         (execute_trade "xyz" BUY 10 100%float 5%float 10%float
            (desk logged_in)).2) = Some api' ∧
    b_details <$> (orders api' !! "MKT17000000021000001"%string) =
      Some (mkOrderParams "XYZ_INSTR_TOKEN" "MARKET" 10 "BUY" "CNC" "DAY"
              (PriceInt 0) "MKT") ∧
    b_details <$> (orders api' !! "MKT17000000031000002"%string) =
      Some (mkOrderParams "XYZ_INSTR_TOKEN" "STOP_LOSS" 10 "SELL" "CNC" "DAY"
              (PriceFloat (Some 95%float)) "SL-M") ∧
    b_details <$> (orders api' !! "MKT17000000041000003"%string) =
      Some (mkOrderParams "XYZ_INSTR_TOKEN" "TARGET" 10 "SELL" "CNC" "DAY"
              (PriceFloat (Some 110%float)) "SL-M").
Proof.
  pose proof (bracket_legs_are_booked
                "xyz" BUY 10 100%float 5%float 10%float (desk logged_in)
                (execute_trade "xyz" BUY 10 100%float 5%float 10%float
                   (desk logged_in)).1
                (execute_trade "xyz" BUY 10 100%float 5%float 10%float
                   (desk logged_in)).2
                env0 [Login] new_NeoAPI eq_refl env0_steady) as H.
  do 3 (discharge H).
  destruct H as (mid & sid & tid & api' & Hids & _ & Hc & Hm & Hs & Ht & _).
  assert (order_ids
            (execute_trade "xyz" BUY 10 100%float 5%float 10%float
               (desk logged_in)).1
          = Some ["MKT17000000021000001"; "MKT17000000031000002";
                  "MKT17000000041000003"]%string) as Hids'
    by (vm_compute; reflexivity).
  rewrite Hids' in Hids. injection Hids as <- <- <-.
  split; [reflexivity |].
  split; [exact env0_steady |]. do 2 (split; [vm_compute; reflexivity |]).
  exists api'. split; [exact Hids' |]. split; [exact Hc |].
  split; [evaluated Hm |]. split; [evaluated Hs | evaluated Ht].
Defined.

Lemma cancelled_order_is_drawn_again_witness :
  ∃ api en g1 g2 info,
    client (serve_all [Login; Place abc] (fresh env0)) = Some api ∧
    orders api !! "MKT17000000021000001"%string = Some en ∧
    0 ≤ p_quantity (b_details en) ∧
    cancel_order "MKT17000000021000001"
      (serve_all [Login; Place abc] (fresh env0)) = (true, g1) ∧
    get_order_status "MKT17000000021000001" g1 = (Some info, g2) ∧
    os_status info = Some "OPEN"%string.
Proof.
  epose proof (cancelled_order_is_drawn_again "MKT17000000021000001"
                 (serve_all [Login; Place abc] (fresh env0)) _ _) as H.
  do 2 (discharge H).
  discharge_with H ltac:(intros Hgt; discriminate Hgt).
  destruct H as (g1 & g2 & info & api2 & en2 & Hc & _ & Hp & Hst & _).
  eexists _, _, g1, g2, info.
  do 2 (split; [vm_compute; reflexivity |]).
  split; [vm_compute; intros Hgt; discriminate Hgt |].
  split; [exact Hc |]. split; [exact Hp |].
  rewrite Hst. vm_compute. reflexivity.
Defined.

(** The monitor of scenario 1 on the mock broker, after the program has
    logged in again: the new [NeoAPI] has an empty book. *)
Lemma unknown_order_ids_are_polled_on_witness :
  ∃ t trade w',
    tasks (execute_trade "XYZ" BUY 10 100%float 5%float 10%float
             (desk logged_in)).2 !! 1%nat = Some t ∧
    coro t = monitor_oco_orders 0 ∧ done t = false ∧ must_cancel t = false ∧
    heap (execute_trade "XYZ" BUY 10 100%float 5%float 10%float
            (desk logged_in)).2 !! 0%nat = Some trade ∧
    active trade = true ∧
    run_each step_task [1%nat; 1%nat; 1%nat]
      (with_gateway
         (authenticate
            (gateway
               (execute_trade "XYZ" BUY 10 100%float 5%float 10%float
                  (desk logged_in)).2)).2
         (execute_trade "XYZ" BUY 10 100%float 5%float 10%float
            (desk logged_in)).2) = (tt, w') ∧
    heap w' !! 0%nat = Some trade ∧ tasks w' !! 1%nat = Some t.
Proof.
  epose proof (unknown_order_ids_are_polled_on 3 1 0
                 (with_gateway
                    (authenticate
                       (gateway
                          (execute_trade "XYZ" BUY 10 100%float 5%float
                             10%float (desk logged_in)).2)).2
                    (execute_trade "XYZ" BUY 10 100%float 5%float 10%float
                       (desk logged_in)).2) _ _ new_NeoAPI) as H.
  do 9 (discharge H).
  destruct H as (w' & Hrun & _ & Hh & Hk & _).
  eexists _, _, w'. do 6 (split; [vm_compute; reflexivity |]).
  split; [exact Hrun |]. rewrite Hh, Hk.
  split; vm_compute; reflexivity.
Defined.
